(** * chrome-devtools-cli: session runtime, CLI-line decoder and
      accessibility-snapshot baseline/diff flow

    A shallow embedding of the session command loop, of the shell-like
    command decoder ([tokenizeCliLine], [parseToolParamsFromCliTokens]) and
    of the [take_change_snapshot] tool, with the properties the
    specification states about them. *)

From Stdlib Require Import String Ascii List Bool.
From stdpp Require Import list strings gmap pretty.

Local Open Scope string_scope.
Set Warnings "-register-all".

(** ** Strings

    A JavaScript string is modelled as a [string]; one [ascii] stands for one
    character whose code point is below 256.  *)

Definition dquote : ascii := "034"%char.
Definition squote : ascii := "'"%char.
Definition backslash : ascii := "\"%char.

(** The one-character string of [c]. *)
Definition chr (c : ascii) : string := String c EmptyString.

Definition dq : string := chr dquote.

(** [`"${s}"`]: [s] between double quotes. *)
Definition quoted (s : string) : string := dq +:+ s +:+ dq.

(** [/\s/.test(char)]: the white space and line terminator code points
    below 256 are TAB, LF, VT, FF, CR, SPACE and NBSP. *)
Definition isSpace (c : ascii) : bool :=
  let n := nat_of_ascii c in
  (Nat.leb 9 n && Nat.leb n 13) || Nat.eqb n 32 || Nat.eqb n 160.

Definition isEmpty (s : string) : bool :=
  match s with EmptyString => true | String _ _ => false end.

Fixpoint trimStart (s : string) : string :=
  match s with
  | EmptyString => EmptyString
  | String c rest => if isSpace c then trimStart rest else s
  end.

Fixpoint trimEnd (s : string) : string :=
  match s with
  | EmptyString => EmptyString
  | String c rest =>
      let rest' := trimEnd rest in
      if isSpace c && isEmpty rest' then EmptyString else String c rest'
  end.

(** [String.prototype.trim]. *)
Definition trim (s : string) : string := trimEnd (trimStart s).

(** [s.startsWith(p)]. *)
Fixpoint startsWith (s p : string) {struct p} : bool :=
  match p with
  | EmptyString => true
  | String c p' =>
      match s with
      | EmptyString => false
      | String d s' => Ascii.eqb d c && startsWith s' p'
      end
  end.

(** [s.slice(n)] for [0 <= n]. *)
Fixpoint slice_from (n : nat) (s : string) : string :=
  match n, s with
  | O, _ => s
  | S n', String _ rest => slice_from n' rest
  | S _, EmptyString => EmptyString
  end.

(** [first.replaceAll('-', '_')]. *)
Fixpoint dashesToUnderscores (s : string) : string :=
  match s with
  | EmptyString => EmptyString
  | String c rest =>
      String (if Ascii.eqb c "-" then "_"%char else c) (dashesToUnderscores rest)
  end.

Definition isAlnum (c : ascii) : bool :=
  let n := nat_of_ascii c in
  (Nat.leb 48 n && Nat.leb n 57) || (Nat.leb 65 n && Nat.leb n 90)
  || (Nat.leb 97 n && Nat.leb n 122).

(** [c.toUpperCase()] on a character matched by [[a-zA-Z0-9]]. *)
Definition toUpperCase (c : ascii) : ascii :=
  let n := nat_of_ascii c in
  if Nat.leb 97 n && Nat.leb n 122 then ascii_of_nat (n - 32) else c.

(** [key.replaceAll(/-([a-zA-Z0-9])/g, (_, c) => c.toUpperCase())]. *)
Fixpoint kebabToCamelCase (key : string) : string :=
  match key with
  | EmptyString => EmptyString
  | String c rest =>
      match rest with
      | String d rest' =>
          if Ascii.eqb c "-" && isAlnum d
          then String (toUpperCase d) (kebabToCamelCase rest')
          else String c (kebabToCamelCase rest)
      | EmptyString => String c EmptyString
      end
  end.

(** [s.indexOf('=')] as a split: the text before the first [=] and, when
    there is one, the text after it. *)
Fixpoint splitAtEquals (s : string) : string * option string :=
  match s with
  | EmptyString => (EmptyString, None)
  | String c rest =>
      if Ascii.eqb c "=" then (EmptyString, Some rest)
      else let '(k, v) := splitAtEquals rest in (String c k, v)
  end.

(** ** Thrown errors

    A computation that may [throw new Error(msg)] returns [Err msg]; the
    callers only ever read [err.message]. *)

Inductive result (A : Type) : Type :=
| Ok (a : A)
| Err (message : string).
Arguments Ok {A} a.
Arguments Err {A} message.

#[global] Instance result_ret : MRet result := fun _ a => Ok a.
#[global] Instance result_bind : MBind result := fun _ _ k r =>
  match r with Ok a => k a | Err m => Err m end.

(** ** The CLI-line tokenizer *)

Module Tokenizer.

(** The locals of [tokenizeCliLine]. *)
Record State := mkState {
  tokens : list string;
  current : string;
  quote : option ascii;
  escaping : bool
}.

Definition init : State := mkState [] EmptyString None false.

Definition append (st : State) (c : ascii) : State :=
  mkState (tokens st) (current st +:+ chr c) (quote st) (escaping st).

(** The closure [push]. *)
Definition push (st : State) : State :=
  if isEmpty (current st) then st
  else mkState (tokens st ++ [current st]) EmptyString (quote st) (escaping st).

(** One iteration of [for (const char of line)]. *)
Definition step (st : State) (char : ascii) : State :=
  if escaping st then
    mkState (tokens st) (current st +:+ chr char) (quote st) false
  else if Ascii.eqb char backslash then
    mkState (tokens st) (current st) (quote st) true
  else
    match quote st with
    | Some q =>
        if Ascii.eqb char q
        then mkState (tokens st) (current st) None (escaping st)
        else append st char
    | None =>
        if Ascii.eqb char dquote || Ascii.eqb char squote
        then mkState (tokens st) (current st) (Some char) (escaping st)
        else if isSpace char then push st
        else append st char
    end.

Fixpoint scan (st : State) (line : string) : State :=
  match line with
  | EmptyString => st
  | String char rest => scan (step st char) rest
  end.

(** Every token collected so far is non-empty. *)
Definition nonEmptyTokens (st : State) : Prop :=
  Forall (fun t => t <> EmptyString) (tokens st).

Definition unterminated_msg : string := "Unterminated quote in CLI line".

Definition finish (st : State) : result (list string) :=
  match quote st with
  | Some _ => Err unterminated_msg
  | None =>
      let st' := if escaping st then append st backslash else st in
      Ok (tokens (push st'))
  end.

End Tokenizer.

Definition tokenizeCliLine (line : string) : result (list string) :=
  Tokenizer.finish (Tokenizer.scan Tokenizer.init line).

Definition fill_line : string := "fill <uid> " +:+ quoted "Example text".

(** ** JavaScript values and the runtime's built-ins

    Parameter values, JSON messages and accessibility attributes are JSON
    values.  Numbers are kept abstract: the decoder only builds them with
    [Number(raw)] and tests them with [Number.isFinite]. *)

Inductive Json (Num : Type) : Type :=
| JNull
| JBool (b : bool)
| JNum (n : Num)
| JStr (s : string)
| JArr (items : list (Json Num))
| JObj (fields : list (string * Json Num)).
Arguments JNull {Num}.
Arguments JBool {Num} b.
Arguments JNum {Num} n.
Arguments JStr {Num} s.
Arguments JArr {Num} items.
Arguments JObj {Num} fields.

(** The built-ins of the JavaScript runtime that the program calls. *)
Class JsRuntime (Num : Type) := {
  Number : string -> Num;
  Number_isFinite : Num -> bool;
  Number_truthy : Num -> bool;
  Number_toString : Num -> string;
  JSON_parse : string -> result (Json Num);
  JSON_stringify : Json Num -> string
}.

(** [obj[key]] on a parsed JSON object. *)
Fixpoint field {Num} (fields : list (string * Json Num)) (key : string)
  : option (Json Num) :=
  match fields with
  | [] => None
  | (k, v) :: rest => if String.eqb k key then Some v else field rest key
  end.

(** [s.toLowerCase()]: below 256 the upper-case letters are [A]-[Z] and
    U+00C0-U+00DE without the multiplication sign U+00D7. *)
Definition toLowerCase (s : string) : string :=
  let lower (c : ascii) :=
    let n := nat_of_ascii c in
    if (Nat.leb 65 n && Nat.leb n 90)
       || (Nat.leb 192 n && Nat.leb n 222 && negb (Nat.eqb n 215))
    then ascii_of_nat (n + 32) else c in
  string_of_list_ascii (map lower (list_ascii_of_string s)).

(** ** Parameter schemas

    The shapes that the decoder reads through the [ZodDef] interface:
    [typeName], [values], [type], [innerType] / [schema] and [defaultValue].
    The [description] is documentation only and is left out.  A wrapper
    built by zod always carries its inner schema, so the [break] of
    [unwrapZodSchema] on a missing one is not reached. *)

Inductive ZodSchema (Num : Type) : Type :=
| ZodString
| ZodNumber
| ZodBoolean
| ZodEnum (values : list string)
| ZodArray (type : option (ZodSchema Num))
| ZodObject
| ZodOther (typeName : string)
| ZodOptional (innerType : ZodSchema Num)
| ZodDefault (innerType : ZodSchema Num) (defaultValue : option (Json Num))
| ZodEffects (schema : ZodSchema Num).
Arguments ZodString {Num}.
Arguments ZodNumber {Num}.
Arguments ZodBoolean {Num}.
Arguments ZodEnum {Num} values.
Arguments ZodArray {Num} type.
Arguments ZodObject {Num}.
Arguments ZodOther {Num} typeName.
Arguments ZodOptional {Num} innerType.
Arguments ZodDefault {Num} innerType defaultValue.
Arguments ZodEffects {Num} schema.

(** The result of [unwrapZodSchema]. *)
Record Unwrapped (Num : Type) := mkUnwrapped {
  unwrapped : ZodSchema Num;
  required : bool;
  defaultValue : option (Json Num)
}.
Arguments mkUnwrapped {Num} _ _ _.
Arguments unwrapped {Num} _.
Arguments required {Num} _.
Arguments defaultValue {Num} _.

Section Decoder.
Context {Num : Type} `{JsRuntime Num}.

Abbreviation Json := (Json Num).
Abbreviation ZodSchema := (ZodSchema Num).
Abbreviation Params := (gmap string Json).

(** [!!value]. *)
Definition truthy (v : Json) : bool :=
  match v with
  | JNull => false
  | JBool b => b
  | JNum n => Number_truthy n
  | JStr s => negb (isEmpty s)
  | JArr _ | JObj _ => true
  end.

Definition parseJsonObject (arg label : string) : result Json :=
  let wrap (m : string) : result Json :=
    Err ("Failed to parse " +:+ label +:+ " as JSON object: " +:+ m) in
  match JSON_parse arg with
  | Ok (JObj fields) => Ok (JObj fields)
  | Ok _ => wrap (label +:+ " must be a JSON object")
  | Err m => wrap m
  end.

Definition parseJsonArray (arg label : string) : result Json :=
  let wrap (m : string) : result Json :=
    Err ("Failed to parse " +:+ label +:+ " as JSON array: " +:+ m) in
  match JSON_parse arg with
  | Ok (JArr items) => Ok (JArr items)
  | Ok _ => wrap (label +:+ " must be a JSON array")
  | Err m => wrap m
  end.

(** The [while] loop of [unwrapZodSchema], with its locals [required] and
    [defaultValue] as accumulators. *)
Fixpoint unwrapLoop (schema : ZodSchema) (req : bool) (dflt : option Json)
  : Unwrapped Num :=
  match schema with
  | ZodOptional inner => unwrapLoop inner false dflt
  | ZodDefault inner d =>
      unwrapLoop inner false (match d with Some v => Some v | None => dflt end)
  | ZodEffects inner => unwrapLoop inner req dflt
  | _ => mkUnwrapped schema req dflt
  end.

Definition unwrapZodSchema (schema : ZodSchema) : Unwrapped Num :=
  unwrapLoop schema true None.

Definition schemaIsPositionalFriendly (schema : ZodSchema) : bool :=
  match unwrapped (unwrapZodSchema schema) with
  | ZodString | ZodNumber | ZodEnum _ => true
  | _ => false
  end.

Definition parseBooleanLike (value label : string) : result bool :=
  let normalized := toLowerCase (trim value) in
  if String.eqb normalized "true" || String.eqb normalized "1"
     || String.eqb normalized "yes" then Ok true
  else if String.eqb normalized "false" || String.eqb normalized "0"
     || String.eqb normalized "no" then Ok false
  else Err ("Invalid boolean for " +:+ label +:+ ": " +:+ value).

Definition coerceNumber (key raw : string) : result Json :=
  let numberValue := Number raw in
  if Number_isFinite numberValue then Ok (JNum numberValue)
  else Err ("Invalid number for --" +:+ key +:+ ": " +:+ raw).

Definition coerceCliValue (schema : ZodSchema) (key raw : string)
  : result Json :=
  match unwrapped (unwrapZodSchema schema) with
  | ZodString => Ok (JStr raw)
  | ZodNumber => coerceNumber key raw
  | ZodBoolean => b ← parseBooleanLike raw ("--" +:+ key); Ok (JBool b)
  | ZodEnum _ => Ok (JStr raw)
  | ZodObject => parseJsonObject raw ("--" +:+ key)
  | ZodArray inner =>
      let trimmed := trim raw in
      if startsWith trimmed "[" then parseJsonArray trimmed ("--" +:+ key)
      else
        match inner with
        | None => Err ("--" +:+ key +:+ " must be a JSON array")
        | Some inner =>
            match unwrapped (unwrapZodSchema inner) with
            | ZodString => Ok (JStr raw)
            | ZodNumber => coerceNumber key raw
            | ZodEnum _ => Ok (JStr raw)
            | _ => Err ("--" +:+ key +:+ " must be a JSON array")
            end
        end
  | _ => Ok (JStr raw)
  end.

Definition assignCliValue (params : Params) (key : string)
    (schema : ZodSchema) (value : Json) : Params :=
  match unwrapped (unwrapZodSchema schema) with
  | ZodArray _ =>
      match value with
      | JArr _ => <[key := value]> params
      | _ =>
          match params !! key with
          | None => <[key := JArr [value]]> params
          | Some existing =>
              if negb (truthy existing) then <[key := JArr [value]]> params
              else
                match existing with
                | JArr items => <[key := JArr (items ++ [value])]> params
                | _ => <[key := JArr [existing; value]]> params
                end
          end
      end
  | _ => <[key := value]> params
  end.

(** [new Map(schemaEntries)]: a later entry replaces an earlier one with
    the same key. *)
Definition schemaByKey (schemaEntries : list (string * ZodSchema))
  : gmap string ZodSchema :=
  fold_left (fun m '(k, s) => <[k := s]> m) schemaEntries ∅.

Definition positionalKeys (schemaEntries : list (string * ZodSchema))
  : list string :=
  map fst
    (filter (fun e => schemaIsPositionalFriendly (snd e) = true)
       (filter (fun e => required (unwrapZodSchema (snd e)) = true)
          schemaEntries)).

(** The locals of the token loop. *)
Record ParseState := mkParseState {
  params : Params;
  nextPositionalKeyIndex : nat;
  afterDoubleDash : bool
}.

(** The body of [for (let i = 1; i < tokens.length; i++)], one call per
    value of [i]; [rest] holds [tokens[i + 1]] onwards, and the [i++] of a
    flag that takes its value from the next token drops that token. *)
Fixpoint parseLoop (schemaEntries : list (string * ZodSchema))
    (tokens : list string) (st : ParseState) : result Params :=
  match tokens with
  | [] => Ok (params st)
  | token :: rest =>
      if String.eqb token "--" then
        parseLoop schemaEntries rest
          (mkParseState (params st) (nextPositionalKeyIndex st) true)
      else if negb (afterDoubleDash st) && startsWith token "--" then
        let withoutPrefix := slice_from 2 token in
        if isEmpty withoutPrefix then parseLoop schemaEntries rest st
        else if startsWith withoutPrefix "no-" then
          let rawKey := slice_from 3 withoutPrefix in
          let key := kebabToCamelCase rawKey in
          match schemaByKey schemaEntries !! key with
          | None => Err ("Unknown param: --" +:+ rawKey)
          | Some schema =>
              parseLoop schemaEntries rest
                (mkParseState
                   (assignCliValue (params st) key schema (JBool false))
                   (nextPositionalKeyIndex st) (afterDoubleDash st))
          end
        else
          let '(rawKey, rawValue) := splitAtEquals withoutPrefix in
          let key := kebabToCamelCase rawKey in
          match schemaByKey schemaEntries !! key with
          | None => Err ("Unknown param: --" +:+ rawKey)
          | Some schema =>
              let assign (value : Json) :=
                mkParseState (assignCliValue (params st) key schema value)
                  (nextPositionalKeyIndex st) (afterDoubleDash st) in
              match rawValue, unwrapped (unwrapZodSchema schema) with
              | None, ZodBoolean =>
                  parseLoop schemaEntries rest (assign (JBool true))
              | None, _ =>
                  match rest with
                  | [] => Err ("Missing value for --" +:+ rawKey)
                  | next :: rest' =>
                      coercedValue ← coerceCliValue schema key next;
                      parseLoop schemaEntries rest' (assign coercedValue)
                  end
              | Some rawValue, _ =>
                  coercedValue ← coerceCliValue schema key rawValue;
                  parseLoop schemaEntries rest (assign coercedValue)
              end
          end
      else
        match positionalKeys schemaEntries !! nextPositionalKeyIndex st with
        | None => Err ("Unexpected extra arg: " +:+ token)
        | Some key =>
            match schemaByKey schemaEntries !! key with
            | None =>
                Err ("Unexpected positional arg for unknown param: " +:+ key)
            | Some schema =>
                value ← coerceCliValue schema key token;
                parseLoop schemaEntries rest
                  (mkParseState (<[key := value]> (params st))
                     (S (nextPositionalKeyIndex st)) (afterDoubleDash st))
            end
        end
  end.

(** [parseToolParamsFromCliTokens(tool, tokens)], on [tool.schema]; the
    loop starts after the tool name [tokens[0]]. *)
Definition parseToolParamsFromCliTokens
    (schemaEntries : list (string * ZodSchema)) (tokens : list string)
  : result Params :=
  parseLoop schemaEntries (drop 1 tokens) (mkParseState ∅ 0 false).

End Decoder.

(** ** Tools and the session's collaborators *)

Inductive ToolCategory :=
| INPUT | NAVIGATION | EMULATION | PERFORMANCE | NETWORK | DEBUGGING.

#[global] Instance ToolCategory_eq_dec : EqDecision ToolCategory.
Proof. solve_decision. Defined.

(** A tool descriptor: [name], [annotations], [schema] (its entries in
    declaration order) and [handler].  A handler reads and updates the shared
    context and fills the response it is given, or throws. *)
Record Tool (Num Ctx Resp : Type) := mkTool {
  name : string;
  category : ToolCategory;
  conditions : option (list string);
  schema : list (string * ZodSchema Num);
  handler : gmap string (Json Num) -> Resp -> Ctx -> Ctx * result Resp
}.
Arguments mkTool {Num Ctx Resp} _ _ _ _ _.
Arguments name {Num Ctx Resp} _.
Arguments category {Num Ctx Resp} _.
Arguments conditions {Num Ctx Resp} _.
Arguments schema {Num Ctx Resp} _.
Arguments handler {Num Ctx Resp} _.

(** The command-line options that the session reads. *)
Inductive CliOutputFormat := json | text.

Record Args := mkArgs {
  categoryEmulation : option bool;
  categoryPerformance : option bool;
  categoryNetwork : option bool;
  experimentalVision : bool;
  format : option CliOutputFormat
}.

(** One item of a tool's content in text format. *)
Inductive ContentItem :=
| TextItem (text : string)
| ImageItem (mimeType data : string).

(** What the process has written. *)
Inductive Written :=
| Stdout (chunk : string)
| Stderr (chunk : string).

Definition nl : string := chr "010"%char.

(** Modelled from the spec: the [Mutex] class of [Mutex.js] is missing; the
    ExecutionGuard is a binary mutual-exclusion token.  [acquire] on a held
    mutex waits for a release: in this single-task model nothing else can
    release it, so the wait never ends and [acquire] has no result. *)
Record Mutex := mkMutex { locked : bool }.

Definition newMutex : Mutex := mkMutex false.

Definition acquire (m : Mutex) : option Mutex :=
  if locked m then None else Some (mkMutex true).

(** [guard.dispose()]. *)
Definition dispose (m : Mutex) : Mutex := mkMutex false.

(** A record of what happened around the guard, kept next to the session
    state to state the guard discipline: [toolMutex.acquire()] returned, a
    handler was called, [guard.dispose()] ran. *)
Inductive GuardEvent :=
| Acquired
| Invoked (tool : string)
| Disposed.

Inductive Control := Continue | Break.

Record SessionState (Ctx : Type) := mkSession {
  context : Ctx;
  toolMutex : Mutex;
  written : list Written;
  guardLog : list GuardEvent
}.
Arguments mkSession {Ctx} _ _ _ _.
Arguments context {Ctx} _.
Arguments toolMutex {Ctx} _.
Arguments written {Ctx} _.
Arguments guardLog {Ctx} _.

(** The outcome of decoding one input line. *)
Inductive Decoded (Num : Type) :=
| Ignored
| Reported (toolName errorText : string)
| Exit
| Command (toolName : string) (rawParams : gmap string (Json Num)).
Arguments Ignored {Num}.
Arguments Reported {Num} _ _.
Arguments Exit {Num}.
Arguments Command {Num} _ _.

Section Session.
Context {Num : Type} `{JsRuntime Num}.
Context {Ctx Resp Content : Type}.

Abbreviation Json := (Json Num).
Abbreviation ZodSchema := (ZodSchema Num).
Abbreviation Params := (gmap string Json).
Abbreviation Tool := (Tool Num Ctx Resp).
Abbreviation SessionState := (SessionState Ctx).

(** [zod.object(tool.schema).parse(rawParams)]. *)
Variable zodObjectParse : list (string * ZodSchema) -> Params -> result Params.
(** [new McpResponse()] and [response.handle(tool.name, context)]; the
    content it returns is serialised as JSON or read as a list of items. *)
Variable newResponse : Resp.
Variable responseHandle : Resp -> string -> Ctx -> Ctx * result Content.
Variable contentJson : Content -> Json.
Variable contentItems : Content -> list ContentItem.
(** The registry [tools] and the parsed command line [args]. *)
Variable tools : list Tool.
Variable args : Args.

Definition findTool (toolName : string) : option Tool :=
  find (fun t => String.eqb (name t) toolName) tools.

Definition toolIsEnabled (tool : Tool) : bool :=
  if bool_decide (category tool = EMULATION)
     && bool_decide (categoryEmulation args = Some false) then false
  else if bool_decide (category tool = PERFORMANCE)
     && bool_decide (categoryPerformance args = Some false) then false
  else if bool_decide (category tool = NETWORK)
     && bool_decide (categoryNetwork args = Some false) then false
  else if match conditions tool with
          | Some cs => existsb (String.eqb "computerVision") cs
          | None => false
          end && negb (experimentalVision args) then false
  else true.

Definition sessionFormat : CliOutputFormat :=
  match format args with Some f => f | None => json end.

Definition writeJsonLine (obj : Json) : list Written :=
  [Stdout (JSON_stringify obj +:+ nl)].

Definition writeItem (item : ContentItem) : Written :=
  match item with
  | TextItem t => Stdout (t +:+ nl)
  | ImageItem mimeType data =>
      Stdout ("[image " +:+ mimeType +:+ " " +:+ pretty (String.length data)
              +:+ "b base64]" +:+ nl)
  end.

Definition writeToolSuccess (toolName : string) (content : Content)
  : list Written :=
  match sessionFormat with
  | json =>
      writeJsonLine
        (JObj [("tool", JStr toolName); ("content", contentJson content)])
  | text => map writeItem (contentItems content)
  end.

Definition writeToolError (toolName errorText : string) : list Written :=
  match sessionFormat with
  | json =>
      writeJsonLine
        (JObj [("tool", JStr toolName); ("isError", JBool true);
               ("error", JStr errorText)])
  | text => [Stderr (toolName +:+ ": " +:+ errorText +:+ nl)]
  end.

Definition missingToolField : string :=
  "Missing required field: " +:+ quoted "tool" +:+ " (string)".

Definition unknownTool (toolName : string) : string :=
  "Unknown tool: " +:+ toolName.

Definition toolDisabled (toolName : string) : string :=
  "Tool " +:+ toolName +:+ " is disabled by category or experimental flags.".

(** [msg['params']] when it is an object, [{}] otherwise. *)
Definition paramsOf (msg : list (string * Json)) : Params :=
  match field msg "params" with
  | Some (JObj fields) => list_to_map fields
  | _ => ∅
  end.

(** The JSON branch of the loop body, up to the tool name and the raw
    parameters. *)
Definition decodeJsonLine (trimmed : string) : Decoded Num :=
  match JSON_parse trimmed with
  | Err message => Reported "session" message
  | Ok (JObj msg) =>
      match field msg "tool" with
      | Some (JStr maybeTool) =>
          if String.eqb maybeTool "exit" || String.eqb maybeTool "quit"
          then Exit
          else if isEmpty (trim maybeTool)
          then Reported "session" missingToolField
          else Command (trim maybeTool) (paramsOf msg)
      | _ => Reported "session" missingToolField
      end
  | Ok _ => Reported "session" "Expected an object message"
  end.

Definition isProgramName (token : string) : bool :=
  String.eqb token "chrome_devtools" || String.eqb token "chrome-devtools-cli"
  || String.eqb token "chrome-devtools-mcp".

(** [commandTokens]: the tokens without a leading program name. *)
Definition stripProgramName (tokens : list string) : list string :=
  match tokens with
  | first :: others => if isProgramName first then others else tokens
  | [] => []
  end.

(** The CLI branch of the loop body. *)
Definition decodeCliLine (trimmed : string) : Decoded Num :=
  match tokenizeCliLine trimmed with
  | Err message => Reported "session" message
  | Ok [] => Ignored
  | Ok tokens =>
      let commandTokens := stripProgramName tokens in
      match commandTokens with
      | [] => Ignored
      | first :: _ =>
          if String.eqb first "exit" || String.eqb first "quit" then Exit
          else
            let toolName := dashesToUnderscores first in
            match findTool toolName with
            | None => Reported "session" (unknownTool toolName)
            | Some tool =>
                match parseToolParamsFromCliTokens (schema tool) commandTokens with
                | Err message => Reported toolName message
                | Ok rawParams => Command toolName rawParams
                end
            end
      end
  end.

(** From the top of the loop body to the end of the [if]/[else] that sets
    [toolName] and [rawParams]. *)
Definition decodeLine (line : string) : Decoded Num :=
  let trimmed := trim line in
  if isEmpty trimmed || startsWith trimmed "#" then Ignored
  else if startsWith trimmed "{" then decodeJsonLine trimmed
  else decodeCliLine trimmed.

Definition report (st : SessionState) (ws : list Written) : SessionState :=
  mkSession (context st) (toolMutex st) (written st ++ ws) (guardLog st).

(** The [try] block under the guard: validation, the handler and
    [response.handle]; an exception leaves with the context as it was when
    it was thrown. *)
Definition tryBlock (tool : Tool) (rawParams : Params) (ctx : Ctx)
  : Ctx * result Content * list GuardEvent :=
  match zodObjectParse (schema tool) rawParams with
  | Err e => (ctx, Err e, [])
  | Ok parsedParams =>
      let '(ctx1, r) := handler tool parsedParams newResponse ctx in
      match r with
      | Err e => (ctx1, Err e, [Invoked (name tool)])
      | Ok response =>
          let '(ctx2, r2) := responseHandle response (name tool) ctx1 in
          (ctx2, r2, [Invoked (name tool)])
      end
  end.

(** [const guard = await toolMutex.acquire(); try {...} catch (err) {...}
    finally { guard.dispose(); }]. *)
Definition guarded (st : SessionState) (tool : Tool) (toolName : string)
    (rawParams : Params) : option SessionState :=
  match acquire (toolMutex st) with
  | None => None
  | Some held =>
      let '(ctx', outcome, events) := tryBlock tool rawParams (context st) in
      let ws :=
        match outcome with
        | Ok content => writeToolSuccess (name tool) content
        | Err errorText => writeToolError toolName errorText
        end in
      Some (mkSession ctx' (dispose held) (written st ++ ws)
              (guardLog st ++ Acquired :: events ++ [Disposed]))
  end.

(** The part of the loop body after decoding. *)
Definition execute (st : SessionState) (toolName : string) (rawParams : Params)
  : option SessionState :=
  match findTool toolName with
  | None => Some (report st (writeToolError toolName (unknownTool toolName)))
  | Some tool =>
      if negb (toolIsEnabled tool)
      then Some (report st (writeToolError toolName (toolDisabled toolName)))
      else guarded st tool toolName rawParams
  end.

(** One iteration of [for await (const line of rl)]. *)
Definition processLine (st : SessionState) (line : string)
  : option (SessionState * Control) :=
  match decodeLine line with
  | Ignored => Some (st, Continue)
  | Reported toolName errorText =>
      Some (report st (writeToolError toolName errorText), Continue)
  | Exit => Some (st, Break)
  | Command toolName rawParams =>
      st' ← execute st toolName rawParams; Some (st', Continue)
  end.

(** The loop over the lines of standard input. *)
Fixpoint runSession (lines : list string) (st : SessionState)
  : option SessionState :=
  match lines with
  | [] => Some st
  | line :: rest =>
      match processLine st line with
      | None => None
      | Some (st', Continue) => runSession rest st'
      | Some (st', Break) => Some st'
      end
  end.

Definition startSession (ctx : Ctx) : SessionState :=
  mkSession ctx newMutex [] [].

End Session.

(** ** The JSON-lines session of [src/cliApp.ts]

    The session command of [cliApp.ts] reads JSON lines only, always writes
    JSON lines, and reports a decoding error without a [tool] field. *)

Module CliApp.
Section Session.
Context {Num : Type} `{JsRuntime Num}.
Context {Ctx Resp Content : Type}.

Variable zodObjectParse :
  list (string * ZodSchema Num) -> gmap string (Json Num) ->
  result (gmap string (Json Num)).
Variable newResponse : Resp.
Variable responseHandle : Resp -> string -> Ctx -> Ctx * result Content.
Variable contentJson : Content -> Json Num.
Variable tools : list (Tool Num Ctx Resp).
Variable args : Args.

Definition sessionError (errorText : string) : list Written :=
  writeJsonLine (JObj [("isError", JBool true); ("error", JStr errorText)]).

Definition toolError (toolName errorText : string) : list Written :=
  writeJsonLine
    (JObj [("tool", JStr toolName); ("isError", JBool true);
           ("error", JStr errorText)]).

Definition toolSuccess (toolName : string) (content : Content) : list Written :=
  writeJsonLine
    (JObj [("tool", JStr toolName); ("content", contentJson content)]).

(** The outcome of the loop body before the tool lookup; a command keeps
    the whole message, whose [params] are read under the guard. *)
Inductive Decoded :=
| Ignored
| Reported (errorText : string)
| Exit
| Command (toolName : string) (msg : list (string * Json Num)).

Definition decodeLine (line : string) : Decoded :=
  let trimmed := trim line in
  if isEmpty trimmed then Ignored
  else
    match JSON_parse trimmed with
    | Err message => Reported message
    | Ok (JObj msg) =>
        match field msg "tool" with
        | Some (JStr maybeTool) =>
            if String.eqb maybeTool "exit" || String.eqb maybeTool "quit"
            then Exit
            else if isEmpty (trim maybeTool)
            then Reported missingToolField
            else Command (trim maybeTool) msg
        | _ => Reported missingToolField
        end
    | Ok _ => Reported "Expected an object message"
    end.

Definition guarded (st : SessionState Ctx) (tool : Tool Num Ctx Resp)
    (toolName : string) (msg : list (string * Json Num))
  : option (SessionState Ctx) :=
  match acquire (toolMutex st) with
  | None => None
  | Some held =>
      let '(ctx', outcome, events) :=
        tryBlock zodObjectParse newResponse responseHandle tool (paramsOf msg)
          (context st) in
      let ws :=
        match outcome with
        | Ok content => toolSuccess (name tool) content
        | Err errorText => toolError toolName errorText
        end in
      Some (mkSession ctx' (dispose held) (written st ++ ws)
              (guardLog st ++ Acquired :: events ++ [Disposed]))
  end.

Definition execute (st : SessionState Ctx) (toolName : string)
    (msg : list (string * Json Num)) : option (SessionState Ctx) :=
  match findTool tools toolName with
  | None => Some (report st (toolError toolName (unknownTool toolName)))
  | Some tool =>
      if negb (toolIsEnabled args tool)
      then Some (report st (toolError toolName (toolDisabled toolName)))
      else guarded st tool toolName msg
  end.

Definition processLine (st : SessionState Ctx) (line : string)
  : option (SessionState Ctx * Control) :=
  match decodeLine line with
  | Ignored => Some (st, Continue)
  | Reported errorText => Some (report st (sessionError errorText), Continue)
  | Exit => Some (st, Break)
  | Command toolName msg => st' ← execute st toolName msg; Some (st', Continue)
  end.

Fixpoint runSession (lines : list string) (st : SessionState Ctx)
  : option (SessionState Ctx) :=
  match lines with
  | [] => Some st
  | line :: rest =>
      match processLine st line with
      | None => None
      | Some (st', Continue) => runSession rest st'
      | Some (st', Break) => Some st'
      end
  end.

End Session.
End CliApp.

(** ** Deep equality of JSON values *)

Section JsonEquality.
Context {Num : Type} `{EqDecision Num}.

Definition Json_eq_dec : forall x y : Json Num, {x = y} + {x <> y}.
Proof.
  fix IH 1. intros x y.
  destruct x as [|b|n|s|items|fields], y as [|b'|n'|s'|items'|fields'];
    try (right; discriminate).
  - left; reflexivity.
  - destruct (bool_dec b b'); [left|right]; congruence.
  - destruct (decide (n = n')); [left|right]; congruence.
  - destruct (string_dec s s'); [left|right]; congruence.
  - destruct (List.list_eq_dec IH items items'); [left|right]; congruence.
  - assert (Hp : forall p q : string * Json Num, {p = q} + {p <> q}).
    { intros [k v] [k' v']. destruct (string_dec k k'); [|right; congruence].
      destruct (IH v v'); [left|right]; congruence. }
    destruct (List.list_eq_dec Hp fields fields'); [left|right]; congruence.
Defined.

#[global] Instance Json_EqDecision : EqDecision (Json Num) := Json_eq_dec.

End JsonEquality.

(** ** The diff engine of [utils/accessibilityDiff.js] *)

Module AccessibilityDiff.

Record NormalizedAXNode (Num : Type) := mkNode {
  role : option string;
  name : option string;
  path : string;
  attributes : gmap string (Json Num)
}.
Arguments mkNode {Num} _ _ _ _.
Arguments role {Num} _.
Arguments name {Num} _.
Arguments path {Num} _.
Arguments attributes {Num} _.

(** One [{property, before, after}] entry; an absent value is [None]. *)
Record PropertyChange (Num : Type) := mkPropertyChange {
  property : string;
  before : option (Json Num);
  after : option (Json Num)
}.
Arguments mkPropertyChange {Num} _ _ _.
Arguments property {Num} _.
Arguments before {Num} _.
Arguments after {Num} _.

Record NodeChange (Num : Type) := mkNodeChange {
  change_path : string;
  change_role : option string;
  change_name : option string;
  changes : list (PropertyChange Num)
}.
Arguments mkNodeChange {Num} _ _ _ _.
Arguments change_path {Num} _.
Arguments change_role {Num} _.
Arguments change_name {Num} _.
Arguments changes {Num} _.

Record SnapshotDiff (Num : Type) := mkDiff {
  added : list (NormalizedAXNode Num);
  removed : list (NormalizedAXNode Num);
  changed : list (NodeChange Num)
}.
Arguments mkDiff {Num} _ _ _.
Arguments added {Num} _.
Arguments removed {Num} _.
Arguments changed {Num} _.

Section DiffEngine.
Context {Num : Type} `{EqDecision Num}.

Abbreviation Node := (NormalizedAXNode Num).

(** Modelled from the spec: [diffSnapshots] is missing from the sources.
    Both lists are indexed by [path]. *)
Definition indexByPath (nodes : list Node) : gmap string Node :=
  fold_left (fun m n => <[path n := n]> m) nodes ∅.

(** Modelled from the spec: a field whose value differs, presence or absence
    included, contributes one entry. *)
Definition fieldChange (prop : string) (b a : option (Json Num))
  : list (PropertyChange Num) :=
  if decide (b = a) then [] else [mkPropertyChange prop b a].

(** Modelled from the spec: two nodes at the same path are compared field by
    field across role, name and attributes. *)
Definition nodeChanges (old new : Node) : list (PropertyChange Num) :=
  fieldChange "role" (JStr <$> role old) (JStr <$> role new)
  ++ fieldChange "name" (JStr <$> name old) (JStr <$> name new)
  ++ concat
       (map (fun k => fieldChange k (attributes old !! k) (attributes new !! k))
          (elements (dom (attributes old) ∪ dom (attributes new)))).

(** Modelled from the spec: the changed entry of a path present in both
    snapshots, if any of its fields differs. *)
Definition changedAt (oldIndex : gmap string Node) (entry : string * Node)
  : option (NodeChange Num) :=
  match oldIndex !! entry.1 with
  | None => None
  | Some old =>
      match nodeChanges old entry.2 with
      | [] => None
      | cs => Some (mkNodeChange entry.1 (role entry.2) (name entry.2) cs)
      end
  end.

(** Modelled from the spec: [diffSnapshots] is missing from the sources.  A
    path present only in [new] is an addition, a path present only in [old]
    is a removal, a path present in both with at least one differing field is
    a changed node, and a node without differences contributes nothing. *)
Definition diffSnapshots (old new : list Node) : SnapshotDiff Num :=
  let oldIndex := indexByPath old in
  let newIndex := indexByPath new in
  mkDiff
    (map snd
       (map_to_list (filter (fun e => oldIndex !! e.1 = None) newIndex)))
    (map snd
       (map_to_list (filter (fun e => newIndex !! e.1 = None) oldIndex)))
    (omap (changedAt oldIndex) (map_to_list newIndex)).

(** Modelled from the spec: [hasSnapshotChanges] is missing from the
    sources; it holds iff any of the three lists is non-empty. *)
Definition hasSnapshotChanges (d : SnapshotDiff Num) : bool :=
  negb (bool_decide (added d = []) && bool_decide (removed d = [])
        && bool_decide (changed d = [])).

End DiffEngine.
End AccessibilityDiff.

(** ** The [take_change_snapshot] tool of [tools/snapshot.ts] *)

Module Snapshot.
Import AccessibilityDiff.

(** Modelled from the spec: [McpContext.js] is missing.  The context holds
    the text snapshot that [createTextSnapshot] stores and [getTextSnapshot]
    returns, and the Baseline Store, a single mapping from baseline keys to
    normalized snapshots; [page] is what a capture of the selected page
    yields, [None] when no snapshot can be captured. *)
Record McpContext (Num Raw : Type) := mkMcpContext {
  page : option Raw;
  textSnapshot : option Raw;
  accessibilityBaselines : gmap string (list (NormalizedAXNode Num))
}.
Arguments mkMcpContext {Num Raw} _ _ _.
Arguments page {Num Raw} _.
Arguments textSnapshot {Num Raw} _.
Arguments accessibilityBaselines {Num Raw} _.

(** A context that holds no text snapshot yet. *)
Definition mkContext {Num Raw : Type} (page : option Raw)
    (baselines : gmap string (list (NormalizedAXNode Num)))
  : McpContext Num Raw :=
  mkMcpContext page None baselines.

(** Modelled from the spec: [McpResponse.js] is missing; the tests read the
    lines a handler appended from [responseLines]. *)
Record McpResponse := mkResponse { responseLines : list string }.

Definition appendResponseLine (response : McpResponse) (line : string)
  : McpResponse :=
  mkResponse (responseLines response ++ [line]).

Definition appendResponseLines (response : McpResponse) (lines : list string)
  : McpResponse :=
  fold_left appendResponseLine lines response.

(** [request.params] of [take_change_snapshot]. *)
Record ChangeParams := mkChangeParams {
  baselineKey : option string;
  replaceBaseline : option bool;
  compareTo : option string
}.

Section Handler.
Context {Num Raw : Type} `{JsRuntime Num}.

Abbreviation Node := (NormalizedAXNode Num).
Abbreviation McpCtx := (McpContext Num Raw).

(** The imports from [utils/accessibilityDiff.js]. *)
Variable normalizeSnapshot : Raw -> list Node.
Variable diffSnapshots : list Node -> list Node -> SnapshotDiff Num.
Variable hasSnapshotChanges : SnapshotDiff Num -> bool.

(** Modelled from the spec: Baseline Store, [get(key) -> snapshot|absent]. *)
Definition getAccessibilityBaseline (context : McpCtx) (key : string)
  : option (list Node) :=
  accessibilityBaselines context !! key.

(** Modelled from the spec: Baseline Store, [set(key, snapshot)]; the latest
    write wins. *)
Definition setAccessibilityBaseline (context : McpCtx) (key : string)
    (snapshot : list Node) : McpCtx :=
  mkMcpContext (page context) (textSnapshot context)
    (<[key := snapshot]> (accessibilityBaselines context)).

(** Modelled from the spec: [context.createTextSnapshot(false, {})] captures
    the selected page and stores the capture as the text snapshot of the
    context. *)
Definition createTextSnapshot (context : McpCtx) : McpCtx :=
  mkMcpContext (page context) (page context) (accessibilityBaselines context).

(** Modelled from the spec: [context.getTextSnapshot()]. *)
Definition getTextSnapshot (context : McpCtx) : option Raw :=
  textSnapshot context.

(** [s?.trim() || fallback]. *)
Definition trimmedOr (s : option string) (fallback : string) : string :=
  match s with
  | Some s => if isEmpty (trim s) then fallback else trim s
  | None => fallback
  end.

Definition resolvedBaselineKey (p : ChangeParams) : string :=
  trimmedOr (baselineKey p) "default".

Definition resolvedCompareKey (p : ChangeParams) : string :=
  trimmedOr (compareTo p) (resolvedBaselineKey p).

Definition resolvedReplaceBaseline (p : ChangeParams) : bool :=
  match replaceBaseline p with Some b => b | None => true end.

Definition unknownOr (s : option string) (fallback : string) (f : string -> string)
  : string :=
  match s with
  | Some s => if isEmpty s then fallback else f s
  | None => fallback
  end.

Definition formatSummary (role name : option string) (path : string) : string :=
  unknownOr role "[unknown role]" (fun r => "[" +:+ r +:+ "]")
  +:+ unknownOr name EmptyString (fun n => " " +:+ quoted n)
  +:+ " at path " +:+ path.

Definition formatNodeSummary (node : Node) : string :=
  formatSummary (role node) (name node) (path node).

Definition formatChangeSummary (change : NodeChange Num) : string :=
  formatSummary (change_role change) (change_name change) (change_path change).

(** [formatDiffValue]; [JSON.stringify] does not throw on a JSON value, so
    the [catch] is not reached. *)
Definition formatDiffValue (value : option (Json Num)) : string :=
  match value with
  | None => "undefined"
  | Some JNull => "null"
  | Some (JStr s) => JSON_stringify (JStr s)
  | Some (JNum n) => Number_toString n
  | Some (JBool b) => if b then "true" else "false"
  | Some v => JSON_stringify v
  end.

Definition noSnapshotMessage : string :=
  "Unable to capture accessibility snapshot for the current page.".

Definition createdMessage (compareKey baselineKey : string) : string :=
  if String.eqb compareKey baselineKey
  then "No baseline found for key " +:+ quoted compareKey
       +:+ ". Created a baseline with the current snapshot."
  else "No baseline found for key " +:+ quoted compareKey
       +:+ ". Created a baseline under " +:+ quoted baselineKey
       +:+ " with the current snapshot.".

Definition noChangesMessage (compareKey : string) : string :=
  "No accessibility changes compared to baseline " +:+ quoted compareKey +:+ ".".

Definition sectionLines (title : string) {A} (items : list A)
    (render : A -> list string) : list string :=
  match items with
  | [] => []
  | _ => title :: concat (map render items)
  end.

Definition changeLines (change : NodeChange Num) : list string :=
  ("- " +:+ formatChangeSummary change)
  :: map (fun detail =>
            "  - " +:+ property detail +:+ ": "
            +:+ formatDiffValue (before detail) +:+ " -> "
            +:+ formatDiffValue (after detail))
       (changes change).

(** The lines appended when the diff has changes. *)
Definition diffLines (compareKey : string) (diff : SnapshotDiff Num)
  : list string :=
  ["Accessibility changes compared to baseline " +:+ quoted compareKey +:+ ":";
   "Added nodes: " +:+ pretty (length (added diff))
   +:+ ", Removed nodes: " +:+ pretty (length (removed diff))
   +:+ ", Changed nodes: " +:+ pretty (length (changed diff))]
  ++ sectionLines "## Added" (added diff)
       (fun node => ["- " +:+ formatNodeSummary node])
  ++ sectionLines "## Removed" (removed diff)
       (fun node => ["- " +:+ formatNodeSummary node])
  ++ sectionLines "## Changed" (changed diff) changeLines.

(** The handler of [takeChangeSnapshot]: the context after the call and the
    response with the appended lines. *)
Definition handler (p : ChangeParams) (response : McpResponse)
    (context : McpCtx) : McpCtx * McpResponse :=
  let baselineKey := resolvedBaselineKey p in
  let compareKey := resolvedCompareKey p in
  let replaceBaseline := resolvedReplaceBaseline p in
  let context := createTextSnapshot context in
  match getTextSnapshot context with
  | None => (context, appendResponseLine response noSnapshotMessage)
  | Some snapshot =>
      let normalizedSnapshot := normalizeSnapshot snapshot in
      match getAccessibilityBaseline context compareKey with
      | None =>
          (setAccessibilityBaseline context baselineKey normalizedSnapshot,
           appendResponseLine response (createdMessage compareKey baselineKey))
      | Some baseline =>
          let diff := diffSnapshots baseline normalizedSnapshot in
          let response' :=
            if negb (hasSnapshotChanges diff)
            then appendResponseLine response (noChangesMessage compareKey)
            else appendResponseLines response (diffLines compareKey diff) in
          (if replaceBaseline
           then setAccessibilityBaseline context baselineKey normalizedSnapshot
           else context,
           response')
      end
  end.

End Handler.

(** The handler with the diff engine in place. *)
Definition takeChangeSnapshot {Num Raw : Type} `{JsRuntime Num} `{EqDecision Num}
    (normalizeSnapshot : Raw -> list (NormalizedAXNode Num))
  : ChangeParams -> McpResponse -> McpContext Num Raw ->
    McpContext Num Raw * McpResponse :=
  handler normalizeSnapshot diffSnapshots hasSnapshotChanges.

End Snapshot.

(** ** Parameter validation *)

(** Modelled from the spec: an issue of the validator, with the key of the
    parameter, its schema and the value received there. *)
Record ZodIssue (Num : Type) := mkZodIssue {
  issuePath : string;
  issueSchema : ZodSchema Num;
  issueReceived : option (Json Num)
}.
Arguments mkZodIssue {Num} _ _ _.
Arguments issuePath {Num} _.
Arguments issueSchema {Num} _.
Arguments issueReceived {Num} _.

(** Modelled from the spec: the message of a [ZodError], a rendering of its
    issues that is left open. *)
Class ZodRuntime (Num : Type) := {
  ZodError_message : list (ZodIssue Num) -> string
}.

Section Validation.
Context {Num : Type} `{JsRuntime Num} `{ZodRuntime Num}.

(** Modelled from the spec: the validator [zod.object(schema).parse] comes
    from [third_party/index.js], which is missing; the model follows the
    [zod] library.  A parameter has exactly one shape, and a value of
    another shape is a type mismatch; the wrappers hand a value that is
    there to the schema they wrap.  The nested shape of an object, the
    schemas kept only by name and the checks of an effect are not modelled:
    they accept the value as it is. *)
Fixpoint shapeAccepts (schema : ZodSchema Num) (value : Json Num) : bool :=
  match schema with
  | ZodString => match value with JStr _ => true | _ => false end
  | ZodNumber => match value with JNum _ => true | _ => false end
  | ZodBoolean => match value with JBool _ => true | _ => false end
  | ZodEnum values =>
      match value with
      | JStr s => existsb (String.eqb s) values
      | _ => false
      end
  | ZodArray inner =>
      match value with
      | JArr items =>
          match inner with
          | Some inner => forallb (shapeAccepts inner) items
          | None => true
          end
      | _ => false
      end
  | ZodObject => match value with JObj _ => true | _ => false end
  | ZodOther _ => true
  | ZodOptional inner => shapeAccepts inner value
  | ZodDefault inner _ => shapeAccepts inner value
  | ZodEffects inner => shapeAccepts inner value
  end.

(** Modelled from the spec: the validator is missing; the model follows the
    [zod] library on a parameter that is left out.  [ZodOptional] answers
    a missing value by itself, with no value, and never asks the schema it
    wraps; [ZodDefault] hands its default to the schema it wraps; an effect
    asks the schema it wraps; every other schema requires a value.  The
    result is [None] for an issue, [Some None] for a parameter that stays
    absent and [Some (Some d)] for a default [d]. *)
Fixpoint parseUndefined (schema : ZodSchema Num) : option (option (Json Num)) :=
  match schema with
  | ZodOptional _ => Some None
  | ZodDefault inner (Some d) =>
      if shapeAccepts inner d then Some (Some d) else None
  | ZodDefault _ None => None
  | ZodEffects inner => parseUndefined inner
  | _ => None
  end.

(** Modelled from the spec: [schema.parse(data)] for one parameter, with
    [data] the value at its key or [undefined]. *)
Definition zodParse (schema : ZodSchema Num) (data : option (Json Num))
  : option (option (Json Num)) :=
  match data with
  | Some value => if shapeAccepts schema value then Some (Some value) else None
  | None => parseUndefined schema
  end.

(** Modelled from the spec: one turn of the validator over the declared
    parameters.  A parsed value is stored under its key, a parameter without
    a value is left out and an issue is collected. *)
Definition parseEntry (rawParams : gmap string (Json Num))
    (acc : gmap string (Json Num) * list (ZodIssue Num))
    (entry : string * ZodSchema Num)
  : gmap string (Json Num) * list (ZodIssue Num) :=
  match zodParse entry.2 (rawParams !! entry.1) with
  | Some (Some value) => (<[entry.1 := value]> acc.1, acc.2)
  | Some None => acc
  | None =>
      (acc.1,
       (acc.2 ++ [mkZodIssue entry.1 entry.2 (rawParams !! entry.1)])%list)
  end.

(** Modelled from the spec: validate and coerce [rawParams] against the
    parameter declarations of the tool.  Keys that are not declared are
    dropped; with an issue the validator throws a [ZodError] that holds all
    of them. *)
Definition validateParams (schemaEntries : list (string * ZodSchema Num))
    (rawParams : gmap string (Json Num)) : result (gmap string (Json Num)) :=
  let parsed := foldl (parseEntry rawParams) (∅, []) schemaEntries in
  match parsed.2 with
  | [] => Ok parsed.1
  | issues => Err (ZodError_message issues)
  end.

End Validation.

(** ** Lines with a quote left open

    [OpenQuote q line]: read from a position outside an escape where the
    enclosing quote is [q] (none for [None]), [line] ends inside a quote.  A
    backslash escapes the next character, a quote character opens a quote
    outside quotes, and only the same character closes it. *)

Definition isQuoteChar (c : ascii) : Prop := c = dquote \/ c = squote.

Inductive OpenQuote : option ascii -> string -> Prop :=
| open_at_end q : OpenQuote (Some q) EmptyString
| open_escape_at_end q : OpenQuote (Some q) (chr backslash)
| open_escaped st c rest :
    OpenQuote st rest -> OpenQuote st (String backslash (String c rest))
| open_opens q rest :
    isQuoteChar q -> OpenQuote (Some q) rest -> OpenQuote None (String q rest)
| open_closes q rest :
    isQuoteChar q -> OpenQuote None rest -> OpenQuote (Some q) (String q rest)
| open_inside q c rest :
    c <> q -> c <> backslash -> OpenQuote (Some q) rest ->
    OpenQuote (Some q) (String c rest)
| open_outside c rest :
    ~ isQuoteChar c -> c <> backslash -> OpenQuote None rest ->
    OpenQuote None (String c rest).

(** A line with an unterminated double or single quote. *)
Definition Unterminated (line : string) : Prop := OpenQuote None line.

(** ** The guard discipline

    Reading the record of guard events from a state where the guard is held
    or free: the guard is acquired only when free, a handler is called only
    while it is held, and it is disposed only when held.  The result is the
    state of the guard after the last event. *)
Fixpoint guardRun (held : bool) (log : list GuardEvent) : option bool :=
  match log with
  | [] => Some held
  | Acquired :: rest => if held then None else guardRun true rest
  | Invoked _ :: rest => if held then guardRun true rest else None
  | Disposed :: rest => if held then guardRun false rest else None
  end.

(** A session state between two commands: the guard is free and the record
    is one of a guard that was used correctly and is free again. *)
Definition guardFree {Ctx} (st : SessionState Ctx) : Prop :=
  locked (toolMutex st) = false /\ guardRun false (guardLog st) = Some false.

(** The guard events of one guarded command: validation failure leaves
    before the handler is called. *)
Definition commandEvents {Num Ctx Resp : Type}
    (zodObjectParse :
       list (string * ZodSchema Num) -> gmap string (Json Num) ->
       result (gmap string (Json Num)))
    (tool : Tool Num Ctx Resp) (rawParams : gmap string (Json Num))
  : list GuardEvent :=
  Acquired
  :: match zodObjectParse (schema tool) rawParams with
     | Err _ => []
     | Ok _ => [Invoked (name tool)]
     end
  ++ [Disposed].

(** ** Decoded and validated parameters *)

(** Decoding the tokens of a CLI line and validating the result, as the
    session does for a CLI-form command. *)
Definition decodeAndValidate {Num : Type} `{JsRuntime Num} `{ZodRuntime Num}
    (entries : list (string * ZodSchema Num)) (tokens : list string)
  : result (gmap string (Json Num)) :=
  rawParams ← parseToolParamsFromCliTokens entries tokens;
  validateParams entries rawParams.

(** No parameter holds the empty string. *)
Definition noEmptyString {Num : Type} (params : gmap string (Json Num))
  : Prop :=
  forall k, params !! k <> Some (JStr EmptyString).

(** ** Keys and flags *)

(** A parameter name that reads as itself on the command line: not empty,
    without [-] and without [=]. *)
Definition plainKey (key : string) : bool :=
  negb (isEmpty key)
  && forallb (fun c => negb (Ascii.eqb c "-") && negb (Ascii.eqb c "="))
       (list_ascii_of_string key).

(** A flag written [--name=] with nothing after the [=]. *)
Definition emptyInlineValue (token : string) : bool :=
  startsWith token "--"
  && match snd (splitAtEquals (slice_from 2 token)) with
     | Some v => isEmpty v
     | None => false
     end.

(** ** A small runtime and a small registry for the examples

    The runtime agrees with JavaScript on the inputs used below: numbers are
    the decimal integers, [JSON.parse] knows the empty object and rejects
    everything else. *)

Definition digitsToN (s : string) : option N :=
  if isEmpty s then None
  else
    fold_left
      (fun acc c =>
         n ← acc;
         let d := nat_of_ascii c in
         if Nat.leb 48 d && Nat.leb d 57
         then Some (10 * n + N.of_nat (d - 48))%N else None)
      (list_ascii_of_string s) (Some 0%N).

(** The JSON line [{"tool":"nope"}]. *)
Definition nopeMessage : string :=
  "{" +:+ quoted "tool" +:+ ":" +:+ quoted "nope" +:+ "}".

#[global] Instance exampleRuntime : JsRuntime (option N) := {|
  Number := digitsToN;
  Number_isFinite := fun n => match n with Some _ => true | None => false end;
  Number_truthy := fun n => match n with Some 0%N | None => false | _ => true end;
  Number_toString := fun n => match n with Some n => pretty n | None => "NaN" end;
  JSON_parse := fun s =>
    if String.eqb s "{}" then Ok (JObj [])
    else if String.eqb s nopeMessage then Ok (JObj [("tool", JStr "nope")])
    else Err "Unexpected token in JSON";
  JSON_stringify := fun _ => "[json]"
|}.

(** The message of a validation error names the parameters at issue. *)
#[global] Instance exampleZod : ZodRuntime (option N) := {|
  ZodError_message := fun issues =>
    "Invalid parameters: " +:+ String.concat ", " (map issuePath issues)
|}.

(** A boolean whose default is declared inside an optional wrapper, as
    [zod.boolean().default(true).optional()]. *)
Definition innerDefaultSchema : list (string * ZodSchema (option N)) :=
  [("flag", ZodOptional (ZodDefault ZodBoolean (Some (JBool true))))].

(** The parameters of a [fill]-like tool: two required strings. *)
Definition exampleSchema : list (string * ZodSchema (option N)) :=
  [("uid", ZodString); ("value", ZodString)].

(** Optional parameters only: two like those of [take_snapshot] and a
    boolean with a declared default. *)
Definition optionsSchema : list (string * ZodSchema (option N)) :=
  [("verbose", ZodOptional ZodBoolean); ("filePath", ZodOptional ZodString);
   ("includePreserved", ZodDefault ZodBoolean (Some (JBool false)))].

(** A tool that appends nothing and never fails, over a context that
    counts the handler calls. *)
Definition exampleTool : Tool (option N) nat unit :=
  mkTool "fill" INPUT None exampleSchema (fun _ r n => (S n, Ok r)).

Definition exampleArgs : Args := mkArgs None None None false (Some text).

(** The two session loops over this registry, with the validation above
    and a response that renders to no content. *)
Definition exampleRun : list string -> SessionState nat -> option (SessionState nat) :=
  runSession validateParams tt (fun _ _ n => (n, Ok tt)) (fun _ => JArr [])
    (fun _ => []) [exampleTool] exampleArgs.

Definition exampleRunCliApp
  : list string -> SessionState nat -> option (SessionState nat) :=
  CliApp.runSession validateParams tt (fun _ _ n => (n, Ok tt))
    (fun _ => JArr []) [exampleTool] exampleArgs.

(** A page with one node, named by the raw snapshot. *)
Definition exampleNormalize (raw : string)
  : list (AccessibilityDiff.NormalizedAXNode (option N)) :=
  [AccessibilityDiff.mkNode (Some "main") (Some raw) "0" ∅].

(** A line whose double quote is never closed: [fill 1_2], then a double
    quote, then [abc]. *)
Definition openLine : string := "fill 1_2 " +:+ dq +:+ "abc".

(** ** Writing tokens on a line

    The ways to write one token on a CLI line: as it is when it has no
    white space, quote or backslash; between two equal quote characters when
    it has neither that character nor a backslash; with a backslash before
    each of its characters. *)

Definition plainChar (c : ascii) : bool :=
  negb (isSpace c) && negb (Ascii.eqb c dquote) && negb (Ascii.eqb c squote)
  && negb (Ascii.eqb c backslash).

Definition allChars (p : ascii -> bool) (s : string) : bool :=
  forallb p (list_ascii_of_string s).

Fixpoint escapeAll (s : string) : string :=
  match s with
  | EmptyString => EmptyString
  | String c rest => String backslash (String c (escapeAll rest))
  end.

Inductive Rendering (token : string) : string -> Prop :=
| render_plain :
    allChars plainChar token = true -> Rendering token token
| render_quoted q :
    isQuoteChar q ->
    allChars (fun c => negb (Ascii.eqb c q) && negb (Ascii.eqb c backslash))
      token = true ->
    Rendering token (chr q +:+ token +:+ chr q)
| render_escaped : Rendering token (escapeAll token).

(** The characters that the scanner copies as they are. *)
Definition literalIn (q : option ascii) (c : ascii) : bool :=
  match q with
  | Some q => negb (Ascii.eqb c q) && negb (Ascii.eqb c backslash)
  | None => plainChar c
  end.

(** The scanner's state with earlier tokens before its own. *)
Definition withEarlier (earlier : list string) (st : Tokenizer.State)
  : Tokenizer.State :=
  Tokenizer.mkState (earlier ++ Tokenizer.tokens st) (Tokenizer.current st)
    (Tokenizer.quote st) (Tokenizer.escaping st).

(** The line ends in a backslash that escapes nothing. *)
Definition endsEscaped (line : string) : bool :=
  Tokenizer.escaping (Tokenizer.scan Tokenizer.init line).

(** ** The command examples of the documentation generator

    [getCliCommandForTool] of the documentation generator writes, for each
    tool, the example command that the README shows. *)

Module DocGen.
Section Commands.
Context {Num : Type} `{JsRuntime Num}.

(** The [while] loop of the closure [unwrap], with its local [required]. *)
Fixpoint unwrapLoop (schema : ZodSchema Num) (req : bool)
  : ZodSchema Num * bool :=
  match schema with
  | ZodOptional inner => unwrapLoop inner false
  | ZodDefault inner _ => unwrapLoop inner false
  | ZodEffects inner => unwrapLoop inner req
  | _ => (schema, req)
  end.

Definition unwrap (schema : ZodSchema Num) : ZodSchema Num * bool :=
  unwrapLoop schema true.

Definition isPositionalFriendly (schema : ZodSchema Num) : bool :=
  match (unwrap schema).1 with
  | ZodString | ZodNumber | ZodEnum _ => true
  | _ => false
  end.

Definition positionalKeys (schemaEntries : list (string * ZodSchema Num))
  : list string :=
  let requiredEntries :=
    filter (fun e => (unwrap (snd e)).2 = true) schemaEntries in
  map fst (filter (fun e => isPositionalFriendly (snd e) = true) requiredEntries).

(** The function [isRequired] of the tool reference: it looks under the
    [ZodEffects] wrappers only. *)
Fixpoint isRequired (schema : ZodSchema Num) : bool :=
  match schema with
  | ZodEffects inner => isRequired inner
  | ZodOptional _ | ZodDefault _ _ => false
  | _ => true
  end.

(** [value.endsWith('>')]. *)
Fixpoint endsWithChar (s : string) (c : ascii) : bool :=
  match s with
  | EmptyString => false
  | String d EmptyString => Ascii.eqb d c
  | String _ rest => endsWithChar rest c
  end.

(** [value.includes(c)] and [/\s/.test(value)]. *)
Definition someChar (p : ascii -> bool) (s : string) : bool :=
  existsb p (list_ascii_of_string s).

(** The closure [formatCliArg]. *)
Definition formatCliArg (value : Json Num) : string :=
  match value with
  | JNull => "null"
  | JStr s =>
      if startsWith s "<" && endsWithChar s ">" then s
      else if someChar isSpace s || someChar (Ascii.eqb dquote) s
              || someChar (Ascii.eqb squote) s
      then JSON_stringify (JStr s)
      else s
  | JNum n => Number_toString n
  | JBool b => if b then "true" else "false"
  | _ => chr squote +:+ JSON_stringify value +:+ chr squote
  end.

(** A value read from [exampleParams], an object literal of the table of
    examples: one of its own values, or a member that it inherits from
    [Object.prototype]. *)
Inductive ExampleValue :=
| Own (value : Json Num)
| InheritedFunction
| InheritedPrototype.

(** The function members of [Object.prototype]. *)
Definition objectPrototypeFunctions : list string :=
  ["constructor"; "__defineGetter__"; "__defineSetter__"; "hasOwnProperty";
   "__lookupGetter__"; "__lookupSetter__"; "isPrototypeOf";
   "propertyIsEnumerable"; "toString"; "valueOf"; "toLocaleString"].

(** [key in exampleParams ? exampleParams[key] : `<${key}>`], for a
    positional parameter: [in] also finds the inherited members. *)
Definition exampleOr (exampleParams : list (string * Json Num)) (key : string)
  : ExampleValue :=
  match field exampleParams key with
  | Some value => Own value
  | None =>
      if existsb (String.eqb key) objectPrototypeFunctions
      then InheritedFunction
      else if String.eqb key "__proto__" then InheritedPrototype
      else Own (JStr ("<" +:+ key +:+ ">"))
  end.

(** [formatCliArg] on a value read from [exampleParams]: [JSON.stringify]
    returns [undefined] for a function and writes [Object.prototype], which
    has no enumerable member, as the empty object. *)
Definition formatExample (value : ExampleValue) : string :=
  match value with
  | Own value => formatCliArg value
  | InheritedFunction => chr squote +:+ "undefined" +:+ chr squote
  | InheritedPrototype => chr squote +:+ JSON_stringify (JObj []) +:+ chr squote
  end.

(** [hasExample ? exampleParams[key] : `<${key}>`], for a flag: [hasExample]
    is [hasOwnProperty]. *)
Definition ownExampleOr (exampleParams : list (string * Json Num))
    (key : string) : Json Num :=
  match field exampleParams key with
  | Some value => value
  | None => JStr ("<" +:+ key +:+ ">")
  end.

(** The body of the loop over [schemaEntries]: the parts pushed for one
    entry. *)
Definition flagParts (exampleParams : list (string * Json Num))
    (positional : list string) (entry : string * ZodSchema Num)
  : list string :=
  let '(key, schema) := entry in
  if existsb (String.eqb key) positional then []
  else
    let hasExample :=
      match field exampleParams key with Some _ => true | None => false end in
    if negb (unwrap schema).2 && negb hasExample then []
    else
      let value := ownExampleOr exampleParams key in
      match (unwrap schema).1 with
      | ZodBoolean =>
          match value with
          | JBool b => [if b then "--" +:+ key else "--no-" +:+ key]
          | _ => ["--" +:+ key; "<true|false>"]
          end
      | _ => ["--" +:+ key; formatCliArg value]
      end.

(** [getCliCommandForTool(tool)], with [exampleParams] standing for
    [TOOL_CLI_EXAMPLE_PARAMS[tool.name] ?? {}]. *)
Definition commandParts (exampleParams : list (string * Json Num))
    (toolName : string) (schemaEntries : list (string * ZodSchema Num))
  : list string :=
  let positional := positionalKeys schemaEntries in
  ["chrome_devtools"; toolName]
  ++ map (fun key => formatExample (exampleOr exampleParams key)) positional
  ++ concat (map (flagParts exampleParams positional) schemaEntries).

Definition getCliCommandForTool (exampleParams : list (string * Json Num))
    (toolName : string) (schemaEntries : list (string * ZodSchema Num))
  : string :=
  String.concat " " (commandParts exampleParams toolName schemaEntries).

End Commands.
Arguments Own {Num} value.
Arguments InheritedFunction {Num}.
Arguments InheritedPrototype {Num}.
End DocGen.

(** A runtime like [exampleRuntime] whose [JSON.stringify] writes a string
    between double quotes, as JavaScript does for a string without double
    quote, backslash or control character. *)
Definition quotingRuntime : JsRuntime (option N) := {|
  Number := digitsToN;
  Number_isFinite := fun n => match n with Some _ => true | None => false end;
  Number_truthy := fun n => match n with Some 0%N | None => false | _ => true end;
  Number_toString := fun n => match n with Some n => pretty n | None => "NaN" end;
  JSON_parse := fun s =>
    if String.eqb s "{}" then Ok (JObj [])
    else Err "Unexpected token in JSON";
  JSON_stringify := fun v =>
    match v with JStr s => quoted s | _ => "[json]" end
|}.

(** ** Shapes *)

(** The wrappers that [unwrapZodSchema] looks through. *)
Definition isWrapper {Num : Type} (schema : ZodSchema Num) : bool :=
  match schema with
  | ZodOptional _ | ZodDefault _ _ | ZodEffects _ => true
  | _ => false
  end.

(** The shapes whose raw text is kept as it is by [coerceCliValue]. *)
Definition textShaped {Num : Type} `{JsRuntime Num} (schema : ZodSchema Num)
  : bool :=
  match unwrapped (unwrapZodSchema schema) with
  | ZodString | ZodEnum _ | ZodOther _ => true
  | _ => false
  end.

(** The parameters after reading positional values for the given keys, in
    order. *)
Definition fillPositionals {Num : Type} (params : gmap string (Json Num))
    (keys values : list string) : gmap string (Json Num) :=
  fold_left (fun m kv => <[kv.1 := JStr kv.2]> m) (zip keys values) params.

(** The tokens [--key v] for each value [v]. *)
Definition repeatedFlag (key : string) (values : list string) : list string :=
  concat (map (fun v => ["--" +:+ key; v]) values).

(** A token that the loop reads as a positional value. *)
Definition readPositionally (afterDD : bool) (token : string) : Prop :=
  token <> "--" /\ (afterDD = true \/ startsWith token "--" = false).


(** An array parameter whose items are strings or enum values. *)
Definition arrayOfText {Num : Type} `{JsRuntime Num} (schema : ZodSchema Num)
  : bool :=
  match unwrapped (unwrapZodSchema schema) with
  | ZodArray (Some inner) =>
      match unwrapped (unwrapZodSchema inner) with
      | ZodString | ZodEnum _ => true
      | _ => false
      end
  | _ => false
  end.

(** The kind of JSON value that the decoder can leave at a parameter of the
    given shape: a boolean for a boolean, an array for an array, and for
    the other shapes the coerced kind or the [false] that [--no-key]
    writes. *)
Definition decodedKind {Num : Type} `{JsRuntime Num} (schema : ZodSchema Num)
    (value : Json Num) : bool :=
  match unwrapped (unwrapZodSchema schema), value with
  | ZodBoolean, JBool _ => true
  | ZodBoolean, _ => false
  | ZodArray _, JArr _ => true
  | ZodArray _, _ => false
  | _, JBool false => true
  | ZodNumber, JNum n => Number_isFinite n
  | ZodNumber, _ => false
  | ZodObject, JObj _ => true
  | ZodObject, _ => false
  | _, JStr _ => true
  | _, _ => false
  end.

(** ** Reading the records of a session *)

Definition isInvoked (e : GuardEvent) : bool :=
  match e with Invoked _ => true | _ => false end.

Definition isStdout (w : Written) : bool :=
  match w with Stdout _ => true | Stderr _ => false end.

(** The session writes JSON lines. *)
Definition jsonFormat (args : Args) : bool :=
  match sessionFormat args with json => true | text => false end.

(** What one step or one run may have done between two states: the guard
    record and the output have grown, every handler called was that of the
    enabled tool that the registry finds under that name, the context is the
    same unless a handler was called, and with [bounded] the output is at
    most [n] chunks, all on standard output. *)
Definition effect {Num Ctx Resp : Type} (tools : list (Tool Num Ctx Resp))
    (args : Args) (bounded : bool) (n : nat) (st st' : SessionState Ctx)
  : Prop :=
  exists events ws,
    guardLog st' = (guardLog st ++ events)%list
    /\ written st' = (written st ++ ws)%list
    /\ (forall t, Invoked t ∈ events ->
          exists tool,
            findTool tools t = Some tool /\ toolIsEnabled args tool = true)
    /\ (existsb isInvoked events = false -> context st' = context st)
    /\ (bounded = true -> forallb isStdout ws = true /\ length ws <= n).

(** ** One tool call from the command line

    [runToolOnce(args, toolName)] starts or reaches a browser, calls one
    tool under the guard and tears everything down.  [args] is the object
    that yargs parsed, read here as a map from option names to values. *)

Module Once.

(** What the call did with the browser, the guard and the context, in
    order; an event records that the call was made. *)
Inductive Lifecycle :=
| BrowserConnected
| BrowserLaunched
| GuardAcquired
| HandlerCalled (tool : string)
| GuardDisposed
| ContextDisposed
| BrowserClosed
| BrowserDisconnected.

(** The result of the call: the error it threw, if any, what it did and
    what it wrote. *)
Record Outcome := mkOutcome {
  thrown : option string;
  lifecycle : list Lifecycle;
  output : list Written
}.

Definition is_Some_ok {A} (r : result A) : bool :=
  match r with Ok _ => true | Err _ => false end.

Definition isCall (e : Lifecycle) : bool :=
  match e with HandlerCalled _ => true | _ => false end.

Definition lifecycleOf (e : GuardEvent) : Lifecycle :=
  match e with
  | Acquired => GuardAcquired
  | Invoked tool => HandlerCalled tool
  | Disposed => GuardDisposed
  end.

Section RunToolOnce.
Context {Num : Type} `{JsRuntime Num}.
Context {Ctx Resp Content Browser : Type}.

Variable zodObjectParse :
  list (string * ZodSchema Num) -> gmap string (Json Num) ->
  result (gmap string (Json Num)).
Variable newResponse : Resp.
Variable responseHandle : Resp -> string -> Ctx -> Ctx * result Content.
Variable contentJson : Content -> Json Num.
Variable contentItems : Content -> list ContentItem.
Variable tools : list (Tool Num Ctx Resp).
(** [JSON.stringify(value, null, 2)]. *)
Variable stringifyIndented : Json Num -> string.
(** From [saveLogsToFile] to the browser that [ensureBrowserConnected] or
    [ensureBrowserLaunched] returns, with the options computed from
    [args]. *)
Variable ensureBrowserConnected : gmap string (Json Num) -> result Browser.
Variable ensureBrowserLaunched : gmap string (Json Num) -> result Browser.
(** [McpContext.from(browser, logger, {...})]. *)
Variable contextFrom : Browser -> gmap string (Json Num) -> result Ctx.
(** [loadIssueDescriptions()] and [context.detectOpenDevToolsWindows()]. *)
Variable prepare : Ctx -> Ctx * result unit.
(** [context.dispose()], [browser.close()] and [browser.disconnect()]. *)
Variable contextDispose : Ctx -> result unit.
Variable browserClose : Browser -> result unit.
Variable browserDisconnect : Browser -> result unit.

Variable args : gmap string (Json Num).

(** [args.key] read as a condition. *)
Definition argTruthy (key : string) : bool :=
  match args !! key with
  | Some value => truthy value
  | None => false
  end.

(** [args.key] when it is a boolean, for the tests [args.key === false]. *)
Definition argBoolean (key : string) : option bool :=
  match args !! key with
  | Some (JBool b) => Some b
  | _ => None
  end.

(** The options that [toolIsEnabled] reads. *)
Definition enablingArgs : Args :=
  mkArgs (argBoolean "categoryEmulation") (argBoolean "categoryPerformance")
    (argBoolean "categoryNetwork") (argTruthy "experimentalVision") None.

(** The loop over [Object.keys(tool.schema)] that fills [rawParams]. *)
Definition rawParamsOf (tool : Tool Num Ctx Resp) : gmap string (Json Num) :=
  fold_left
    (fun rawParams key =>
       match args !! key with
       | Some value => <[key := value]> rawParams
       | None => rawParams
       end)
    (map fst (schema tool)) ∅.

(** [((args.format as CliOutputFormat | undefined) ?? 'text') === 'json']. *)
Definition wantsJson : bool :=
  match args !! "format" with
  | Some (JStr f) => String.eqb f "json"
  | _ => false
  end.

Definition writeContent (tool : Tool Num Ctx Resp) (content : Content)
  : list Written :=
  if wantsJson
  then [Stdout
          (stringifyIndented
             (JObj [("tool", JStr (name tool));
                    ("content", contentJson content)]) +:+ nl)]
  else map writeItem (contentItems content).

(** The [try] block: the context it leaves, how it ends, the handler calls
    and the output. *)
Definition tryBody (tool : Tool Num Ctx Resp) (context : Ctx)
  : Ctx * result unit * list Lifecycle * list Written :=
  match prepare context with
  | (context0, Err e) => (context0, Err e, [], [])
  | (context0, Ok _) =>
      let '(context1, outcome, events) :=
        tryBlock zodObjectParse newResponse responseHandle tool
          (rawParamsOf tool) context0 in
      match outcome with
      | Err e => (context1, Err e, map lifecycleOf events, [])
      | Ok content =>
          (context1, Ok tt, map lifecycleOf events, writeContent tool content)
      end
  end.

(** The [finally] block: [guard.dispose()], [context.dispose()], then
    [browser.close()] or [browser.disconnect()]; it stops at the first call
    that throws. *)
Definition finallyBlock (shouldCloseBrowser : bool) (browser : Browser)
    (context : Ctx) : result unit * list Lifecycle :=
  match contextDispose context with
  | Err e => (Err e, [GuardDisposed; ContextDisposed])
  | Ok _ =>
      if shouldCloseBrowser
      then (browserClose browser,
            [GuardDisposed; ContextDisposed; BrowserClosed])
      else (browserDisconnect browser,
            [GuardDisposed; ContextDisposed; BrowserDisconnected])
  end.

Definition runToolOnce (toolName : string) : Outcome :=
  match findTool tools toolName with
  | None => mkOutcome (Some (unknownTool toolName)) [] []
  | Some tool =>
      if negb (toolIsEnabled enablingArgs tool)
      then mkOutcome (Some (toolDisabled toolName)) [] []
      else
        let attach :=
          argTruthy "browserUrl" || argTruthy "wsEndpoint"
          || argTruthy "autoConnect" in
        match (if attach then ensureBrowserConnected args
               else ensureBrowserLaunched args) with
        | Err e => mkOutcome (Some e) [] []
        | Ok browser =>
            let started :=
              if attach then BrowserConnected else BrowserLaunched in
            let shouldCloseBrowser :=
              negb (argTruthy "browserUrl") && negb (argTruthy "wsEndpoint")
              && negb (argTruthy "autoConnect") in
            match contextFrom browser args with
            | Err e => mkOutcome (Some e) [started] []
            | Ok context =>
                let '(context', ending, calls, ws) := tryBody tool context in
                let '(closing, events) :=
                  finallyBlock shouldCloseBrowser browser context' in
                mkOutcome
                  (match closing, ending with
                   | Err e, _ => Some e
                   | Ok _, Err e => Some e
                   | Ok _, Ok _ => None
                   end)
                  ([started; GuardAcquired] ++ calls ++ events) ws
            end
        end
  end.

End RunToolOnce.
End Once.

(** ** Documented commands *)

(** A string value that the documentation generator writes as one argument
    which reads back as a positional value: not empty, without backslash and
    double quote, plain when it has the placeholder form [<...>], written
    between double quotes by [JSON.stringify], and not of the form of a
    flag. *)
Definition documentable {Num : Type} `{JsRuntime Num} (s : string) : Prop :=
  s <> EmptyString
  /\ DocGen.someChar (Ascii.eqb backslash) s = false
  /\ DocGen.someChar (Ascii.eqb dquote) s = false
  /\ (startsWith s "<" && DocGen.endsWithChar s ">" = true ->
      allChars plainChar s = true)
  /\ JSON_stringify (JStr s : Json Num) = quoted s
  /\ startsWith s "--" = false.

(** ** Further examples *)

(** The parameters of a tool that takes a name and any number of tags. *)
Definition tagsSchema : list (string * ZodSchema (option N)) :=
  [("name", ZodString); ("tags", ZodOptional (ZodArray (Some ZodString)))].

(** One call from the command line over the example registry, with a
    browser that always starts and a teardown that never throws. *)
Definition exampleOnce (args : gmap string (Json (option N)))
  : string -> Once.Outcome :=
  Once.runToolOnce validateParams tt (fun _ _ n => (n, Ok tt))
    (fun _ => JArr []) (fun _ => []) [exampleTool] (fun _ => "{}")
    (fun _ => Ok tt) (fun _ => Ok tt) (fun (_ : unit) _ => Ok 0)
    (fun n => (n, Ok tt)) (fun _ => Ok tt) (fun _ => Ok tt) (fun _ => Ok tt)
    args.

(** The options of [fill 1_2 abc] against a browser to attach to. *)
Definition attachArgs : gmap string (Json (option N)) :=
  {[ "browserUrl" := JStr "http://127.0.0.1:9222";
     "uid" := JStr "1_2"; "value" := JStr "abc"; "format" := JStr "json" ]}.

(** * Properties *)

(** ** Strings *)

Lemma isEmpty_true (s : string) : isEmpty s = true <-> s = EmptyString.
Proof. destruct s; simpl; split; congruence. Qed.

Lemma isEmpty_false (s : string) : isEmpty s = false <-> s <> EmptyString.
Proof. destruct s; simpl; split; congruence. Qed.

Lemma append_cons (x : ascii) (a b : string) :
  String x a +:+ b = String x (a +:+ b).
Proof. reflexivity. Qed.

Lemma append_assoc (a b c : string) : (a +:+ b) +:+ c = a +:+ (b +:+ c).
Proof.
  induction a as [|x a IH]; [reflexivity|].
  now rewrite !append_cons, IH.
Qed.

Lemma append_cancel_l (s a b : string) : s +:+ a = s +:+ b -> a = b.
Proof. apply String.app_inj. Qed.

Lemma append_nonempty_r (a : string) (c : ascii) : a +:+ chr c <> EmptyString.
Proof. destruct a; discriminate. Qed.

(** ** The tokenizer *)

Module TokenizerFacts.
Import Tokenizer.

Lemma push_nonEmpty st : nonEmptyTokens st -> nonEmptyTokens (push st).
Proof.
  unfold nonEmptyTokens, push. intros Hst.
  destruct (isEmpty (current st)) eqn:E; [exact Hst|]. simpl.
  apply Forall_app. split; [exact Hst|].
  constructor; [now apply isEmpty_false | constructor].
Qed.

Lemma step_nonEmpty st c : nonEmptyTokens st -> nonEmptyTokens (step st c).
Proof.
  intros Hst. unfold step.
  destruct (escaping st); [exact Hst|].
  destruct (Ascii.eqb c backslash); [exact Hst|].
  destruct (quote st) as [q|].
  - destruct (Ascii.eqb c q); exact Hst.
  - destruct (Ascii.eqb c dquote || Ascii.eqb c squote); [exact Hst|].
    destruct (isSpace c); [now apply push_nonEmpty | exact Hst].
Qed.

Lemma scan_nonEmpty line : forall st,
  nonEmptyTokens st -> nonEmptyTokens (scan st line).
Proof.
  induction line as [|c rest IH]; intros st Hst; simpl; [exact Hst|].
  apply IH, step_nonEmpty, Hst.
Qed.

(** A line that leaves a quote open leaves the scanner inside a quote. *)
Lemma scan_open_quote q line :
  OpenQuote q line ->
  forall st, escaping st = false -> quote st = q ->
  exists q', quote (scan st line) = Some q'.
Proof.
  induction 1 as [q|q|q0 c rest _ IH|q rest Hq _ IH|q rest Hq _ IH
                 |q c rest Hc Hb _ IH|c rest Hc Hb _ IH];
    intros st Hesc Hquote; simpl.
  - eauto.
  - unfold step. rewrite Hesc. rewrite Ascii.eqb_refl. simpl. eauto.
  - unfold step at 2. rewrite Hesc, Ascii.eqb_refl.
    unfold step. simpl. apply IH; simpl; auto.
  - assert (Hnb : Ascii.eqb q backslash = false).
    { apply Ascii.eqb_neq. destruct Hq; subst; discriminate. }
    assert (Hisq : Ascii.eqb q dquote || Ascii.eqb q squote = true).
    { destruct Hq; subst; reflexivity. }
    unfold step. rewrite Hesc, Hnb, Hquote, Hisq. apply IH; simpl; auto.
  - assert (Hnb : Ascii.eqb q backslash = false).
    { apply Ascii.eqb_neq. destruct Hq; subst; discriminate. }
    unfold step. rewrite Hesc, Hnb, Hquote, Ascii.eqb_refl.
    apply IH; simpl; auto.
  - apply Ascii.eqb_neq in Hc, Hb.
    unfold step. rewrite Hesc, Hb, Hquote, Hc. apply IH; simpl; auto.
  - assert (Hnq : Ascii.eqb c dquote || Ascii.eqb c squote = false).
    { apply orb_false_iff. split; apply Ascii.eqb_neq; intros ->;
        apply Hc; [left | right]; reflexivity. }
    apply Ascii.eqb_neq in Hb.
    unfold step. rewrite Hesc, Hb, Hquote, Hnq.
    destruct (isSpace c); apply IH; unfold push; simpl; auto;
      destruct (isEmpty (current st)); simpl; auto.
Qed.

(** Conversely, a scanner that ends inside a quote has read a line that
    leaves a quote open. *)
Lemma scan_quote_left_open (line : string) :
  forall st,
  (forall q, quote st = Some q -> isQuoteChar q) ->
  (exists q', quote (scan st line) = Some q') ->
  match escaping st, line with
  | true, EmptyString => True
  | true, String _ rest => OpenQuote (quote st) rest
  | false, _ => OpenQuote (quote st) line
  end.
Proof.
  induction line as [|c rest IH]; intros st Hinv [q' Hq'].
  - simpl in Hq'. destruct (escaping st); [exact I|].
    rewrite Hq'. constructor.
  - assert (Hrest : exists q', quote (scan (step st c) rest) = Some q')
      by eauto.
    specialize (IH (step st c)). unfold step in IH, Hrest.
    destruct (escaping st) eqn:Hesc.
    { apply IH; [exact Hinv | exact Hrest]. }
    destruct (Ascii.eqb c backslash) eqn:Hb.
    { apply Ascii.eqb_eq in Hb as ->.
      specialize (IH Hinv Hrest). simpl in IH.
      destruct rest as [|c' rest']; [|now constructor].
      destruct Hrest as [q Hq]. simpl in Hq. rewrite Hq. constructor. }
    apply Ascii.eqb_neq in Hb.
    destruct (quote st) as [q|] eqn:Hquote.
    + destruct (Ascii.eqb c q) eqn:Hc.
      * apply Ascii.eqb_eq in Hc as ->.
        apply open_closes; [now apply Hinv|].
        specialize (IH ltac:(discriminate) Hrest).
        simpl in IH. now rewrite ?Hesc in IH.
      * apply Ascii.eqb_neq in Hc.
        specialize (IH ltac:(simpl; rewrite Hquote; exact Hinv) Hrest).
        simpl in IH. rewrite ?Hesc, ?Hquote in IH. now constructor.
    + destruct (Ascii.eqb c dquote || Ascii.eqb c squote) eqn:Hisq.
      * assert (Hcq : isQuoteChar c).
        { apply orb_prop in Hisq as [E|E]; apply Ascii.eqb_eq in E;
            [left | right]; exact E. }
        apply open_opens; [exact Hcq|].
        specialize (IH ltac:(simpl; now intros q [= <-]) Hrest).
        simpl in IH. now rewrite ?Hesc in IH.
      * assert (Hcq : ~ isQuoteChar c).
        { apply orb_false_iff in Hisq as [E1 E2].
          apply Ascii.eqb_neq in E1, E2. now intros [?|?]. }
        apply open_outside; [exact Hcq | exact Hb |].
        destruct (isSpace c).
        -- assert (Hpush : quote (push st) = None /\ escaping (push st) = false)
             by (unfold push; destruct (isEmpty (current st)); simpl; auto).
           destruct Hpush as [Hpq Hpe].
           specialize (IH ltac:(rewrite Hpq; discriminate) Hrest).
           now rewrite ?Hpe, ?Hpq in IH.
        -- specialize (IH ltac:(simpl; rewrite Hquote; discriminate) Hrest).
           simpl in IH. now rewrite ?Hesc, ?Hquote in IH.
Qed.

End TokenizerFacts.

Lemma tokenize_nonempty (line : string) (tokens : list string) :
  tokenizeCliLine line = Ok tokens -> Forall (fun t => t <> EmptyString) tokens.
Proof.
  unfold tokenizeCliLine, Tokenizer.finish. intros E.
  pose proof (TokenizerFacts.scan_nonEmpty line Tokenizer.init) as Hn.
  assert (Hinit : Tokenizer.nonEmptyTokens Tokenizer.init) by constructor.
  specialize (Hn Hinit).
  set (st := Tokenizer.scan Tokenizer.init line) in *.
  destruct (Tokenizer.quote st); [discriminate|].
  injection E as <-. apply TokenizerFacts.push_nonEmpty.
  destruct (Tokenizer.escaping st); exact Hn.
Qed.

(** The tokenizer fails on the lines with a quote left open and on no
    others. *)
Lemma tokenize_fails_only_unterminated (line : string) (message : string) :
  tokenizeCliLine line = Err message -> Unterminated line.
Proof.
  unfold tokenizeCliLine, Tokenizer.finish. intros E.
  destruct (Tokenizer.quote (Tokenizer.scan Tokenizer.init line)) as [q|] eqn:Hq;
    [|discriminate].
  apply (TokenizerFacts.scan_quote_left_open line Tokenizer.init);
    [discriminate | eauto].
Qed.

Lemma tokenize_unterminated (line : string) :
  Unterminated line -> tokenizeCliLine line = Err Tokenizer.unterminated_msg.
Proof.
  intros Hu. unfold tokenizeCliLine, Tokenizer.finish.
  destruct (TokenizerFacts.scan_open_quote None line Hu Tokenizer.init)
    as [q Hq]; [reflexivity | reflexivity |].
  now rewrite Hq.
Qed.

(** ** The decoder *)

Section DecoderFacts.
Context {Num : Type} `{JsRuntime Num}.

Lemma plain_tail (c : ascii) (key : string) :
  forallb (fun c => negb (Ascii.eqb c "-") && negb (Ascii.eqb c "="))
    (list_ascii_of_string (String c key)) = true ->
  Ascii.eqb c "-" = false /\ Ascii.eqb c "=" = false /\
  forallb (fun c => negb (Ascii.eqb c "-") && negb (Ascii.eqb c "="))
    (list_ascii_of_string key) = true.
Proof.
  simpl. intros E. apply andb_prop in E as [E1 E2].
  apply andb_prop in E1 as [Ea Eb].
  apply negb_true_iff in Ea, Eb. auto.
Qed.

Lemma kebab_plain (key : string) :
  forallb (fun c => negb (Ascii.eqb c "-") && negb (Ascii.eqb c "="))
    (list_ascii_of_string key) = true ->
  kebabToCamelCase key = key.
Proof.
  induction key as [|c rest IH]; intros Hk; [reflexivity|].
  apply plain_tail in Hk as (Hc & _ & Hrest).
  simpl. destruct rest as [|d rest']; [reflexivity|].
  rewrite Hc. simpl andb. cbv iota. f_equal. apply IH, Hrest.
Qed.

Lemma split_plain (key : string) :
  forallb (fun c => negb (Ascii.eqb c "-") && negb (Ascii.eqb c "="))
    (list_ascii_of_string key) = true ->
  splitAtEquals key = (key, None).
Proof.
  induction key as [|c rest IH]; intros Hk; [reflexivity|].
  apply plain_tail in Hk as (_ & Hc & Hrest).
  simpl. rewrite Hc, (IH Hrest). reflexivity.
Qed.

Lemma plainKey_facts (key : string) :
  plainKey key = true ->
  isEmpty key = false /\ kebabToCamelCase key = key /\
  splitAtEquals key = (key, None) /\ startsWith key "no-" = false.
Proof.
  unfold plainKey. intros Hk. apply andb_prop in Hk as [Hne Hall].
  apply negb_true_iff in Hne.
  repeat split; auto using kebab_plain, split_plain.
  destruct key as [|a [|b [|c key]]]; try reflexivity; cbn [startsWith].
  - apply andb_false_r.
  - now rewrite !andb_false_r.
  - apply plain_tail in Hall as (_ & _ & Hall).
    apply plain_tail in Hall as (_ & _ & Hall).
    apply plain_tail in Hall as (Hc & _ & _).
    rewrite Hc. cbn [andb]. now rewrite !andb_false_r.
Qed.

Lemma assign_boolean (params : gmap string (Json Num)) (key : string)
    (schema : ZodSchema Num) (value : Json Num) :
  unwrapped (unwrapZodSchema schema) = ZodBoolean ->
  assignCliValue params key schema value = <[key := value]> params.
Proof. unfold assignCliValue. now intros ->. Qed.

(** [--key] for a boolean parameter. *)
Lemma parseLoop_flag (entries : list (string * ZodSchema Num)) (key : string)
    (schema : ZodSchema Num) (rest : list string) (st : ParseState) :
  plainKey key = true ->
  afterDoubleDash st = false ->
  schemaByKey entries !! key = Some schema ->
  unwrapped (unwrapZodSchema schema) = ZodBoolean ->
  parseLoop entries (("--" +:+ key) :: rest) st
  = parseLoop entries rest
      (mkParseState (<[key := JBool true]> (params st))
         (nextPositionalKeyIndex st) false).
Proof.
  intros Hk Hdd Hs Hb.
  destruct (plainKey_facts key Hk) as (Hne & Hkebab & Hsplit & Hno).
  cbn [parseLoop].
  assert (E1 : String.eqb ("--" +:+ key) "--" = false)
    by (destruct key; [discriminate | reflexivity]).
  rewrite E1, Hdd.
  change (startsWith ("--" +:+ key) "--") with true.
  change (slice_from 2 ("--" +:+ key)) with key.
  cbn [negb andb]. rewrite Hne, Hno, Hsplit, Hkebab, Hs, Hb.
  now rewrite assign_boolean.
Qed.

(** [--no-key]. *)
Lemma parseLoop_no_flag (entries : list (string * ZodSchema Num))
    (key : string) (schema : ZodSchema Num) (rest : list string)
    (st : ParseState) :
  plainKey key = true ->
  afterDoubleDash st = false ->
  schemaByKey entries !! key = Some schema ->
  unwrapped (unwrapZodSchema schema) = ZodBoolean ->
  parseLoop entries (("--no-" +:+ key) :: rest) st
  = parseLoop entries rest
      (mkParseState (<[key := JBool false]> (params st))
         (nextPositionalKeyIndex st) false).
Proof.
  intros Hk Hdd Hs Hb.
  destruct (plainKey_facts key Hk) as (Hne & Hkebab & Hsplit & Hno).
  cbn [parseLoop].
  change (String.eqb ("--no-" +:+ key) "--") with false.
  rewrite Hdd.
  change (startsWith ("--no-" +:+ key) "--") with true.
  change (slice_from 2 ("--no-" +:+ key)) with ("no-" +:+ key).
  change (isEmpty ("no-" +:+ key)) with false.
  change (startsWith ("no-" +:+ key) "no-") with true.
  cbn [negb andb].
  change (slice_from 3 ("no-" +:+ key)) with key.
  rewrite Hkebab, Hs. now rewrite assign_boolean.
Qed.

End DecoderFacts.

(** ** Schema lookup and validation *)

Section ValidationFacts.
Context {Num : Type} `{JsRuntime Num}.

Abbreviation Entries := (list (string * ZodSchema Num)).

Lemma schema_fold_notin (entries : Entries) (key : string) :
  forall m : gmap string (ZodSchema Num),
  key ∉ entries.*1 ->
  fold_left (fun m '(k, s) => <[k := s]> m) entries m !! key = m !! key.
Proof.
  induction entries as [|[k s] rest IH]; intros m Hnot; [reflexivity|].
  simpl. rewrite fmap_cons, not_elem_of_cons in Hnot. destruct Hnot as [Hk Hrest].
  rewrite (IH _ Hrest). apply lookup_insert_ne. simpl in Hk. congruence.
Qed.

Lemma schemaByKey_lookup (entries : Entries) (key : string)
    (schema : ZodSchema Num) :
  NoDup entries.*1 -> (key, schema) ∈ entries ->
  schemaByKey entries !! key = Some schema.
Proof.
  unfold schemaByKey. generalize (∅ : gmap string (ZodSchema Num)).
  induction entries as [|[k s] rest IH]; intros m Hnd Hin.
  - inversion Hin.
  - rewrite fmap_cons, NoDup_cons in Hnd. destruct Hnd as [Hk Hnd].
    apply elem_of_cons in Hin as [E|Hin]; simpl.
    + injection E as <- <-. rewrite schema_fold_notin by exact Hk.
      apply lookup_insert_eq.
    + now apply IH.
Qed.

Lemma entries_unique (entries : Entries) (key : string) (s s' : ZodSchema Num) :
  NoDup entries.*1 -> (key, s) ∈ entries -> (key, s') ∈ entries -> s = s'.
Proof.
  induction entries as [|[k0 s0] rest IH]; intros Hnd Hs Hs'.
  - inversion Hs.
  - rewrite fmap_cons, NoDup_cons in Hnd. destruct Hnd as [Hk Hnd].
    apply elem_of_cons in Hs as [E|Hs]; apply elem_of_cons in Hs' as [E'|Hs'].
    + congruence.
    + injection E as <- <-. exfalso. apply Hk.
      now apply (list_elem_of_fmap_2 fst) in Hs'.
    + injection E' as <- <-. exfalso. apply Hk.
      now apply (list_elem_of_fmap_2 fst) in Hs.
    + now apply IH.
Qed.

Lemma unwrapLoop_optional (schema : ZodSchema Num) (dflt : option (Json Num)) :
  required (unwrapLoop schema false dflt) = false.
Proof.
  revert dflt. induction schema; intros dflt; simpl; auto.
Qed.

(** A parameter with a declared default is not required. *)
Lemma default_not_required (schema : ZodSchema Num) (d : Json Num) :
  defaultValue (unwrapZodSchema schema) = Some d ->
  required (unwrapZodSchema schema) = false.
Proof.
  unfold unwrapZodSchema. generalize true as req.
  induction schema; intros req; simpl; try discriminate;
    auto using unwrapLoop_optional.
Qed.

Context `{ZodRuntime Num}.

(** A boolean-shaped parameter accepts both booleans, whatever wraps it. *)
Lemma boolean_accepts (schema : ZodSchema Num) (b : bool) :
  unwrapped (unwrapZodSchema schema) = ZodBoolean ->
  shapeAccepts schema (JBool b) = true.
Proof.
  unfold unwrapZodSchema.
  assert (Hloop : forall req dflt,
            unwrapped (unwrapLoop schema req dflt) = ZodBoolean ->
            shapeAccepts schema (JBool b) = true); [|now apply Hloop].
  induction schema; intros req dflt; simpl; try discriminate; eauto.
Qed.

(** The validator does not touch the keys that are not declared. *)
Lemma parseEntries_notin (rawParams : gmap string (Json Num))
    (entries : Entries) (key : string) :
  forall acc,
  key ∉ entries.*1 ->
  (foldl (parseEntry rawParams) acc entries).1 !! key = acc.1 !! key.
Proof.
  induction entries as [|[k s] rest IH]; intros acc Hnot; [reflexivity|].
  rewrite fmap_cons, not_elem_of_cons in Hnot. destruct Hnot as [Hk Hrest].
  simpl in Hk. cbn [foldl]. rewrite (IH _ Hrest). unfold parseEntry. cbn [fst snd].
  destruct (zodParse s (rawParams !! k)) as [[value|]|]; cbn [fst];
    [apply lookup_insert_ne; congruence | reflexivity | reflexivity].
Qed.

(** The issues only grow. *)
Lemma parseEntries_issues (rawParams : gmap string (Json Num))
    (entries : Entries) :
  forall acc,
  (foldl (parseEntry rawParams) acc entries).2 = [] -> acc.2 = [].
Proof.
  induction entries as [|[k s] rest IH]; intros acc E; [exact E|].
  cbn [foldl] in E. apply IH in E. unfold parseEntry in E. cbn [fst snd] in E.
  destruct (zodParse s (rawParams !! k)) as [[value|]|]; cbn [snd] in E;
    [exact E | exact E |].
  now apply app_eq_nil in E as [_ ?].
Qed.

(** What the validator leaves at a declared key when it finds no issue. *)
Lemma parseEntries_lookup (rawParams : gmap string (Json Num))
    (entries : Entries) (key : string) (schema : ZodSchema Num) :
  forall acc,
  NoDup entries.*1 -> (key, schema) ∈ entries ->
  (foldl (parseEntry rawParams) acc entries).2 = [] ->
  exists value,
    zodParse schema (rawParams !! key) = Some value
    /\ (foldl (parseEntry rawParams) acc entries).1 !! key
       = match value with Some v => Some v | None => acc.1 !! key end.
Proof.
  induction entries as [|[k s] rest IH]; intros acc Hnd Hin E.
  - inversion Hin.
  - rewrite fmap_cons, NoDup_cons in Hnd. destruct Hnd as [Hk Hnd].
    simpl in Hk. cbn [foldl] in E |- *.
    apply elem_of_cons in Hin as [Eq|Hin].
    + injection Eq as <- <-. rewrite (parseEntries_notin _ _ _ _ Hk).
      apply parseEntries_issues in E. unfold parseEntry in E |- *.
      cbn [fst snd] in E |- *.
      destruct (zodParse schema (rawParams !! key)) as [[value|]|];
        cbn [fst snd] in E |- *.
      * exists (Some value). split; [reflexivity|]. apply lookup_insert_eq.
      * exists None. now split.
      * now apply app_eq_nil in E as [_ ?].
    + assert (Hne : k <> key).
      { intros ->. apply Hk. now apply (list_elem_of_fmap_2 fst) in Hin. }
      destruct (IH _ Hnd Hin E) as (value & Hv & Hl). exists value.
      split; [exact Hv|]. rewrite Hl. destruct value as [v|]; [reflexivity|].
      unfold parseEntry. cbn [fst snd].
      destruct (zodParse s (rawParams !! k)) as [[value|]|]; cbn [fst];
        [now apply lookup_insert_ne | reflexivity | reflexivity].
Qed.

(** The validator finds no issue when every declared parameter parses. *)
Lemma parseEntries_total (rawParams : gmap string (Json Num))
    (entries : Entries) :
  (forall k s, (k, s) ∈ entries -> zodParse s (rawParams !! k) <> None) ->
  forall acc,
  acc.2 = [] -> (foldl (parseEntry rawParams) acc entries).2 = [].
Proof.
  induction entries as [|[k s] rest IH]; intros Hall acc Hacc; [exact Hacc|].
  cbn [foldl]. apply IH; [intros; apply Hall; now right|].
  assert (Hk := Hall k s ltac:(left)). unfold parseEntry. cbn [fst snd].
  destruct (zodParse s (rawParams !! k)) as [[value|]|];
    [exact Hacc | exact Hacc | congruence].
Qed.

Lemma validateParams_lookup (rawParams parsed : gmap string (Json Num))
    (entries : Entries) (key : string) (schema : ZodSchema Num) :
  NoDup entries.*1 -> (key, schema) ∈ entries ->
  validateParams entries rawParams = Ok parsed ->
  zodParse schema (rawParams !! key) = Some (parsed !! key).
Proof.
  intros Hnd Hin E. unfold validateParams in E. cbv zeta in E.
  destruct ((foldl (parseEntry rawParams) (∅, []) entries).2) eqn:Hissues;
    [|discriminate].
  injection E as <-.
  destruct (parseEntries_lookup rawParams entries key schema (∅, []) Hnd Hin
              Hissues) as (value & Hv & Hl).
  rewrite Hv, Hl. cbn [fst]. rewrite lookup_empty. now destruct value.
Qed.

Lemma validateParams_total (rawParams : gmap string (Json Num))
    (entries : Entries) :
  (forall k s, (k, s) ∈ entries -> zodParse s (rawParams !! k) <> None) ->
  exists parsed, validateParams entries rawParams = Ok parsed.
Proof.
  intros Hall. unfold validateParams. cbv zeta.
  rewrite (parseEntries_total rawParams entries Hall (∅, []) eq_refl). eauto.
Qed.

End ValidationFacts.

(** ** Boolean flags *)

Section BooleanFlags.
Context {Num : Type} `{JsRuntime Num} `{ZodRuntime Num}.
Variable entries : list (string * ZodSchema Num).
Variables (key : string) (schema : ZodSchema Num).
Hypothesis entries_nodup : NoDup entries.*1.
Hypothesis key_declared : (key, schema) ∈ entries.
Hypothesis key_boolean : unwrapped (unwrapZodSchema schema) = ZodBoolean.
Hypothesis key_plain : plainKey key = true.
Hypothesis others_omitted :
  forall k s, (k, s) ∈ entries -> k <> key -> parseUndefined s <> None.

Lemma validate_supplied (rawParams parsed : gmap string (Json Num))
    (value : Json Num) :
  validateParams entries rawParams = Ok parsed ->
  rawParams !! key = Some value ->
  parsed !! key = Some value.
Proof.
  intros Hp Hraw.
  pose proof (validateParams_lookup _ _ _ _ _ entries_nodup key_declared Hp) as E.
  rewrite Hraw in E. unfold zodParse in E.
  destruct (shapeAccepts schema value); congruence.
Qed.

Lemma validate_left_out (rawParams parsed : gmap string (Json Num)) :
  validateParams entries rawParams = Ok parsed ->
  rawParams !! key = None ->
  parseUndefined schema = Some (parsed !! key).
Proof.
  intros Hp Hraw.
  pose proof (validateParams_lookup _ _ _ _ _ entries_nodup key_declared Hp) as E.
  now rewrite Hraw in E.
Qed.

Lemma validate_flag_only (b : bool) :
  exists parsed,
    validateParams entries {[key := JBool b]} = Ok parsed
    /\ parsed !! key = Some (JBool b).
Proof.
  destruct (validateParams_total {[key := JBool b]} entries) as [parsed Hp].
  { intros k s Hin. destruct (decide (k = key)) as [->|Hne].
    - rewrite lookup_singleton_eq.
      rewrite (entries_unique entries key s schema entries_nodup Hin key_declared).
      unfold zodParse. now rewrite (boolean_accepts schema b key_boolean).
    - rewrite lookup_singleton_ne by congruence.
      now apply (others_omitted k s). }
  exists parsed. split; [exact Hp|].
  apply (validate_supplied _ _ _ Hp). apply lookup_singleton_eq.
Qed.

Lemma validate_omitted :
  parseUndefined schema <> None ->
  exists parsed,
    validateParams entries ∅ = Ok parsed
    /\ parseUndefined schema = Some (parsed !! key).
Proof.
  intros Hschema.
  destruct (validateParams_total ∅ entries) as [parsed Hp].
  { intros k s Hin. rewrite lookup_empty.
    destruct (decide (k = key)) as [->|Hne]; [|now apply (others_omitted k s)].
    now rewrite (entries_unique entries key s schema entries_nodup Hin
                   key_declared). }
  exists parsed. split; [exact Hp|].
  apply (validate_left_out _ _ Hp). apply lookup_empty.
Qed.

Lemma decode_flag (tool : string) :
  parseToolParamsFromCliTokens entries [tool; "--" +:+ key]
  = Ok {[key := JBool true]}.
Proof.
  unfold parseToolParamsFromCliTokens. simpl drop.
  rewrite (parseLoop_flag entries key schema); auto.
  now apply schemaByKey_lookup.
Qed.

Lemma decode_no_flag (tool : string) :
  parseToolParamsFromCliTokens entries [tool; "--no-" +:+ key]
  = Ok {[key := JBool false]}.
Proof.
  unfold parseToolParamsFromCliTokens. simpl drop.
  rewrite (parseLoop_no_flag entries key schema); auto.
  now apply schemaByKey_lookup.
Qed.

End BooleanFlags.

(** C6, as amended. For a boolean-shaped parameter [key] of a tool:
    wherever the token loop reads [--key] before a [--] it sets [key] to
    [true], and where it reads [--no-key] it sets [key] to [false];
    validation keeps a supplied value.  A flag that is left out gets its
    declared default when the default is the outermost wrapper of its
    schema, as in [.default(d)] and [.optional().default(d)], and stays
    absent when the outermost wrapper is optional, also when a default is
    declared inside it, as in [.default(d).optional()].  For a tool whose
    other parameters may be left out, the line [tool --key] decodes and
    validates to [key = true], [tool --no-key] to [key = false], and the
    line [tool], which omits the flag, to the default or to no value in the
    same way. *)
Theorem boolean_flag_decoding {Num : Type} `{JsRuntime Num} `{ZodRuntime Num}
    (entries : list (string * ZodSchema Num)) (key : string)
    (schema : ZodSchema Num) :
  NoDup entries.*1 ->
  (key, schema) ∈ entries ->
  unwrapped (unwrapZodSchema schema) = ZodBoolean ->
  plainKey key = true ->
  (forall rest st,
     afterDoubleDash st = false ->
     parseLoop entries (("--" +:+ key) :: rest) st
     = parseLoop entries rest
         (mkParseState (<[key := JBool true]> (params st))
            (nextPositionalKeyIndex st) false))
  /\ (forall rest st,
        afterDoubleDash st = false ->
        parseLoop entries (("--no-" +:+ key) :: rest) st
        = parseLoop entries rest
            (mkParseState (<[key := JBool false]> (params st))
               (nextPositionalKeyIndex st) false))
  /\ (forall rawParams parsed,
        validateParams entries rawParams = Ok parsed ->
        match rawParams !! key with
        | Some value => parsed !! key = Some value
        | None =>
            (forall inner b,
               schema = ZodDefault inner (Some (JBool b)) ->
               parsed !! key = Some (JBool b))
            /\ (forall inner, schema = ZodOptional inner -> parsed !! key = None)
        end)
  /\ ((forall k s, (k, s) ∈ entries -> k <> key -> parseUndefined s <> None) ->
      forall tool,
        (exists parsed,
           decodeAndValidate entries [tool; "--" +:+ key] = Ok parsed
           /\ parsed !! key = Some (JBool true))
        /\ (exists parsed,
              decodeAndValidate entries [tool; "--no-" +:+ key] = Ok parsed
              /\ parsed !! key = Some (JBool false))
        /\ (forall inner b,
              schema = ZodDefault inner (Some (JBool b)) ->
              exists parsed,
                decodeAndValidate entries [tool] = Ok parsed
                /\ parsed !! key = Some (JBool b))
        /\ (forall inner,
              schema = ZodOptional inner ->
              exists parsed,
                decodeAndValidate entries [tool] = Ok parsed
                /\ parsed !! key = None)).
Proof.
  intros Hnd Hin Hb Hk.
  assert (Hs : schemaByKey entries !! key = Some schema)
    by now apply schemaByKey_lookup.
  assert (Hdefault : forall inner b,
            schema = ZodDefault inner (Some (JBool b)) ->
            parseUndefined schema = Some (Some (JBool b))).
  { intros inner b ->. cbn [parseUndefined].
    now rewrite (boolean_accepts (ZodDefault inner (Some (JBool b))) b Hb
                 : shapeAccepts inner (JBool b) = true). }
  split; [|split; [|split]].
  - intros rest st Hdd. now apply parseLoop_flag with schema.
  - intros rest st Hdd. now apply parseLoop_no_flag with schema.
  - intros rawParams parsed Hp. destruct (rawParams !! key) as [value|] eqn:Hraw.
    + now apply (validate_supplied entries key schema Hnd Hin rawParams).
    + pose proof (validate_left_out entries key schema Hnd Hin _ _ Hp Hraw) as E.
      split.
      * intros inner b Hschema. rewrite (Hdefault inner b Hschema) in E.
        now injection E as <-.
      * intros inner ->. cbn [parseUndefined] in E. now injection E as <-.
  - intros Hothers tool. unfold decodeAndValidate. repeat split.
    + rewrite (decode_flag entries key schema) by assumption.
      apply (validate_flag_only entries key schema); assumption.
    + rewrite (decode_no_flag entries key schema) by assumption.
      apply (validate_flag_only entries key schema); assumption.
    + intros inner b Hschema.
      destruct (validate_omitted entries key schema Hnd Hin Hothers)
        as (parsed & Hp & E); [rewrite (Hdefault inner b Hschema); discriminate|].
      exists parsed. split; [exact Hp|].
      rewrite (Hdefault inner b Hschema) in E. now injection E as <-.
    + intros inner ->.
      destruct (validate_omitted entries key (ZodOptional inner) Hnd Hin Hothers)
        as (parsed & Hp & E); [discriminate|].
      exists parsed. split; [exact Hp|].
      cbn [parseUndefined] in E. now injection E as <-.
Qed.

(** A default declared inside an optional wrapper is reported by
    [unwrapZodSchema] and is not what the omitted flag decodes to: the
    validator leaves the parameter out. *)
Lemma inner_default_stays_absent :
  unwrapZodSchema (ZodOptional (ZodDefault ZodBoolean (Some (JBool true))))
  = mkUnwrapped ZodBoolean false (Some (JBool true : Json (option N)))
  /\ decodeAndValidate innerDefaultSchema ["tool"] = Ok ∅
  /\ (∅ : gmap string (Json (option N))) !! "flag" = None.
Proof.
  split; [reflexivity|]. split; [vm_compute; reflexivity|]. apply lookup_empty.
Qed.

Lemma boolean_flag_decoding_witness :
  (exists parsed,
     decodeAndValidate optionsSchema ["list"; "--includePreserved"] = Ok parsed
     /\ parsed !! "includePreserved" = Some (JBool true))
  /\ (exists parsed,
        decodeAndValidate optionsSchema ["list"; "--no-includePreserved"]
        = Ok parsed
        /\ parsed !! "includePreserved" = Some (JBool false))
  /\ (exists parsed,
        decodeAndValidate optionsSchema ["list"] = Ok parsed
        /\ parsed !! "includePreserved" = Some (JBool false)).
Proof.
  assert (Hnd : NoDup optionsSchema.*1)
    by (apply (bool_decide_unpack _); vm_compute; reflexivity).
  assert (Hin : ("includePreserved", ZodDefault ZodBoolean (Some (JBool false)))
                ∈ optionsSchema)
    by (unfold optionsSchema; rewrite !elem_of_cons;
        right; right; left; reflexivity).
  destruct (boolean_flag_decoding optionsSchema "includePreserved"
              (ZodDefault ZodBoolean (Some (JBool false)))
              Hnd Hin eq_refl eq_refl) as (_ & _ & _ & Hlines).
  destruct (Hlines) with (tool := "list") as (Htrue & Hfalse & Hdefault & _).
  - intros k s Hk Hne. unfold optionsSchema in Hk.
    repeat (apply elem_of_cons in Hk as [Hk|Hk];
            [injection Hk as -> ->; try discriminate; congruence|]).
    inversion Hk.
  - split; [exact Htrue|]. split; [exact Hfalse|].
    apply (Hdefault ZodBoolean false). reflexivity.
Defined.

(** ** Empty strings in decoded parameters *)

Section EmptyValues.
Context {Num : Type} `{JsRuntime Num}.

Lemma insert_noEmpty (params : gmap string (Json Num)) (key : string)
    (value : Json Num) :
  noEmptyString params -> value <> JStr EmptyString ->
  noEmptyString (<[key := value]> params).
Proof.
  intros Hp Hv k. destruct (decide (key = k)) as [->|Hne].
  - rewrite lookup_insert_eq. congruence.
  - rewrite lookup_insert_ne by exact Hne. apply Hp.
Qed.

Lemma parseJsonObject_shape (arg label : string) (v : Json Num) :
  parseJsonObject arg label = Ok v -> exists fields, v = JObj fields.
Proof.
  unfold parseJsonObject. destruct (JSON_parse arg) as [[]|]; try discriminate.
  intros [= <-]. eauto.
Qed.

Lemma parseJsonArray_shape (arg label : string) (v : Json Num) :
  parseJsonArray arg label = Ok v -> exists items, v = JArr items.
Proof.
  unfold parseJsonArray. destruct (JSON_parse arg) as [[]|]; try discriminate.
  intros [= <-]. eauto.
Qed.

Lemma coerceNumber_shape (key raw : string) (v : Json Num) :
  coerceNumber key raw = Ok v -> exists n, v = JNum n.
Proof.
  unfold coerceNumber. destruct (Number_isFinite _); [|discriminate].
  intros [= <-]. eauto.
Qed.

Lemma coerce_nonempty (schema : ZodSchema Num) (key raw : string)
    (v : Json Num) :
  raw <> EmptyString -> coerceCliValue schema key raw = Ok v ->
  v <> JStr EmptyString.
Proof.
  intros Hraw. unfold coerceCliValue.
  assert (Hstr : Ok (JStr raw) = Ok v -> v <> JStr EmptyString)
    by (intros [= <-]; congruence).
  assert (Hnum : coerceNumber key raw = Ok v -> v <> JStr EmptyString)
    by (intros [n ->]%coerceNumber_shape; discriminate).
  assert (Harr : forall a l, parseJsonArray a l = Ok v -> v <> JStr EmptyString)
    by (intros a l [items ->]%parseJsonArray_shape; discriminate).
  destruct (unwrapped (unwrapZodSchema schema)) as [| | |vs|inner| |n|i|i d|i];
    auto.
  - unfold mbind, result_bind.
    destruct (parseBooleanLike _ _); [intros [= <-]|]; discriminate.
  - destruct (startsWith (trim raw) "["); [apply Harr|].
    destruct inner as [inner|]; [|discriminate].
    destruct (unwrapped (unwrapZodSchema inner)); auto; discriminate.
  - intros [fields ->]%parseJsonObject_shape. discriminate.
Qed.

Lemma assign_noEmpty (params : gmap string (Json Num)) (key : string)
    (schema : ZodSchema Num) (value : Json Num) :
  noEmptyString params -> value <> JStr EmptyString ->
  noEmptyString (assignCliValue params key schema value).
Proof.
  intros Hp Hv. unfold assignCliValue.
  destruct (unwrapped (unwrapZodSchema schema)); try now apply insert_noEmpty.
  destruct value; try (destruct (params !! key) as [existing|];
    [destruct (negb (truthy existing)); [|destruct existing]|]);
    apply insert_noEmpty; auto; discriminate.
Qed.

Lemma parseLoop_noEmpty (entries : list (string * ZodSchema Num)) (n : nat) :
  forall (tokens : list string) (st : ParseState) (out : gmap string (Json Num)),
  length tokens <= n ->
  Forall (fun t => t <> EmptyString) tokens ->
  Forall (fun t => emptyInlineValue t = false) tokens ->
  noEmptyString (params st) ->
  parseLoop entries tokens st = Ok out ->
  noEmptyString out.
Proof.
  induction n as [|n IH]; intros tokens st out Hlen Hne Hinline Hst E.
  - destruct tokens; [|simpl in Hlen; lia]. now injection E as <-.
  - destruct tokens as [|token rest]; [now injection E as <-|].
    simpl in Hlen.
    apply Forall_cons in Hne as [Htoken Hne].
    apply Forall_cons in Hinline as [Hinl Hinline].
    cbn [parseLoop] in E.
    destruct (String.eqb token "--").
    { eapply IH; [| | | |exact E]; auto; lia. }
    destruct (negb (afterDoubleDash st) && startsWith token "--") eqn:Eflag.
    + apply andb_prop in Eflag as [_ Eprefix].
      destruct (isEmpty (slice_from 2 token)).
      { eapply IH; [| | | |exact E]; auto; lia. }
      destruct (startsWith (slice_from 2 token) "no-").
      { destruct (schemaByKey entries !! _) as [schema|]; [|discriminate].
        eapply IH; [| | | |exact E]; auto; [lia|].
        apply assign_noEmpty; [exact Hst | discriminate]. }
      unfold emptyInlineValue in Hinl. rewrite Eprefix in Hinl.
      cbn [andb] in Hinl.
      destruct (splitAtEquals (slice_from 2 token)) as [rawKey rawValue].
      cbn [snd] in Hinl.
      destruct (schemaByKey entries !! _) as [schema|]; [|discriminate].
      destruct rawValue as [rawValue|].
      * apply isEmpty_false in Hinl.
        assert (Hgo : (coercedValue ← coerceCliValue schema
                          (kebabToCamelCase rawKey) rawValue;
                       parseLoop entries rest
                         (mkParseState
                            (assignCliValue (params st)
                               (kebabToCamelCase rawKey) schema coercedValue)
                            (nextPositionalKeyIndex st) (afterDoubleDash st)))
                      = Ok out)
          by (destruct (unwrapped (unwrapZodSchema schema)); exact E).
        unfold mbind, result_bind in Hgo.
        destruct (coerceCliValue _ _ _) as [coerced|] eqn:Ec; [|discriminate].
        eapply IH; [| | | |exact Hgo]; auto; [lia|].
        apply assign_noEmpty; [exact Hst|]. eapply coerce_nonempty; eauto.
      * assert (Hnext :
          (exists b, parseLoop entries rest
             (mkParseState
                (assignCliValue (params st) (kebabToCamelCase rawKey) schema
                   (JBool b))
                (nextPositionalKeyIndex st) (afterDoubleDash st)) = Ok out)
          \/ (exists next rest' coerced,
                rest = next :: rest'
                /\ coerceCliValue schema (kebabToCamelCase rawKey) next
                   = Ok coerced
                /\ parseLoop entries rest'
                     (mkParseState
                        (assignCliValue (params st) (kebabToCamelCase rawKey)
                           schema coerced)
                        (nextPositionalKeyIndex st) (afterDoubleDash st))
                   = Ok out)).
        { destruct (unwrapped (unwrapZodSchema schema)); eauto;
            (destruct rest as [|next rest']; [discriminate|]);
            unfold mbind, result_bind in E;
            (destruct (coerceCliValue _ _ next) as [coerced|] eqn:Ec;
               [|discriminate]);
            right; eauto 8. }
        destruct Hnext as [[b Hb]|(next & rest' & coerced & -> & Hc & Hgo)].
        -- eapply IH; [| | | |exact Hb]; auto; [lia|].
           apply assign_noEmpty; [exact Hst | discriminate].
        -- apply Forall_cons in Hne as [Hnext Hne].
           apply Forall_cons in Hinline as [_ Hinline].
           simpl in Hlen.
           eapply IH; [| | | |exact Hgo]; auto; [lia|].
           apply assign_noEmpty; [exact Hst|]. eapply coerce_nonempty; eauto.
    + destruct (positionalKeys entries !! _) as [key|]; [|discriminate].
      destruct (schemaByKey entries !! key) as [schema|]; [|discriminate].
      unfold mbind, result_bind in E.
      destruct (coerceCliValue schema key token) as [value|] eqn:Ec;
        [|discriminate].
      eapply IH; [| | | |exact E]; auto; [lia|].
      apply insert_noEmpty; [exact Hst|]. eapply coerce_nonempty; eauto.
Qed.

Lemma parse_noEmpty (entries : list (string * ZodSchema Num))
    (tokens : list string) (out : gmap string (Json Num)) :
  Forall (fun t => t <> EmptyString) tokens ->
  Forall (fun t => emptyInlineValue t = false) tokens ->
  parseToolParamsFromCliTokens entries tokens = Ok out ->
  noEmptyString out.
Proof.
  unfold parseToolParamsFromCliTokens. intros Hne Hinl E.
  eapply (parseLoop_noEmpty entries (length (drop 1 tokens)));
    [reflexivity | | | |exact E].
  - destruct tokens; [constructor|]. now apply Forall_cons in Hne as [_ ?].
  - destruct tokens; [constructor|]. now apply Forall_cons in Hinl as [_ ?].
  - intros k. simpl. rewrite lookup_empty. discriminate.
Qed.

End EmptyValues.

(** ** The guard *)

Lemma guardRun_app (log1 log2 : list GuardEvent) (held : bool) :
  guardRun held (log1 ++ log2)
  = match guardRun held log1 with
    | Some held' => guardRun held' log2
    | None => None
    end.
Proof.
  revert held. induction log1 as [|[] log1 IH]; intros held; simpl; auto;
    destruct held; auto.
Qed.

Section GuardFacts.
Context {Num : Type} `{JsRuntime Num}.
Context {Ctx Resp Content : Type}.
Variable zodObjectParse :
  list (string * ZodSchema Num) -> gmap string (Json Num) ->
  result (gmap string (Json Num)).
Variable newResponse : Resp.
Variable responseHandle : Resp -> string -> Ctx -> Ctx * result Content.

(** The [try] block calls the handler at most once, and not at all when
    validation fails. *)
Lemma tryBlock_events (tool : Tool Num Ctx Resp)
    (rawParams : gmap string (Json Num)) (ctx : Ctx) :
  let events := (tryBlock zodObjectParse newResponse responseHandle tool
                   rawParams ctx).2 in
  match zodObjectParse (schema tool) rawParams with
  | Err _ => events = []
  | Ok _ => events = [Invoked (name tool)]
  end.
Proof.
  unfold tryBlock. destruct (zodObjectParse _ _) as [parsed|]; [|reflexivity].
  destruct (handler tool parsed newResponse ctx) as [ctx1 [response|]];
    [|reflexivity].
  now destruct (responseHandle response (name tool) ctx1).
Qed.

Lemma guarded_log_free (log events : list GuardEvent) (tool : string) :
  guardRun false log = Some false ->
  events = [] \/ events = [Invoked tool] ->
  guardRun false (log ++ Acquired :: events ++ [Disposed]) = Some false.
Proof.
  intros Hlog Hev. rewrite guardRun_app, Hlog.
  destruct Hev as [-> | ->]; reflexivity.
Qed.

End GuardFacts.

Section GuardRelease.
Context {Num : Type} `{JsRuntime Num}.
Context {Ctx Resp Content : Type}.
Variable zodObjectParse :
  list (string * ZodSchema Num) -> gmap string (Json Num) ->
  result (gmap string (Json Num)).
Variable newResponse : Resp.
Variable responseHandle : Resp -> string -> Ctx -> Ctx * result Content.
Variable contentJson : Content -> Json Num.
Variable contentItems : Content -> list ContentItem.
Variable tools : list (Tool Num Ctx Resp).
Variable args : Args.

Lemma commandEvents_free (log : list GuardEvent) (tool : Tool Num Ctx Resp)
    (rawParams : gmap string (Json Num)) :
  guardRun false log = Some false ->
  guardRun false (log ++ commandEvents zodObjectParse tool rawParams) = Some false.
Proof.
  intros Hlog. unfold commandEvents.
  apply guarded_log_free with (tool := name tool); [exact Hlog|].
  destruct (zodObjectParse _ _); auto.
Qed.

Lemma guarded_releases (st : SessionState Ctx) (tool : Tool Num Ctx Resp)
    (toolName : string) (rawParams : gmap string (Json Num)) :
  guardFree st ->
  exists st',
    guarded zodObjectParse newResponse responseHandle contentJson contentItems
      args st tool toolName rawParams = Some st'
    /\ guardFree st'
    /\ guardLog st' = (guardLog st ++ commandEvents zodObjectParse tool rawParams)%list.
Proof.
  intros [Hfree Hlog]. unfold guarded, acquire. rewrite Hfree.
  pose proof (tryBlock_events zodObjectParse newResponse responseHandle tool
                rawParams (context st)) as Hev.
  destruct (tryBlock _ _ _ tool rawParams (context st)) as [[ctx' outcome] events].
  simpl in Hev. eexists. split; [reflexivity|].
  assert (Elog : (guardLog st ++ Acquired :: events ++ [Disposed]
                  = guardLog st ++ commandEvents zodObjectParse tool rawParams)%list).
  { unfold commandEvents. destruct (zodObjectParse _ _); now rewrite Hev. }
  simpl. rewrite Elog. repeat split. now apply commandEvents_free.
Qed.

Lemma execute_releases (st : SessionState Ctx) (toolName : string)
    (rawParams : gmap string (Json Num)) :
  guardFree st ->
  exists st',
    execute zodObjectParse newResponse responseHandle contentJson contentItems
      tools args st toolName rawParams = Some st'
    /\ guardFree st'.
Proof.
  intros Hst. unfold execute.
  destruct (findTool tools toolName) as [tool|]; [|eexists; split; eauto].
  destruct (negb (toolIsEnabled args tool)); [eexists; split; eauto|].
  destruct (guarded_releases st tool toolName rawParams Hst) as (st' & E & Hf & _).
  eauto.
Qed.

Lemma processLine_releases (st : SessionState Ctx) (line : string) :
  guardFree st ->
  exists st' control,
    processLine zodObjectParse newResponse responseHandle contentJson
      contentItems tools args st line = Some (st', control)
    /\ guardFree st'.
Proof.
  intros Hst. unfold processLine.
  destruct (decodeLine tools line) as [|toolName errorText| |toolName rawParams];
    try (do 2 eexists; split; [reflexivity | exact Hst]).
  destruct (execute_releases st toolName rawParams Hst) as (st' & -> & Hf).
  do 2 eexists. split; [reflexivity | exact Hf].
Qed.

Lemma runSession_releases (lines : list string) :
  forall st : SessionState Ctx,
  guardFree st ->
  exists st',
    runSession zodObjectParse newResponse responseHandle contentJson
      contentItems tools args lines st = Some st'
    /\ guardFree st'.
Proof.
  induction lines as [|line rest IH]; intros st Hst; simpl; [eauto|].
  destruct (processLine_releases st line Hst) as (st' & [] & -> & Hf); eauto.
Qed.

(** The same for the session of [cliApp.ts]. *)
Lemma cliApp_guarded_releases (st : SessionState Ctx)
    (tool : Tool Num Ctx Resp) (toolName : string)
    (msg : list (string * Json Num)) :
  guardFree st ->
  exists st',
    CliApp.guarded zodObjectParse newResponse responseHandle contentJson st
      tool toolName msg = Some st'
    /\ guardFree st'
    /\ guardLog st' = (guardLog st ++ commandEvents zodObjectParse tool (paramsOf msg))%list.
Proof.
  intros [Hfree Hlog]. unfold CliApp.guarded, acquire. rewrite Hfree.
  pose proof (tryBlock_events zodObjectParse newResponse responseHandle tool
                (paramsOf msg) (context st)) as Hev.
  destruct (tryBlock _ _ _ tool (paramsOf msg) (context st))
    as [[ctx' outcome] events].
  simpl in Hev. eexists. split; [reflexivity|].
  assert (Elog : (guardLog st ++ Acquired :: events ++ [Disposed]
                  = guardLog st ++ commandEvents zodObjectParse tool (paramsOf msg))%list).
  { unfold commandEvents. destruct (zodObjectParse _ _); now rewrite Hev. }
  simpl. rewrite Elog. repeat split. now apply commandEvents_free.
Qed.

Lemma cliApp_processLine_releases (st : SessionState Ctx) (line : string) :
  guardFree st ->
  exists st' control,
    CliApp.processLine zodObjectParse newResponse responseHandle contentJson
      tools args st line = Some (st', control)
    /\ guardFree st'.
Proof.
  intros Hst. unfold CliApp.processLine.
  destruct (CliApp.decodeLine line) as [|errorText| |toolName msg];
    try (do 2 eexists; split; [reflexivity | exact Hst]).
  unfold CliApp.execute.
  destruct (findTool tools toolName) as [tool|];
    [|do 2 eexists; split; [reflexivity | exact Hst]].
  destruct (negb (toolIsEnabled args tool));
    [do 2 eexists; split; [reflexivity | exact Hst]|].
  destruct (cliApp_guarded_releases st tool toolName msg Hst)
    as (st' & -> & Hf & _).
  do 2 eexists. split; [reflexivity | exact Hf].
Qed.

Lemma cliApp_runSession_releases (lines : list string) :
  forall st : SessionState Ctx,
  guardFree st ->
  exists st',
    CliApp.runSession zodObjectParse newResponse responseHandle contentJson
      tools args lines st = Some st'
    /\ guardFree st'.
Proof.
  induction lines as [|line rest IH]; intros st Hst; simpl; [eauto|].
  destruct (cliApp_processLine_releases st line Hst) as (st' & [] & -> & Hf);
    eauto.
Qed.

(** C1. In session mode, in both session loops: a command that reaches the
    guard acquires it, calls the handler at most once while holding it, and
    disposes it whether validation fails, the handler throws or everything
    succeeds; from a state with the guard free, every line and every run of
    the loop end with the guard free and a guard record in which it was never
    acquired while held. *)
Theorem execution_guard_released :
  (forall st tool toolName rawParams,
     guardFree st ->
     exists st',
       guarded zodObjectParse newResponse responseHandle contentJson
         contentItems args st tool toolName rawParams = Some st'
       /\ guardFree st'
       /\ guardLog st' = (guardLog st ++ commandEvents zodObjectParse tool rawParams)%list)
  /\ (forall lines st,
        guardFree st ->
        exists st',
          runSession zodObjectParse newResponse responseHandle contentJson
            contentItems tools args lines st = Some st'
          /\ guardFree st')
  /\ (forall st tool toolName msg,
        guardFree st ->
        exists st',
          CliApp.guarded zodObjectParse newResponse responseHandle contentJson
            st tool toolName msg = Some st'
          /\ guardFree st'
          /\ guardLog st' = (guardLog st ++ commandEvents zodObjectParse tool (paramsOf msg))%list)
  /\ (forall lines st,
        guardFree st ->
        exists st',
          CliApp.runSession zodObjectParse newResponse responseHandle
            contentJson tools args lines st = Some st'
          /\ guardFree st').
Proof.
  repeat split;
    eauto using guarded_releases, runSession_releases, cliApp_guarded_releases,
      cliApp_runSession_releases.
Qed.

End GuardRelease.

(** ** Lines that are ignored or reported *)

Lemma startsWith_brace (trimmed : string) :
  startsWith trimmed "{" = true ->
  isEmpty trimmed = false /\ startsWith trimmed "#" = false.
Proof.
  destruct trimmed as [|c rest]; [discriminate|]. cbn [startsWith isEmpty].
  rewrite !andb_true_r. intros ->%Ascii.eqb_eq. split; reflexivity.
Qed.

Section SessionLines.
Context {Num : Type} `{JsRuntime Num}.
Context {Ctx Resp Content : Type}.
Variable zodObjectParse :
  list (string * ZodSchema Num) -> gmap string (Json Num) ->
  result (gmap string (Json Num)).
Variable newResponse : Resp.
Variable responseHandle : Resp -> string -> Ctx -> Ctx * result Content.
Variable contentJson : Content -> Json Num.
Variable contentItems : Content -> list ContentItem.
Variable tools : list (Tool Num Ctx Resp).
Variable args : Args.

Abbreviation run :=
  (runSession zodObjectParse newResponse responseHandle contentJson
     contentItems tools args).
Abbreviation runCliApp :=
  (CliApp.runSession zodObjectParse newResponse responseHandle contentJson
     tools args).

(** The state after one chunk more was written, and the chunks that
    report an error: in the session of the CLI a JSON line on standard
    output or a text line on standard error, by the format; in the session
    of [cliApp.ts] a JSON line on standard output, with the tool name when
    there is one. *)
Abbreviation after st chunk :=
  (mkSession (context st) (toolMutex st) (List.app (written st) [chunk])
     (guardLog st)).
Abbreviation errorLine toolName errorText :=
  (match sessionFormat args with
   | json =>
       Stdout
         (JSON_stringify
            (JObj [("tool", JStr toolName); ("isError", JBool true);
                   ("error", JStr errorText)]) +:+ nl)
   | text => Stderr (toolName +:+ ": " +:+ errorText +:+ nl)
   end).
Abbreviation jsonError errorText :=
  (Stdout
     (JSON_stringify (JObj [("isError", JBool true); ("error", JStr errorText)])
      +:+ nl)).
Abbreviation jsonToolError toolName errorText :=
  (Stdout
     (JSON_stringify
        (JObj [("tool", JStr toolName); ("isError", JBool true);
               ("error", JStr errorText)]) +:+ nl)).

Lemma writeToolError_nonempty (toolName errorText : string) :
  writeToolError args toolName errorText <> [].
Proof. unfold writeToolError. destruct (sessionFormat args); discriminate. Qed.

Lemma report_error (st : SessionState Ctx) (toolName errorText : string) :
  report st (writeToolError args toolName errorText)
  = after st (errorLine toolName errorText).
Proof.
  unfold report, writeToolError, writeJsonLine.
  now destruct (sessionFormat args).
Qed.

Lemma decodeLine_ignored (line : string) :
  isEmpty (trim line) = true \/ startsWith (trim line) "#" = true ->
  decodeLine tools line = Ignored.
Proof.
  unfold decodeLine. intros [-> | ->]; [reflexivity|].
  now rewrite orb_true_r.
Qed.

Lemma decodeLine_json (line : string) :
  startsWith (trim line) "{" = true ->
  decodeLine tools line = decodeJsonLine (trim line).
Proof.
  intros Hb. unfold decodeLine.
  destruct (startsWith_brace _ Hb) as [-> ->]. now rewrite Hb.
Qed.

Lemma decodeLine_cli (line : string) :
  isEmpty (trim line) = false -> startsWith (trim line) "#" = false ->
  startsWith (trim line) "{" = false ->
  decodeLine tools line = decodeCliLine tools (trim line).
Proof. unfold decodeLine. now intros -> -> ->. Qed.

Lemma run_ignored (st : SessionState Ctx) (line : string) (rest : list string) :
  decodeLine tools line = Ignored ->
  run (line :: rest) st = run rest st.
Proof. intros E. cbn [runSession]. unfold processLine. now rewrite E. Qed.

(** What was written stays written. *)
Lemma processLine_written (st st' : SessionState Ctx) (line : string)
    (control : Control) :
  processLine zodObjectParse newResponse responseHandle contentJson
    contentItems tools args st line = Some (st', control) ->
  exists ws, written st' = (written st ++ ws)%list.
Proof.
  unfold processLine.
  destruct (decodeLine tools line) as [|toolName errorText| |toolName rawParams].
  - intros [= <- _]. exists []. now rewrite app_nil_r.
  - intros [= <- _]. eexists. reflexivity.
  - intros [= <- _]. exists []. now rewrite app_nil_r.
  - unfold mbind, option_bind, execute.
    destruct (findTool tools toolName) as [tool|];
      [|intros [= <- _]; eexists; reflexivity].
    destruct (negb (toolIsEnabled args tool));
      [intros [= <- _]; eexists; reflexivity|].
    unfold guarded. destruct (acquire (toolMutex st)); [|discriminate].
    destruct (tryBlock _ _ _ tool rawParams (context st))
      as [[ctx' outcome] events].
    intros [= <- _]. eexists. reflexivity.
Qed.

Lemma run_written (lines : list string) :
  forall st final : SessionState Ctx,
  run lines st = Some final ->
  exists ws, written final = (written st ++ ws)%list.
Proof.
  induction lines as [|line rest IH]; intros st final E.
  - injection E as <-. exists []. now rewrite app_nil_r.
  - cbn [runSession] in E.
    destruct (processLine _ _ _ _ _ _ _ st line) as [[st1 control]|] eqn:Ep;
      [|discriminate].
    apply processLine_written in Ep as [ws1 E1].
    destruct control.
    + apply IH in E as [ws2 E2]. exists (ws1 ++ ws2)%list.
      now rewrite E2, E1, app_assoc.
    + injection E as <-. eauto.
Qed.

Lemma cliApp_processLine_written (st st' : SessionState Ctx) (line : string)
    (control : Control) :
  CliApp.processLine zodObjectParse newResponse responseHandle contentJson
    tools args st line = Some (st', control) ->
  exists ws, written st' = (written st ++ ws)%list.
Proof.
  unfold CliApp.processLine.
  destruct (CliApp.decodeLine line) as [|errorText| |toolName msg].
  - intros [= <- _]. exists []. now rewrite app_nil_r.
  - intros [= <- _]. eexists. reflexivity.
  - intros [= <- _]. exists []. now rewrite app_nil_r.
  - unfold mbind, option_bind, CliApp.execute.
    destruct (findTool tools toolName) as [tool|];
      [|intros [= <- _]; eexists; reflexivity].
    destruct (negb (toolIsEnabled args tool));
      [intros [= <- _]; eexists; reflexivity|].
    unfold CliApp.guarded. destruct (acquire (toolMutex st)); [|discriminate].
    destruct (tryBlock _ _ _ tool (paramsOf msg) (context st))
      as [[ctx' outcome] events].
    intros [= <- _]. eexists. reflexivity.
Qed.

Lemma runCliApp_written (lines : list string) :
  forall st final : SessionState Ctx,
  runCliApp lines st = Some final ->
  exists ws, written final = (written st ++ ws)%list.
Proof.
  induction lines as [|line rest IH]; intros st final E.
  - injection E as <-. exists []. now rewrite app_nil_r.
  - cbn [CliApp.runSession] in E.
    destruct (CliApp.processLine _ _ _ _ _ _ st line) as [[st1 control]|] eqn:Ep;
      [|discriminate].
    apply cliApp_processLine_written in Ep as [ws1 E1].
    destruct control.
    + apply IH in E as [ws2 E2]. exists (ws1 ++ ws2)%list.
      now rewrite E2, E1, app_assoc.
    + injection E as <-. eauto.
Qed.

(** A reported line: the loop goes on from the state with the chunk
    written, and the chunk is in the output of every result. *)
Lemma run_reported (st : SessionState Ctx) (line : string) (rest : list string)
    (toolName errorText : string) :
  decodeLine tools line = Reported toolName errorText ->
  run (line :: rest) st = run rest (after st (errorLine toolName errorText))
  /\ forall final,
       run (line :: rest) st = Some final ->
       errorLine toolName errorText ∈ written final.
Proof.
  intros E.
  assert (Hrun : run (line :: rest) st
                 = run rest (after st (errorLine toolName errorText))).
  { cbn [runSession]. unfold processLine. now rewrite E, report_error. }
  split; [exact Hrun|]. intros final Hfinal. rewrite Hrun in Hfinal.
  apply run_written in Hfinal as [ws ->]. cbn [written].
  rewrite !elem_of_app, elem_of_cons. auto.
Qed.

Lemma run_unknown (st : SessionState Ctx) (line : string) (rest : list string)
    (toolName : string) (rawParams : gmap string (Json Num)) :
  decodeLine tools line = Command toolName rawParams ->
  findTool tools toolName = None ->
  run (line :: rest) st
  = run rest (after st (errorLine toolName ("Unknown tool: " +:+ toolName)))
  /\ forall final,
       run (line :: rest) st = Some final ->
       errorLine toolName ("Unknown tool: " +:+ toolName) ∈ written final.
Proof.
  intros E Hfind.
  assert (Hrun : run (line :: rest) st
                 = run rest
                     (after st
                        (errorLine toolName ("Unknown tool: " +:+ toolName)))).
  { cbn [runSession]. unfold processLine. rewrite E.
    unfold mbind, option_bind, execute. rewrite Hfind.
    now rewrite report_error. }
  split; [exact Hrun|]. intros final Hfinal. rewrite Hrun in Hfinal.
  apply run_written in Hfinal as [ws ->]. cbn [written].
  rewrite !elem_of_app, elem_of_cons. auto.
Qed.

Lemma runCliApp_reported (st : SessionState Ctx) (line : string)
    (rest : list string) (errorText : string) :
  CliApp.decodeLine line = CliApp.Reported errorText ->
  runCliApp (line :: rest) st = runCliApp rest (after st (jsonError errorText))
  /\ forall final,
       runCliApp (line :: rest) st = Some final ->
       jsonError errorText ∈ written final.
Proof.
  intros E.
  assert (Hrun : runCliApp (line :: rest) st
                 = runCliApp rest (after st (jsonError errorText))).
  { cbn [CliApp.runSession]. unfold CliApp.processLine. now rewrite E. }
  split; [exact Hrun|]. intros final Hfinal. rewrite Hrun in Hfinal.
  apply runCliApp_written in Hfinal as [ws ->]. cbn [written].
  rewrite !elem_of_app, elem_of_cons. auto.
Qed.

(** C7. In the session loop with CLI lines, a blank line and a line that
    begins with [#] write nothing, run no tool and leave the state as it was;
    a line that begins with an opening brace and is rejected by
    [JSON.parse], or parses to an object without a [tool] field (as the
    empty object does), is reported as an error of [session]: one chunk is
    written, a JSON line on standard output or the text line [session: ]
    with the message on standard error, and it is in the output of every
    result of the loop; in the JSON-lines loop of [cliApp.ts] a blank line is
    ignored and the same two kinds of line are reported by a JSON line with
    the message.  In every case the loop goes on with the following
    lines. *)
Theorem comments_ignored_json_errors_reported :
  (forall st line rest,
     isEmpty (trim line) = true \/ startsWith (trim line) "#" = true ->
     processLine zodObjectParse newResponse responseHandle contentJson
       contentItems tools args st line = Some (st, Continue)
     /\ run (line :: rest) st = run rest st)
  /\ (forall st line rest message,
        startsWith (trim line) "{" = true ->
        JSON_parse (trim line) = Err message ->
        run (line :: rest) st
        = run rest (after st (errorLine "session" message))
        /\ forall final,
             run (line :: rest) st = Some final ->
             errorLine "session" message ∈ written final)
  /\ (forall st line rest msg,
        startsWith (trim line) "{" = true ->
        JSON_parse (trim line) = Ok (JObj msg) ->
        field msg "tool" = None ->
        run (line :: rest) st
        = run rest
            (after st
               (errorLine "session"
                  ("Missing required field: " +:+ quoted "tool"
                   +:+ " (string)")))
        /\ forall final,
             run (line :: rest) st = Some final ->
             errorLine "session"
               ("Missing required field: " +:+ quoted "tool" +:+ " (string)")
             ∈ written final)
  /\ (forall toolName errorText, writeToolError args toolName errorText <> [])
  /\ (forall st line rest,
        isEmpty (trim line) = true ->
        runCliApp (line :: rest) st = runCliApp rest st)
  /\ (forall st line rest message,
        isEmpty (trim line) = false ->
        JSON_parse (trim line) = Err message ->
        runCliApp (line :: rest) st
        = runCliApp rest (after st (jsonError message))
        /\ forall final,
             runCliApp (line :: rest) st = Some final ->
             jsonError message ∈ written final)
  /\ (forall st line rest msg,
        isEmpty (trim line) = false ->
        JSON_parse (trim line) = Ok (JObj msg) ->
        field msg "tool" = None ->
        runCliApp (line :: rest) st
        = runCliApp rest
            (after st
               (jsonError
                  ("Missing required field: " +:+ quoted "tool"
                   +:+ " (string)")))
        /\ forall final,
             runCliApp (line :: rest) st = Some final ->
             jsonError
               ("Missing required field: " +:+ quoted "tool" +:+ " (string)")
             ∈ written final).
Proof.
  split; [|split; [|split; [|split; [|split; [|split]]]]].
  - intros st line rest Hskip. split.
    + unfold processLine. now rewrite decodeLine_ignored.
    + now apply run_ignored, decodeLine_ignored.
  - intros st line rest message Hb Hp. apply run_reported.
    rewrite decodeLine_json by exact Hb. unfold decodeJsonLine. now rewrite Hp.
  - intros st line rest msg Hb Hp Hf.
    apply (run_reported st line rest "session" missingToolField).
    rewrite decodeLine_json by exact Hb. unfold decodeJsonLine.
    now rewrite Hp, Hf.
  - apply writeToolError_nonempty.
  - intros st line rest Hb. cbn [CliApp.runSession].
    unfold CliApp.processLine, CliApp.decodeLine. now rewrite Hb.
  - intros st line rest message Hb Hp. apply runCliApp_reported.
    unfold CliApp.decodeLine. now rewrite Hb, Hp.
  - intros st line rest msg Hb Hp Hf.
    apply (runCliApp_reported st line rest missingToolField).
    unfold CliApp.decodeLine. now rewrite Hb, Hp, Hf.
Qed.

(** C8. A line that names a tool missing from the registry, as the [tool]
    field of a JSON message or as the first token of a CLI line (after an
    optional program name, with [-] read as [_]), is reported: one chunk
    with the message [Unknown tool: ] followed by that name is written, a
    JSON line on standard output or a text line on standard error by the
    format, it is in the output of every result of the loop, and the loop
    goes on with the following lines; the same holds in the JSON-lines loop
    of [cliApp.ts], which writes a JSON line. *)
Theorem unknown_tool_reported :
  (forall st line rest msg maybeTool,
     startsWith (trim line) "{" = true ->
     JSON_parse (trim line) = Ok (JObj msg) ->
     field msg "tool" = Some (JStr maybeTool) ->
     maybeTool <> "exit" -> maybeTool <> "quit" ->
     isEmpty (trim maybeTool) = false ->
     findTool tools (trim maybeTool) = None ->
     run (line :: rest) st
     = run rest
         (after st
            (errorLine (trim maybeTool) ("Unknown tool: " +:+ trim maybeTool)))
     /\ forall final,
          run (line :: rest) st = Some final ->
          errorLine (trim maybeTool) ("Unknown tool: " +:+ trim maybeTool)
          ∈ written final)
  /\ (forall st line rest tokens first others,
        isEmpty (trim line) = false ->
        startsWith (trim line) "#" = false ->
        startsWith (trim line) "{" = false ->
        tokenizeCliLine (trim line) = Ok tokens ->
        stripProgramName tokens = first :: others ->
        first <> "exit" -> first <> "quit" ->
        findTool tools (dashesToUnderscores first) = None ->
        run (line :: rest) st
        = run rest
            (after st
               (errorLine "session"
                  ("Unknown tool: " +:+ dashesToUnderscores first)))
        /\ forall final,
             run (line :: rest) st = Some final ->
             errorLine "session"
               ("Unknown tool: " +:+ dashesToUnderscores first)
             ∈ written final)
  /\ (forall st line rest msg maybeTool,
        isEmpty (trim line) = false ->
        JSON_parse (trim line) = Ok (JObj msg) ->
        field msg "tool" = Some (JStr maybeTool) ->
        maybeTool <> "exit" -> maybeTool <> "quit" ->
        isEmpty (trim maybeTool) = false ->
        findTool tools (trim maybeTool) = None ->
        runCliApp (line :: rest) st
        = runCliApp rest
            (after st
               (jsonToolError (trim maybeTool)
                  ("Unknown tool: " +:+ trim maybeTool)))
        /\ forall final,
             runCliApp (line :: rest) st = Some final ->
             jsonToolError (trim maybeTool)
               ("Unknown tool: " +:+ trim maybeTool)
             ∈ written final).
Proof.
  split; [|split].
  - intros st line rest msg maybeTool Hb Hp Hf He Hq Hn Hfind.
    apply String.eqb_neq in He, Hq.
    apply (run_unknown st line rest (trim maybeTool) (paramsOf msg));
      [|exact Hfind].
    rewrite decodeLine_json by exact Hb. unfold decodeJsonLine.
    now rewrite Hp, Hf, He, Hq, Hn.
  - intros st line rest tokens first others Hn Hc Hb Ht Hs He Hq Hfind.
    apply String.eqb_neq in He, Hq.
    apply (run_reported st line rest "session"
             ("Unknown tool: " +:+ dashesToUnderscores first)).
    rewrite decodeLine_cli by assumption.
    unfold decodeCliLine. rewrite Ht.
    destruct tokens as [|t ts]; [discriminate|].
    rewrite Hs, He, Hq. cbn [orb]. now rewrite Hfind.
  - intros st line rest msg maybeTool Hn Hp Hf He Hq Hne Hfind.
    apply String.eqb_neq in He, Hq.
    assert (Hrun : runCliApp (line :: rest) st
                   = runCliApp rest
                       (after st
                          (jsonToolError (trim maybeTool)
                             ("Unknown tool: " +:+ trim maybeTool)))).
    { cbn [CliApp.runSession]. unfold CliApp.processLine, CliApp.decodeLine.
      rewrite Hn, Hp, Hf, He, Hq, Hne. cbn [orb].
      unfold mbind, option_bind, CliApp.execute. now rewrite Hfind. }
    split; [exact Hrun|]. intros final Hfinal. rewrite Hrun in Hfinal.
    apply runCliApp_written in Hfinal as [ws ->]. cbn [written].
    rewrite !elem_of_app, elem_of_cons. auto.
Qed.

(** C5. The line [fill <uid> "Example text"] is tokenized into [fill],
    [<uid>] and [Example text]; a line with an unterminated double or
    single quote makes the tokenizer fail with the unterminated-quote error;
    in the session loop such a CLI line is reported as an error of
    [session]: one chunk with that error is written, a JSON line on standard
    output or the text line [session: Unterminated quote in CLI line] on
    standard error by the format, it is in the output of every result of the
    loop, and the loop goes on with the following lines. *)
Theorem quoted_tokens_and_unterminated_quotes :
  tokenizeCliLine fill_line = Ok ["fill"; "<uid>"; "Example text"]
  /\ (forall line,
        Unterminated line ->
        tokenizeCliLine line = Err "Unterminated quote in CLI line")
  /\ (forall st line rest,
        isEmpty (trim line) = false ->
        startsWith (trim line) "#" = false ->
        startsWith (trim line) "{" = false ->
        Unterminated (trim line) ->
        run (line :: rest) st
        = run rest
            (after st (errorLine "session" "Unterminated quote in CLI line"))
        /\ forall final,
             run (line :: rest) st = Some final ->
             errorLine "session" "Unterminated quote in CLI line"
             ∈ written final).
Proof.
  split; [reflexivity|]. split; [apply tokenize_unterminated|].
  intros st line rest Hn Hc Hb Hu. apply run_reported.
  rewrite decodeLine_cli by assumption. unfold decodeCliLine.
  now rewrite (tokenize_unterminated _ Hu).
Qed.

End SessionLines.

(** ** The diff engine *)

Section DiffFacts.
Context {Num : Type} `{EqDecision Num}.
Import AccessibilityDiff.

Lemma fieldChange_same (prop : string) (v : option (Json Num)) :
  fieldChange prop v v = [].
Proof. unfold fieldChange. now destruct (decide (v = v)). Qed.

Lemma nodeChanges_same (node : NormalizedAXNode Num) : nodeChanges node node = [].
Proof.
  unfold nodeChanges. rewrite !fieldChange_same. simpl.
  induction (elements _) as [|k ks IH]; [reflexivity|].
  simpl. now rewrite fieldChange_same.
Qed.

Lemma omap_all_none {A B} (f : A -> option B) (l : list A) :
  (forall x, x ∈ l -> f x = None) -> omap f l = [].
Proof.
  induction l as [|x l IH]; intros Hall; [reflexivity|].
  simpl. rewrite (Hall x) by left. apply IH. intros y Hy. apply Hall. now right.
Qed.

Lemma only_in_self (index : gmap string (NormalizedAXNode Num)) :
  map_to_list (filter (fun e => index !! e.1 = None) index) = [].
Proof.
  apply map_to_list_empty_iff, map_empty_filter.
  intros k node Hk. simpl. congruence.
Qed.

Lemma diff_self (snapshot : list (NormalizedAXNode Num)) :
  diffSnapshots snapshot snapshot = mkDiff [] [] [].
Proof.
  unfold diffSnapshots. rewrite only_in_self. simpl. f_equal.
  apply omap_all_none. intros [k node] Hin.
  apply elem_of_map_to_list in Hin. unfold changedAt. simpl.
  now rewrite Hin, nodeChanges_same.
Qed.

Lemma hasSnapshotChanges_spec (d : SnapshotDiff Num) :
  hasSnapshotChanges d = true
  <-> added d <> [] \/ removed d <> [] \/ changed d <> [].
Proof.
  unfold hasSnapshotChanges. rewrite negb_true_iff, !andb_false_iff.
  rewrite !bool_decide_eq_false. tauto.
Qed.

(** C4. Comparing a normalized snapshot with itself gives empty added,
    removed and changed lists and no changes; a diff has changes if and only
    if at least one of its three lists is non-empty. *)
Theorem diff_of_snapshot_with_itself :
  (forall snapshot : list (NormalizedAXNode Num),
     added (diffSnapshots snapshot snapshot) = []
     /\ removed (diffSnapshots snapshot snapshot) = []
     /\ changed (diffSnapshots snapshot snapshot) = []
     /\ hasSnapshotChanges (diffSnapshots snapshot snapshot) = false)
  /\ (forall d : SnapshotDiff Num,
        hasSnapshotChanges d = true
        <-> added d <> [] \/ removed d <> [] \/ changed d <> []).
Proof.
  split; [|apply hasSnapshotChanges_spec].
  intros snapshot. now rewrite diff_self.
Qed.

End DiffFacts.

(** ** Baselines *)

Section BaselineFacts.
Context {Num Raw : Type} `{JsRuntime Num} `{EqDecision Num}.
Import AccessibilityDiff Snapshot.
Variable normalizeSnapshot : Raw -> list (NormalizedAXNode Num).

Lemma default_keys_agree (p : ChangeParams) :
  compareTo p = None -> resolvedCompareKey p = resolvedBaselineKey p.
Proof. unfold resolvedCompareKey. now intros ->. Qed.

Lemma default_replaces (p : ChangeParams) :
  replaceBaseline p = None \/ replaceBaseline p = Some true ->
  resolvedReplaceBaseline p = true.
Proof. unfold resolvedReplaceBaseline. now intros [-> | ->]. Qed.

Lemma set_then_get (context : McpContext Num Raw) (key : string)
    (snapshot : list (NormalizedAXNode Num)) :
  getAccessibilityBaseline (setAccessibilityBaseline context key snapshot) key
  = Some snapshot.
Proof. apply lookup_insert_eq. Qed.

Lemma page_set (context : McpContext Num Raw) (key : string)
    (snapshot : list (NormalizedAXNode Num)) :
  page (setAccessibilityBaseline context key snapshot) = page context.
Proof. reflexivity. Qed.

Lemma set_twice (context : McpContext Num Raw) (key : string)
    (snapshot : list (NormalizedAXNode Num)) :
  setAccessibilityBaseline (setAccessibilityBaseline context key snapshot)
    key snapshot
  = setAccessibilityBaseline context key snapshot.
Proof.
  unfold setAccessibilityBaseline. simpl. now rewrite insert_insert_eq.
Qed.

(** Capturing again on the same page changes nothing, also after a
    baseline was stored. *)
Lemma create_after_set (context : McpContext Num Raw) (key : string)
    (snapshot : list (NormalizedAXNode Num)) :
  createTextSnapshot
    (setAccessibilityBaseline (createTextSnapshot context) key snapshot)
  = setAccessibilityBaseline (createTextSnapshot context) key snapshot.
Proof. reflexivity. Qed.

(** The handler, by the capture of the page and the baseline at the compare
    key. *)
Lemma handler_cases
    (diff : list (NormalizedAXNode Num) -> list (NormalizedAXNode Num) ->
            SnapshotDiff Num)
    (hasChanges : SnapshotDiff Num -> bool)
    (p : ChangeParams) (response : McpResponse) (context : McpContext Num Raw) :
  handler normalizeSnapshot diff hasChanges p response context
  = match page context with
    | None =>
        (createTextSnapshot context,
         appendResponseLine response noSnapshotMessage)
    | Some snapshot =>
        match getAccessibilityBaseline context (resolvedCompareKey p) with
        | None =>
            (setAccessibilityBaseline (createTextSnapshot context)
               (resolvedBaselineKey p) (normalizeSnapshot snapshot),
             appendResponseLine response
               (createdMessage (resolvedCompareKey p) (resolvedBaselineKey p)))
        | Some baseline =>
            (if resolvedReplaceBaseline p
             then setAccessibilityBaseline (createTextSnapshot context)
                    (resolvedBaselineKey p) (normalizeSnapshot snapshot)
             else createTextSnapshot context,
             if negb (hasChanges (diff baseline (normalizeSnapshot snapshot)))
             then appendResponseLine response
                    (noChangesMessage (resolvedCompareKey p))
             else appendResponseLines response
                    (diffLines (resolvedCompareKey p)
                       (diff baseline (normalizeSnapshot snapshot))))
        end
    end.
Proof. reflexivity. Qed.

(** With no baseline at the compare key the handler only stores and
    reports, whatever the diff engine is. *)
Lemma handler_creates
    (diff : list (NormalizedAXNode Num) -> list (NormalizedAXNode Num) ->
            SnapshotDiff Num)
    (hasChanges : SnapshotDiff Num -> bool)
    (p : ChangeParams) (response : McpResponse) (context : McpContext Num Raw)
    (snapshot : Raw) :
  page context = Some snapshot ->
  getAccessibilityBaseline context (resolvedCompareKey p) = None ->
  handler normalizeSnapshot diff hasChanges p response context
  = (setAccessibilityBaseline (createTextSnapshot context)
       (resolvedBaselineKey p) (normalizeSnapshot snapshot),
     appendResponseLine response
       (createdMessage (resolvedCompareKey p) (resolvedBaselineKey p))).
Proof. intros Hpage Hnone. now rewrite handler_cases, Hpage, Hnone. Qed.

(** Comparing an unchanged page with the baseline taken from it. *)
Lemma compare_unchanged (p : ChangeParams) (response : McpResponse)
    (context : McpContext Num Raw) (snapshot : Raw) :
  page context = Some snapshot ->
  getAccessibilityBaseline context (resolvedCompareKey p)
  = Some (normalizeSnapshot snapshot) ->
  responseLines (takeChangeSnapshot normalizeSnapshot p response context).2
  = (responseLines response
     ++ ["No accessibility changes compared to baseline "
         +:+ quoted (resolvedCompareKey p) +:+ "."])%list.
Proof.
  intros Hpage Hbase. unfold takeChangeSnapshot.
  rewrite handler_cases, Hpage, Hbase, diff_self. reflexivity.
Qed.


(** C2. With [replaceBaseline] left at its default [true] and the compare
    key equal to the baseline key (the default), a call that finds a baseline
    stores the current snapshot under the baseline key whether or not the
    diff has changes; a second call with the same parameters on the unchanged
    page leaves the context as it is and appends one line only, the line
    [No accessibility changes compared to baseline] with the key between
    double quotes and a full stop. *)
Theorem baseline_rolls_forward :
  forall p response (context : McpContext Num Raw) snapshot baseline,
    page context = Some snapshot ->
    resolvedReplaceBaseline p = true ->
    resolvedCompareKey p = resolvedBaselineKey p ->
    getAccessibilityBaseline context (resolvedCompareKey p) = Some baseline ->
    let context' := (takeChangeSnapshot normalizeSnapshot p response context).1 in
    context'
    = setAccessibilityBaseline (createTextSnapshot context)
        (resolvedBaselineKey p) (normalizeSnapshot snapshot)
    /\ getAccessibilityBaseline context' (resolvedBaselineKey p)
       = Some (normalizeSnapshot snapshot)
    /\ forall response',
         (takeChangeSnapshot normalizeSnapshot p response' context').1
         = context'
         /\ responseLines
              (takeChangeSnapshot normalizeSnapshot p response' context').2
            = (responseLines response'
               ++ ["No accessibility changes compared to baseline "
                   +:+ quoted (resolvedCompareKey p) +:+ "."])%list.
Proof.
  intros p response context snapshot baseline Hpage Hreplace Hkeys Hbase context'.
  assert (E : context'
              = setAccessibilityBaseline (createTextSnapshot context)
                  (resolvedBaselineKey p) (normalizeSnapshot snapshot)).
  { subst context'. unfold takeChangeSnapshot.
    now rewrite handler_cases, Hpage, Hbase, Hreplace. }
  rewrite E. split; [reflexivity|]. split; [apply set_then_get|].
  intros response'. split.
  - unfold takeChangeSnapshot. rewrite handler_cases.
    rewrite page_set. change (page (createTextSnapshot context)) with (page context).
    rewrite Hpage, Hkeys, set_then_get, Hreplace. cbn [fst].
    now rewrite create_after_set, set_twice.
  - apply compare_unchanged with snapshot; [exact Hpage|].
    rewrite Hkeys. apply set_then_get.
Qed.

Lemma createdMessage_same (key : string) :
  createdMessage key key
  = "No baseline found for key " +:+ quoted key
    +:+ ". Created a baseline with the current snapshot.".
Proof. unfold createdMessage. now rewrite String.eqb_refl. Qed.

Lemma createdMessage_other (compareKey baselineKey : string) :
  compareKey <> baselineKey ->
  createdMessage compareKey baselineKey
  = "No baseline found for key " +:+ quoted compareKey
    +:+ ". Created a baseline under " +:+ quoted baselineKey
    +:+ " with the current snapshot.".
Proof.
  intros Hne%String.eqb_neq. unfold createdMessage. now rewrite Hne.
Qed.

Lemma createdMessage_distinct (compareKey baselineKey : string) :
  compareKey <> baselineKey ->
  createdMessage compareKey compareKey <> createdMessage compareKey baselineKey.
Proof.
  intros Hne. rewrite createdMessage_same, (createdMessage_other _ _ Hne).
  intros E. apply append_cancel_l in E. unfold quoted in E.
  rewrite !append_assoc in E. apply append_cancel_l in E.
  apply append_cancel_l in E. apply append_cancel_l in E.
  apply (append_cancel_l ". Created a baseline ") in E. discriminate.
Qed.

(** C3. When no baseline exists at the compare key, the current normalized
    snapshot is stored under the baseline key and the only line reported
    says that no baseline was found and one was created, in one wording when
    the two keys are equal and in a different wording, naming the baseline
    key, when they differ; a later comparison against the key that now holds
    the baseline, on the unchanged page, appends one line only, the line
    [No accessibility changes compared to baseline] with that key between
    double quotes and a full stop. *)
Theorem baseline_created_then_unchanged :
  (forall p response (context : McpContext Num Raw) snapshot,
     page context = Some snapshot ->
     getAccessibilityBaseline context (resolvedCompareKey p) = None ->
     let result := takeChangeSnapshot normalizeSnapshot p response context in
     result.1
     = setAccessibilityBaseline (createTextSnapshot context)
         (resolvedBaselineKey p) (normalizeSnapshot snapshot)
     /\ responseLines result.2
        = (responseLines response
           ++ [createdMessage (resolvedCompareKey p) (resolvedBaselineKey p)])%list
     /\ forall p' response',
          resolvedCompareKey p' = resolvedBaselineKey p ->
          responseLines
            (takeChangeSnapshot normalizeSnapshot p' response' result.1).2
          = (responseLines response'
             ++ ["No accessibility changes compared to baseline "
                 +:+ quoted (resolvedBaselineKey p) +:+ "."])%list)
  /\ (forall key,
        createdMessage key key
        = "No baseline found for key " +:+ quoted key
          +:+ ". Created a baseline with the current snapshot.")
  /\ (forall compareKey baselineKey,
        compareKey <> baselineKey ->
        createdMessage compareKey baselineKey
        = "No baseline found for key " +:+ quoted compareKey
          +:+ ". Created a baseline under " +:+ quoted baselineKey
          +:+ " with the current snapshot."
        /\ createdMessage compareKey compareKey
           <> createdMessage compareKey baselineKey).
Proof.
  split; [|split; [apply createdMessage_same|]].
  - intros p response context snapshot Hpage Hnone result.
    assert (E : result
                = (setAccessibilityBaseline (createTextSnapshot context)
                     (resolvedBaselineKey p) (normalizeSnapshot snapshot),
                   appendResponseLine response
                     (createdMessage (resolvedCompareKey p)
                        (resolvedBaselineKey p))))
      by (now apply handler_creates).
    rewrite E. cbn [fst snd]. repeat split. intros p' response' Hkey.
    rewrite <- Hkey. apply compare_unchanged with snapshot; [exact Hpage|].
    rewrite Hkey. apply set_then_get.
  - intros compareKey baselineKey Hne.
    split; [now apply createdMessage_other | now apply createdMessage_distinct].
Qed.

End BaselineFacts.

(** ** Empty tokens *)

(** C10, as amended. The tokenizer returns no empty token: a quoted empty
    string, double or single, produces no token, so [fill <uid>] followed
    by an empty quoted string has a single token after the tool name;
    decoded from tokens of which none is a flag written [--name=], no
    parameter holds the empty string. *)
Theorem empty_tokens_dropped {Num : Type} `{JsRuntime Num} :
  (forall line tokens,
     tokenizeCliLine line = Ok tokens ->
     Forall (fun t => t <> EmptyString) tokens)
  /\ tokenizeCliLine ("fill <uid> " +:+ dq +:+ dq) = Ok ["fill"; "<uid>"]
  /\ tokenizeCliLine "fill <uid> ''" = Ok ["fill"; "<uid>"]
  /\ (forall (entries : list (string * ZodSchema Num)) line tokens rawParams,
        tokenizeCliLine line = Ok tokens ->
        Forall (fun t => emptyInlineValue t = false) tokens ->
        parseToolParamsFromCliTokens entries (stripProgramName tokens)
        = Ok rawParams ->
        forall key, rawParams !! key <> Some (JStr EmptyString)).
Proof.
  split; [exact tokenize_nonempty|]. split; [reflexivity|].
  split; [reflexivity|].
  intros entries line tokens rawParams Ht Hinl Hp.
  apply tokenize_nonempty in Ht.
  apply (parse_noEmpty entries (stripProgramName tokens)); [| |exact Hp].
  - destruct tokens as [|t ts]; [constructor|]. simpl.
    destruct (isProgramName t); [|exact Ht]. now apply Forall_cons in Ht as [_ ?].
  - destruct tokens as [|t ts]; [constructor|]. simpl.
    destruct (isProgramName t); [|exact Hinl].
    now apply Forall_cons in Hinl as [_ ?].
Qed.

(** An empty string does pass as the value of a flag written [--name=]:
    the line [fill 1_2 --value=] decodes to [value] holding the empty
    string. *)
Lemma empty_flag_value_passes :
  tokenizeCliLine "fill 1_2 --value=" = Ok ["fill"; "1_2"; "--value="]
  /\ exists rawParams,
       parseToolParamsFromCliTokens exampleSchema ["fill"; "1_2"; "--value="]
       = Ok rawParams
       /\ rawParams !! "uid" = Some (JStr "1_2")
       /\ rawParams !! "value" = Some (JStr EmptyString).
Proof.
  split; [reflexivity|]. eexists. split; [vm_compute; reflexivity|].
  split; vm_compute; reflexivity.
Qed.

(** * Concrete instances *)

Ltac open_quote :=
  repeat first
    [ apply open_at_end
    | apply open_opens; [left; reflexivity|]
    | apply open_opens; [right; reflexivity|]
    | apply open_outside; [intros [?|?]; discriminate | discriminate |]
    | apply open_inside; [discriminate | discriminate |] ].

Lemma openLine_unterminated : Unterminated openLine.
Proof. unfold Unterminated. cbv. open_quote. Qed.

Lemma execution_guard_released_witness :
  guardFree (startSession 0)
  /\ exists st',
       exampleRun ["fill 1_2 hello"; "fill"; "exit"] (startSession 0) = Some st'
       /\ guardFree st'.
Proof.
  assert (Hfree : guardFree (startSession 0)) by (split; reflexivity).
  split; [exact Hfree|].
  destruct (execution_guard_released validateParams tt
              (fun _ _ n => (n, Ok tt)) (fun _ => JArr []) (fun _ => [])
              [exampleTool] exampleArgs) as (_ & Hrun & _).
  unfold exampleRun. apply Hrun. exact Hfree.
Defined.

Lemma baseline_rolls_forward_witness :
  (Snapshot.takeChangeSnapshot exampleNormalize
     (Snapshot.mkChangeParams None None None) (Snapshot.mkResponse [])
     (Snapshot.takeChangeSnapshot exampleNormalize
        (Snapshot.mkChangeParams None None None) (Snapshot.mkResponse [])
        (Snapshot.mkContext (Some "World")
           {[ "default" := exampleNormalize "Hello" ]})).1).2
  = Snapshot.mkResponse
      ["No accessibility changes compared to baseline " +:+ quoted "default"
       +:+ "."].
Proof.
  pose proof (baseline_rolls_forward exampleNormalize
                (Snapshot.mkChangeParams None None None) (Snapshot.mkResponse [])
                (Snapshot.mkContext (Some "World")
                   {[ "default" := exampleNormalize "Hello" ]})
                "World" (exampleNormalize "Hello")
                eq_refl eq_refl eq_refl (lookup_singleton_eq _ _)) as Hw.
  cbv zeta in Hw. destruct Hw as (_ & _ & Hagain).
  destruct (Hagain (Snapshot.mkResponse [])) as [_ Hlines].
  destruct (Snapshot.takeChangeSnapshot _ _ _ _).2 as [lines].
  cbn [Snapshot.responseLines] in Hlines. now rewrite Hlines.
Defined.

Lemma baseline_created_then_unchanged_witness :
  (Snapshot.takeChangeSnapshot exampleNormalize
     (Snapshot.mkChangeParams (Some "chat") None None) (Snapshot.mkResponse [])
     (Snapshot.takeChangeSnapshot exampleNormalize
        (Snapshot.mkChangeParams (Some "chat") None None)
        (Snapshot.mkResponse []) (Snapshot.mkContext (Some "Hello") ∅)).1).2
  = Snapshot.mkResponse
      ["No accessibility changes compared to baseline " +:+ quoted "chat"
       +:+ "."].
Proof.
  destruct (baseline_created_then_unchanged exampleNormalize) as (Hcreate & _).
  pose proof (Hcreate (Snapshot.mkChangeParams (Some "chat") None None)
                (Snapshot.mkResponse []) (Snapshot.mkContext (Some "Hello") ∅)
                "Hello" eq_refl (lookup_empty _)) as Hw.
  cbv zeta in Hw. destruct Hw as (_ & _ & Hagain).
  pose proof (Hagain (Snapshot.mkChangeParams (Some "chat") None None)
                (Snapshot.mkResponse []) eq_refl) as Hlines.
  destruct (Snapshot.takeChangeSnapshot _ _ _ _).2 as [lines].
  cbn [Snapshot.responseLines] in Hlines. now rewrite Hlines.
Defined.

Lemma diff_of_snapshot_with_itself_witness :
  AccessibilityDiff.hasSnapshotChanges
    (AccessibilityDiff.mkDiff (exampleNormalize "Hello") [] []) = true.
Proof.
  apply (proj2 diff_of_snapshot_with_itself). left. discriminate.
Defined.

Lemma quoted_tokens_and_unterminated_quotes_witness :
  tokenizeCliLine openLine = Err "Unterminated quote in CLI line"
  /\ exampleRun [openLine; "exit"] (startSession 0)
     = Some
         (mkSession 0 newMutex
            [Stderr ("session: Unterminated quote in CLI line" +:+ nl)] []).
Proof.
  destruct (quoted_tokens_and_unterminated_quotes validateParams tt
              (fun _ _ n => (n, Ok tt)) (fun _ => JArr []) (fun _ => [])
              [exampleTool] exampleArgs) as (_ & Htok & Hrun).
  split.
  - apply Htok, openLine_unterminated.
  - destruct (Hrun (startSession 0) openLine ["exit"]) as [E _];
      [reflexivity | reflexivity | reflexivity | exact openLine_unterminated |].
    unfold exampleRun. rewrite E. reflexivity.
Defined.

Lemma comments_ignored_json_errors_reported_witness :
  exampleRun ["# a comment"; "exit"] (startSession 0) = Some (startSession 0)
  /\ exampleRun ["{}"; "exit"] (startSession 0)
     = Some
         (mkSession 0 newMutex
            [Stderr
               ("session: Missing required field: " +:+ quoted "tool"
                +:+ " (string)" +:+ nl)] [])
  /\ exampleRun ["{"; "exit"] (startSession 0)
     = Some
         (mkSession 0 newMutex
            [Stderr ("session: Unexpected token in JSON" +:+ nl)] [])
  /\ exampleRunCliApp ["# a comment"] (startSession 0)
     = Some
         (mkSession 0 newMutex
            [Stdout
               (JSON_stringify
                  (JObj [("isError", JBool true);
                         ("error", JStr "Unexpected token in JSON")]
                   : Json (option N)) +:+ nl)] []).
Proof.
  destruct (comments_ignored_json_errors_reported validateParams tt
              (fun _ _ n => (n, Ok tt)) (fun _ => JArr []) (fun _ => [])
              [exampleTool] exampleArgs)
    as (Hskip & Hbad & Hempty & _ & _ & Hbad' & _).
  unfold exampleRun, exampleRunCliApp. split; [|split; [|split]].
  - destruct (Hskip (startSession 0) "# a comment" ["exit"]) as [_ E];
      [right; reflexivity|].
    rewrite E. reflexivity.
  - destruct (Hempty (startSession 0) "{}" ["exit"] []) as [E _];
      [reflexivity | reflexivity | reflexivity |].
    rewrite E. reflexivity.
  - destruct (Hbad (startSession 0) "{" ["exit"] "Unexpected token in JSON")
      as [E _]; [reflexivity | reflexivity |].
    rewrite E. reflexivity.
  - destruct (Hbad' (startSession 0) "# a comment" []
                "Unexpected token in JSON") as [E _];
      [reflexivity | reflexivity |].
    rewrite E. reflexivity.
Defined.

Lemma unknown_tool_reported_witness :
  exampleRun [nopeMessage; "exit"] (startSession 0)
  = Some
      (mkSession 0 newMutex [Stderr ("nope: Unknown tool: nope" +:+ nl)] [])
  /\ exampleRun ["chrome_devtools no-such-tool 1"; "exit"] (startSession 0)
     = Some
         (mkSession 0 newMutex
            [Stderr ("session: Unknown tool: no_such_tool" +:+ nl)] [])
  /\ exampleRunCliApp [nopeMessage] (startSession 0)
     = Some
         (mkSession 0 newMutex
            [Stdout
               (JSON_stringify
                  (JObj [("tool", JStr "nope"); ("isError", JBool true);
                         ("error", JStr "Unknown tool: nope")]
                   : Json (option N)) +:+ nl)] []).
Proof.
  destruct (unknown_tool_reported validateParams tt
              (fun _ _ n => (n, Ok tt)) (fun _ => JArr []) (fun _ => [])
              [exampleTool] exampleArgs) as (Hjson & Hcli & Hjson').
  unfold exampleRun, exampleRunCliApp. split; [|split].
  - destruct (Hjson (startSession 0) nopeMessage ["exit"]
                [("tool", JStr "nope")] "nope") as [E _];
      [reflexivity | reflexivity | reflexivity | discriminate | discriminate
      | reflexivity | reflexivity |].
    rewrite E. reflexivity.
  - destruct (Hcli (startSession 0) "chrome_devtools no-such-tool 1" ["exit"]
                ["chrome_devtools"; "no-such-tool"; "1"] "no-such-tool" ["1"])
      as [E _];
      [reflexivity | reflexivity | reflexivity | reflexivity | reflexivity
      | discriminate | discriminate | reflexivity |].
    rewrite E. reflexivity.
  - destruct (Hjson' (startSession 0) nopeMessage []
                [("tool", JStr "nope")] "nope") as [E _];
      [reflexivity | reflexivity | reflexivity | discriminate | discriminate
      | reflexivity | reflexivity |].
    rewrite E. reflexivity.
Defined.


Lemma empty_tokens_dropped_witness :
  tokenizeCliLine ("fill 1_2 " +:+ dq +:+ dq) = Ok ["fill"; "1_2"]
  /\ Forall (fun t => t <> EmptyString) ["fill"; "1_2"]
  /\ parseToolParamsFromCliTokens exampleSchema (stripProgramName ["fill"; "1_2"])
     = Ok ({[ "uid" := JStr "1_2" ]} : gmap string (Json (option N)))
  /\ (forall key,
        ({[ "uid" := JStr "1_2" ]} : gmap string (Json (option N))) !! key
        <> Some (JStr EmptyString))
  /\ forall key,
       ({[ "uid" := JStr "1_2"; "value" := JStr "hello" ]}
          : gmap string (Json (option N))) !! key
       <> Some (JStr EmptyString).
Proof.
  destruct (@empty_tokens_dropped (option N) exampleRuntime)
    as (Hne & _ & _ & Hvalues).
  assert (Hline : tokenizeCliLine ("fill 1_2 " +:+ dq +:+ dq)
                  = Ok ["fill"; "1_2"]) by reflexivity.
  assert (Hparse : parseToolParamsFromCliTokens exampleSchema
                     (stripProgramName ["fill"; "1_2"])
                   = Ok ({[ "uid" := JStr "1_2" ]}
                           : gmap string (Json (option N))))
    by (vm_compute; reflexivity).
  split; [exact Hline|]. split; [exact (Hne _ _ Hline)|].
  split; [exact Hparse|]. split.
  - apply (Hvalues exampleSchema ("fill 1_2 " +:+ dq +:+ dq) ["fill"; "1_2"]).
    + exact Hline.
    + repeat constructor.
    + exact Hparse.
  - apply (Hvalues exampleSchema "fill 1_2 hello" ["fill"; "1_2"; "hello"]).
    + reflexivity.
    + repeat constructor.
    + vm_compute. reflexivity.
Defined.

(** * Further properties *)

(** ** Tokens written on a line are read back *)

Module RenderingFacts.
Import Tokenizer.

Lemma append_empty_r (s : string) : s +:+ EmptyString = s.
Proof. induction s as [|c s IH]; [reflexivity|]. now rewrite append_cons, IH. Qed.

Lemma append_chr (a b : string) (c : ascii) :
  (a +:+ chr c) +:+ b = a +:+ String c b.
Proof. now rewrite append_assoc. Qed.

Lemma step_literal (st : State) (c : ascii) :
  escaping st = false -> literalIn (quote st) c = true ->
  step st c = append st c.
Proof.
  intros Hesc Hlit. unfold step. rewrite Hesc.
  unfold literalIn, plainChar in Hlit. destruct (quote st) as [q|].
  - apply andb_prop in Hlit as [Hq Hb]. apply negb_true_iff in Hq, Hb.
    now rewrite Hb, Hq.
  - apply andb_prop in Hlit as [Hlit Hb]. apply andb_prop in Hlit as [Hlit Hs].
    apply andb_prop in Hlit as [Hsp Hd].
    apply negb_true_iff in Hb, Hs, Hd, Hsp. now rewrite Hb, Hd, Hs, Hsp.
Qed.

Lemma scan_literal (w : string) :
  forall st,
  escaping st = false -> allChars (literalIn (quote st)) w = true ->
  scan st w = mkState (tokens st) (current st +:+ w) (quote st) false.
Proof.
  induction w as [|c w IH]; intros st Hesc Hall.
  - simpl. rewrite append_empty_r. destruct st; simpl in *. now subst.
  - unfold allChars in Hall. simpl in Hall. apply andb_prop in Hall as [Hc Hw].
    simpl. rewrite (step_literal st c Hesc Hc).
    rewrite IH; [|exact Hesc|exact Hw]. simpl. now rewrite append_chr.
Qed.

Lemma scan_escaped (s : string) :
  forall st,
  escaping st = false ->
  scan st (escapeAll s)
  = mkState (tokens st) (current st +:+ s) (quote st) false.
Proof.
  induction s as [|c s IH]; intros st Hesc.
  - simpl. rewrite append_empty_r. destruct st; simpl in *. now subst.
  - simpl. unfold step at 2. rewrite Hesc, Ascii.eqb_refl.
    unfold step. simpl. rewrite IH by reflexivity. simpl.
    now rewrite append_chr.
Qed.

Lemma scan_app (a b : string) : forall st, scan st (a +:+ b) = scan (scan st a) b.
Proof.
  induction a as [|c a IH]; intros st; [reflexivity|].
  rewrite append_cons. simpl. apply IH.
Qed.

Lemma scan_rendering (token part : string) (T : list string) (cur : string) :
  Rendering token part ->
  scan (mkState T cur None false) part = mkState T (cur +:+ token) None false.
Proof.
  intros [Hplain | q Hq Hbody | ].
  - now rewrite scan_literal.
  - assert (Hnb : Ascii.eqb q backslash = false)
      by (destruct Hq; subst; reflexivity).
    assert (Hisq : Ascii.eqb q dquote || Ascii.eqb q squote = true)
      by (destruct Hq; subst; reflexivity).
    unfold chr. rewrite append_cons. simpl scan.
    unfold step at 1. simpl. rewrite Hnb, Hisq.
    change (String.append EmptyString (token +:+ String q EmptyString))
      with (token +:+ String q EmptyString).
    rewrite scan_app, (scan_literal token) by (try reflexivity; exact Hbody).
    simpl. unfold step. simpl. now rewrite Hnb, Ascii.eqb_refl.
  - now rewrite scan_escaped.
Qed.

Lemma finish_parts (toks parts : list string) :
  Forall2 Rendering toks parts ->
  Forall (fun t => t <> EmptyString) toks ->
  forall T,
  finish (scan (mkState T EmptyString None false) (String.concat " " parts))
  = Ok (T ++ toks)%list.
Proof.
  induction 1 as [|token part toks parts Hr Hrest IH]; intros Hne T.
  - simpl. unfold finish, push. simpl. now rewrite app_nil_r.
  - apply Forall_cons in Hne as [Htoken Hne].
    assert (Hcur : isEmpty token = false) by now apply isEmpty_false.
    destruct parts as [|part' parts'].
    + inversion Hrest; subst. simpl String.concat.
      rewrite (scan_rendering token part T EmptyString Hr).
      change (EmptyString +:+ token) with token.
      unfold finish, push. simpl. now rewrite Hcur.
    + change (String.concat " " (part :: part' :: parts'))
        with (part +:+ String " " (String.concat " " (part' :: parts'))).
      rewrite scan_app, (scan_rendering token part T EmptyString Hr).
      change (EmptyString +:+ token) with token.
      simpl scan. unfold step at 1. simpl. unfold push at 1. simpl.
      rewrite Hcur. rewrite (IH Hne). now rewrite <- app_assoc.
Qed.

End RenderingFacts.

(** X1. Tokens written on one line, each as it is, between quotes or with
    every character escaped, and separated by single spaces, are read back
    unchanged by the tokenizer. *)
Theorem tokens_read_back (toks parts : list string) :
  Forall2 Rendering toks parts ->
  Forall (fun t => t <> EmptyString) toks ->
  tokenizeCliLine (String.concat " " parts) = Ok toks.
Proof.
  intros Hr Hne. unfold tokenizeCliLine, Tokenizer.init.
  now rewrite (RenderingFacts.finish_parts toks parts Hr Hne []).
Qed.

(** X2. Every non-empty string can be passed as one token: written with a
    backslash before each character it is read back as that string,
    whatever characters it holds. *)
Theorem any_token_can_be_escaped (token : string) :
  token <> EmptyString ->
  tokenizeCliLine (escapeAll token) = Ok [token].
Proof.
  intros Hne. unfold tokenizeCliLine, Tokenizer.init.
  change (escapeAll token) with (String.concat " " [escapeAll token]).
  rewrite (RenderingFacts.finish_parts [token] [escapeAll token]);
    [reflexivity | repeat constructor | now repeat constructor].
Qed.

(** X3. The tokenizer fails exactly on the lines that leave a quote open;
    in particular a backslash at the end of a line is not an error. *)
Theorem tokenizer_fails_iff_unterminated (line : string) :
  (exists message, tokenizeCliLine line = Err message) <-> Unterminated line.
Proof.
  split.
  - intros [message E]. now apply tokenize_fails_only_unterminated with message.
  - intros Hu. eexists. now apply tokenize_unterminated.
Qed.

(** ** The documentation generator and the decoder *)

Section DocGenFacts.
Context {Num : Type} `{JsRuntime Num}.

Lemma doc_unwrapLoop (schema : ZodSchema Num) :
  forall req dflt,
  DocGen.unwrapLoop schema req
  = (unwrapped (unwrapLoop schema req dflt), required (unwrapLoop schema req dflt)).
Proof. induction schema; intros req dflt; simpl; auto. Qed.

Lemma doc_isRequired (schema : ZodSchema Num) :
  DocGen.isRequired schema = required (unwrapZodSchema schema).
Proof.
  unfold unwrapZodSchema. generalize (@None (Json Num)) as dflt.
  induction schema; intros dflt; simpl; auto using unwrapLoop_optional.
  all: symmetry; apply unwrapLoop_optional.
Qed.

Lemma doc_unwrap (schema : ZodSchema Num) :
  DocGen.unwrap schema
  = (unwrapped (unwrapZodSchema schema), required (unwrapZodSchema schema)).
Proof. apply doc_unwrapLoop. Qed.

Lemma doc_isPositionalFriendly (schema : ZodSchema Num) :
  DocGen.isPositionalFriendly schema = schemaIsPositionalFriendly schema.
Proof.
  unfold DocGen.isPositionalFriendly, schemaIsPositionalFriendly.
  now rewrite doc_unwrap.
Qed.

Lemma doc_positionalKeys (entries : list (string * ZodSchema Num)) :
  DocGen.positionalKeys entries = positionalKeys entries.
Proof.
  unfold DocGen.positionalKeys, positionalKeys. f_equal.
  induction entries as [|[k s] rest IH]; [reflexivity|].
  rewrite !filter_cons. simpl. rewrite doc_unwrap. simpl.
  destruct (decide (required (unwrapZodSchema s) = true)); [|exact IH].
  rewrite !filter_cons. simpl. rewrite doc_isPositionalFriendly.
  destruct (decide (schemaIsPositionalFriendly s = true)); now rewrite IH.
Qed.

(** X4. The documentation generator and the decoder agree on every schema:
    the generator's [unwrap] returns the shape and the [required] flag of
    [unwrapZodSchema], [isRequired] of the tool reference returns the same
    flag, and the positional parameters shown in a documented command are
    those that the decoder fills positionally, in the same order. *)
Theorem documented_positionals_are_decoded :
  (forall schema : ZodSchema Num,
     DocGen.unwrap schema
     = (unwrapped (unwrapZodSchema schema), required (unwrapZodSchema schema))
     /\ DocGen.isRequired schema = required (unwrapZodSchema schema)
     /\ DocGen.isPositionalFriendly schema = schemaIsPositionalFriendly schema)
  /\ (forall entries : list (string * ZodSchema Num),
        DocGen.positionalKeys entries = positionalKeys entries).
Proof.
  split; [|apply doc_positionalKeys].
  intros schema.
  auto using doc_unwrap, doc_isRequired, doc_isPositionalFriendly.
Qed.

Lemma someChar_false (p : ascii -> bool) (s : string) :
  DocGen.someChar p s = false -> allChars (fun c => negb (p c)) s = true.
Proof.
  unfold DocGen.someChar, allChars.
  induction (list_ascii_of_string s) as [|c l IH]; [reflexivity|].
  simpl. intros E. apply orb_false_iff in E as [-> E]. now rewrite IH.
Qed.

Lemma allChars_and (p q : ascii -> bool) (s : string) :
  allChars p s = true -> allChars q s = true ->
  allChars (fun c => p c && q c) s = true.
Proof.
  unfold allChars. induction (list_ascii_of_string s) as [|c l IH];
    [reflexivity|].
  simpl. intros [-> Hp]%andb_prop [-> Hq]%andb_prop. now rewrite IH.
Qed.

Lemma allChars_ext (p q : ascii -> bool) (s : string) :
  (forall c, p c = q c) -> allChars p s = allChars q s.
Proof.
  intros E. unfold allChars. induction (list_ascii_of_string s) as [|c l IH];
    [reflexivity|].
  simpl. now rewrite E, IH.
Qed.

(** The argument written for a string is one of the ways to write it. *)
Lemma formatCliArg_rendering (s : string) :
  DocGen.someChar (Ascii.eqb backslash) s = false ->
  DocGen.someChar (Ascii.eqb dquote) s = false ->
  (startsWith s "<" && DocGen.endsWithChar s ">" = true ->
   allChars plainChar s = true) ->
  JSON_stringify (JStr s) = quoted s ->
  Rendering s (DocGen.formatCliArg (JStr s)).
Proof.
  intros Hb Hd Hph Hjson. unfold DocGen.formatCliArg.
  apply someChar_false in Hb. 
  destruct (startsWith s "<" && DocGen.endsWithChar s ">") eqn:Eph.
  { apply render_plain. now apply Hph. }
  destruct (DocGen.someChar isSpace s || DocGen.someChar (Ascii.eqb dquote) s
            || DocGen.someChar (Ascii.eqb squote) s) eqn:Eq.
  - rewrite Hjson. apply (render_quoted s dquote); [now left|].
    apply someChar_false in Hd.
    rewrite (allChars_ext _ (fun c => negb (Ascii.eqb dquote c)
                                      && negb (Ascii.eqb backslash c))).
    + now apply allChars_and.
    + intros c. now rewrite (Ascii.eqb_sym c dquote), (Ascii.eqb_sym c backslash).
  - apply orb_false_iff in Eq as [Eq Es]. apply orb_false_iff in Eq as [Esp _].
    apply someChar_false in Esp, Es, Hd. apply render_plain.
    unfold plainChar.
    rewrite (allChars_ext _ (fun c => (fun c => (fun c => negb (isSpace c)
                                        && negb (Ascii.eqb dquote c)) c
                                        && negb (Ascii.eqb squote c)) c
                                      && negb (Ascii.eqb backslash c))).
    + repeat apply allChars_and; assumption.
    + intros c. now rewrite (Ascii.eqb_sym c dquote), (Ascii.eqb_sym c squote),
        (Ascii.eqb_sym c backslash).
Qed.

(** X5. The argument that the documentation generator writes for a string
    value is read back by the tokenizer as that value: for a non-empty string
    without backslash and double quote, with a runtime whose [JSON.stringify]
    writes it between double quotes, and provided a string of the placeholder
    form [<...>] has no white space or quote. *)
Theorem documented_argument_read_back (s : string) :
  s <> EmptyString ->
  DocGen.someChar (Ascii.eqb backslash) s = false ->
  DocGen.someChar (Ascii.eqb dquote) s = false ->
  (startsWith s "<" && DocGen.endsWithChar s ">" = true ->
   allChars plainChar s = true) ->
  JSON_stringify (JStr s) = quoted s ->
  tokenizeCliLine (DocGen.formatCliArg (JStr s)) = Ok [s].
Proof.
  intros Hne Hb Hd Hph Hjson.
  pose proof (formatCliArg_rendering s Hb Hd Hph Hjson) as Hr.
  unfold tokenizeCliLine, Tokenizer.init.
  change (DocGen.formatCliArg (JStr s))
    with (String.concat " " [DocGen.formatCliArg (JStr s)]).
  rewrite (RenderingFacts.finish_parts [s] [DocGen.formatCliArg (JStr s)]);
    [reflexivity | now repeat constructor | now repeat constructor].
Qed.

End DocGenFacts.

(** ** Schemas and positional parameters *)

Section SchemaFacts.
Context {Num : Type} `{JsRuntime Num}.

Lemma unwrapLoop_base (schema : ZodSchema Num) :
  forall req dflt, isWrapper (unwrapped (unwrapLoop schema req dflt)) = false.
Proof. induction schema; intros req dflt; simpl; auto. Qed.

Lemma unwrapLoop_of_base (schema : ZodSchema Num) (req : bool)
    (dflt : option (Json Num)) :
  isWrapper schema = false ->
  unwrapLoop schema req dflt = mkUnwrapped schema req dflt.
Proof. destruct schema; simpl; intros E; try reflexivity; discriminate. Qed.

(** X6. [unwrapZodSchema] always ends on a shape that is not a wrapper, so
    unwrapping its result again changes nothing and reports it as required
    and without default. *)
Theorem unwrapped_is_a_base_shape (schema : ZodSchema Num) :
  isWrapper (unwrapped (unwrapZodSchema schema)) = false
  /\ unwrapZodSchema (unwrapped (unwrapZodSchema schema))
     = mkUnwrapped (unwrapped (unwrapZodSchema schema)) true None.
Proof.
  split; [apply unwrapLoop_base|].
  apply unwrapLoop_of_base, unwrapLoop_base.
Qed.

Lemma positionalKeys_elem (entries : list (string * ZodSchema Num))
    (key : string) :
  key ∈ positionalKeys entries
  <-> exists schema,
        (key, schema) ∈ entries
        /\ required (unwrapZodSchema schema) = true
        /\ schemaIsPositionalFriendly schema = true.
Proof.
  unfold positionalKeys. rewrite list_elem_of_In, in_map_iff. split.
  - intros ([k s] & <- & Hin). apply list_elem_of_In in Hin.
    apply list_elem_of_filter in Hin as [Hf Hin].
    apply list_elem_of_filter in Hin as [Hr Hin]. eauto.
  - intros (schema & Hin & Hr & Hf). exists (key, schema). split; [reflexivity|].
    apply list_elem_of_In. apply list_elem_of_filter. split; [exact Hf|].
    apply list_elem_of_filter. split; [exact Hr | exact Hin].
Qed.

(** X7. The parameters filled positionally are exactly those that are
    required and of string, number or enum shape; a parameter with a
    declared default, or of boolean, array or object shape, is never
    positional. *)
Theorem positional_parameters_are_required_scalars
    (entries : list (string * ZodSchema Num)) (key : string) :
  (key ∈ positionalKeys entries
   <-> exists schema,
         (key, schema) ∈ entries
         /\ required (unwrapZodSchema schema) = true
         /\ schemaIsPositionalFriendly schema = true)
  /\ (forall schema,
        NoDup entries.*1 -> (key, schema) ∈ entries ->
        (is_Some (defaultValue (unwrapZodSchema schema))
         \/ unwrapped (unwrapZodSchema schema) = ZodBoolean
         \/ (exists inner, unwrapped (unwrapZodSchema schema) = ZodArray inner)
         \/ unwrapped (unwrapZodSchema schema) = ZodObject) ->
        key ∉ positionalKeys entries).
Proof.
  split; [apply positionalKeys_elem|].
  intros schema Hnd Hin Hshape Hpos.
  apply positionalKeys_elem in Hpos as (schema' & Hin' & Hr & Hf).
  rewrite (entries_unique entries key schema' schema Hnd Hin' Hin) in Hr, Hf.
  unfold schemaIsPositionalFriendly in Hf.
  destruct Hshape as [[d Hd] | [Hb | [[inner Ha] | Ho]]].
  - apply default_not_required in Hd. congruence.
  - now rewrite Hb in Hf.
  - now rewrite Ha in Hf.
  - now rewrite Ho in Hf.
Qed.

End SchemaFacts.

(** ** What the token loop keeps *)

Section LoopInvariant.
Context {Num : Type} `{JsRuntime Num}.
Variable entries : list (string * ZodSchema Num).

Lemma assign_is_insert (params : gmap string (Json Num)) (key : string)
    (schema : ZodSchema Num) (value : Json Num) :
  exists value', assignCliValue params key schema value = <[key := value']> params.
Proof.
  unfold assignCliValue.
  destruct (unwrapped (unwrapZodSchema schema)); eauto.
  destruct value; eauto;
    (destruct (params !! key) as [existing|]; eauto;
     destruct (negb (truthy existing)); eauto; destruct existing; eauto).
Qed.

(** A property of the parameters that every write at a declared key keeps
    is kept by the whole loop. *)
Lemma parseLoop_keeps (Inv : gmap string (Json Num) -> Prop) :
  (forall params key schema value,
     schemaByKey entries !! key = Some schema ->
     Inv params -> Inv (<[key := value]> params)) ->
  forall n tokens st out,
  length tokens <= n ->
  Inv (params st) ->
  parseLoop entries tokens st = Ok out ->
  Inv out.
Proof.
  intros Hins.
  assert (Hassign : forall params key schema value,
            schemaByKey entries !! key = Some schema ->
            Inv params -> Inv (assignCliValue params key schema value)).
  { intros params key schema value Hs Hp.
    destruct (assign_is_insert params key schema value) as [v' ->]. eauto. }
  induction n as [|n IH]; intros tokens st out Hlen Hst E.
  - destruct tokens; [|simpl in Hlen; lia]. now injection E as <-.
  - destruct tokens as [|token rest]; [now injection E as <-|].
    simpl in Hlen. cbn [parseLoop] in E.
    destruct (String.eqb token "--").
    { eapply IH; [| |exact E]; auto; lia. }
    destruct (negb (afterDoubleDash st) && startsWith token "--").
    + destruct (isEmpty (slice_from 2 token)).
      { eapply IH; [| |exact E]; auto; lia. }
      destruct (startsWith (slice_from 2 token) "no-").
      { destruct (schemaByKey entries !! _) as [schema|] eqn:Hs; [|discriminate].
        eapply IH; [| |exact E]; [lia|]. simpl. eauto. }
      destruct (splitAtEquals (slice_from 2 token)) as [rawKey rawValue].
      destruct (schemaByKey entries !! _) as [schema|] eqn:Hs; [|discriminate].
      assert (Hnext :
        (exists value, parseLoop entries rest
           (mkParseState
              (assignCliValue (params st) (kebabToCamelCase rawKey) schema value)
              (nextPositionalKeyIndex st) (afterDoubleDash st)) = Ok out)
        \/ (exists next rest' value,
              rest = next :: rest'
              /\ parseLoop entries rest'
                   (mkParseState
                      (assignCliValue (params st) (kebabToCamelCase rawKey)
                         schema value)
                      (nextPositionalKeyIndex st) (afterDoubleDash st))
                 = Ok out)).
      { destruct rawValue as [rawValue|].
        - left. unfold mbind, result_bind in E.
          destruct (unwrapped (unwrapZodSchema schema));
            (destruct (coerceCliValue _ _ rawValue) as [value|];
               [eauto | discriminate]).
        - destruct (unwrapped (unwrapZodSchema schema)); eauto;
            (destruct rest as [|next rest']; [discriminate|]);
            unfold mbind, result_bind in E;
            (destruct (coerceCliValue _ _ next) as [value|]; [|discriminate]);
            right; eauto 8. }
      destruct Hnext as [[value Hv]|(next & rest' & value & -> & Hv)].
      * eapply IH; [| |exact Hv]; [lia|]. simpl. eauto.
      * simpl in Hlen. eapply IH; [| |exact Hv]; [lia|]. simpl. eauto.
    + destruct (positionalKeys entries !! _) as [key|]; [|discriminate].
      destruct (schemaByKey entries !! key) as [schema|] eqn:Hs; [|discriminate].
      unfold mbind, result_bind in E.
      destruct (coerceCliValue schema key token) as [value|]; [|discriminate].
      eapply IH; [| |exact E]; [lia|]. simpl. eauto.
Qed.

(** X8. The decoder only ever sets declared parameters: every key of the
    parameters decoded from a token list is a key of the tool's schema. *)
Theorem decoded_keys_are_declared (tokens : list string)
    (rawParams : gmap string (Json Num)) (key : string) :
  parseToolParamsFromCliTokens entries tokens = Ok rawParams ->
  is_Some (rawParams !! key) ->
  is_Some (schemaByKey entries !! key) /\ key ∈ entries.*1.
Proof.
  intros E Hk.
  assert (Hdecl : is_Some (schemaByKey entries !! key)).
  { revert key Hk.
    apply (parseLoop_keeps
             (fun params => forall key, is_Some (params !! key) ->
                                        is_Some (schemaByKey entries !! key))
             ) with (n := length (drop 1 tokens)) (tokens := drop 1 tokens)
                    (st := mkParseState ∅ 0 false); [| reflexivity | | exact E].
    - intros params k schema value Hs Hp key.
      destruct (decide (k = key)) as [<-|Hne]; [now rewrite Hs|].
      rewrite lookup_insert_ne by exact Hne. apply Hp.
    - intros key. simpl. rewrite lookup_empty. now intros [? ?]. }
  split; [exact Hdecl|].
  destruct (decide (key ∈ entries.*1)) as [Hin|Hnot]; [exact Hin|].
  unfold schemaByKey in Hdecl. rewrite schema_fold_notin in Hdecl by exact Hnot.
  rewrite lookup_empty in Hdecl. now destruct Hdecl.
Qed.

End LoopInvariant.

(** ** Flags *)

Section FlagFacts.
Context {Num : Type} `{JsRuntime Num}.
Variable entries : list (string * ZodSchema Num).

Lemma split_inline (key value : string) :
  forallb (fun c => negb (Ascii.eqb c "-") && negb (Ascii.eqb c "="))
    (list_ascii_of_string key) = true ->
  splitAtEquals (key +:+ String "=" value) = (key, Some value).
Proof.
  induction key as [|c rest IH]; intros Hk; [reflexivity|].
  apply plain_tail in Hk as (_ & Hc & Hrest).
  rewrite append_cons. simpl. rewrite Hc, (IH Hrest). reflexivity.
Qed.

Lemma inline_facts (key value : string) :
  plainKey key = true ->
  splitAtEquals (key +:+ String "=" value) = (key, Some value)
  /\ startsWith (key +:+ String "=" value) "no-" = false
  /\ isEmpty (key +:+ String "=" value) = false.
Proof.
  unfold plainKey. intros Hk. apply andb_prop in Hk as [Hne Hall].
  apply negb_true_iff in Hne. split; [now apply split_inline|]. split.
  - destruct key as [|a [|b [|c key]]]; try discriminate;
      rewrite ?append_cons; cbn [startsWith].
    + change (EmptyString +:+ String "=" value) with (String "="%char value).
      cbn [startsWith]. now rewrite andb_false_r.
    + change (EmptyString +:+ String "=" value) with (String "="%char value).
      cbn [startsWith]. cbn [Ascii.eqb Bool.eqb]. now rewrite !andb_false_r.
    + apply plain_tail in Hall as (_ & _ & Hall).
      apply plain_tail in Hall as (_ & _ & Hall).
      apply plain_tail in Hall as (Hc & _ & _).
      rewrite Hc. cbn [andb]. now rewrite !andb_false_r.
  - destruct key; [discriminate | reflexivity].
Qed.

Lemma flag_token_facts (body : string) :
  isEmpty body = false ->
  String.eqb ("--" +:+ body) "--" = false
  /\ startsWith ("--" +:+ body) "--" = true
  /\ slice_from 2 ("--" +:+ body) = body.
Proof. destruct body; [discriminate|]. intros _. repeat split. Qed.

(** The step for [--key=value]. *)
Lemma parseLoop_inline (key value : string) (rest : list string)
    (st : ParseState) :
  plainKey key = true ->
  afterDoubleDash st = false ->
  parseLoop entries (("--" +:+ key +:+ String "=" value) :: rest) st
  = match schemaByKey entries !! key with
    | None => Err ("Unknown param: --" +:+ key)
    | Some schema =>
        coercedValue ← coerceCliValue schema key value;
        parseLoop entries rest
          (mkParseState (assignCliValue (params st) key schema coercedValue)
             (nextPositionalKeyIndex st) false)
    end.
Proof.
  intros Hk Hdd.
  destruct (inline_facts key value Hk) as (Hsplit & Hno & Hne).
  destruct (flag_token_facts _ Hne) as (E1 & E2 & E3).
  destruct (plainKey_facts key Hk) as (_ & Hkebab & _ & _).
  cbn [parseLoop]. rewrite E1, Hdd, E2, E3. cbn [negb andb].
  rewrite Hne, Hno, Hsplit, Hkebab.
  destruct (schemaByKey entries !! key) as [schema|]; [|reflexivity].
  now destruct (unwrapped (unwrapZodSchema schema)).
Qed.

(** The step for [--key] followed by its value. *)
Lemma parseLoop_separated (key value : string) (schema : ZodSchema Num)
    (rest : list string) (st : ParseState) :
  plainKey key = true ->
  afterDoubleDash st = false ->
  schemaByKey entries !! key = Some schema ->
  unwrapped (unwrapZodSchema schema) <> ZodBoolean ->
  parseLoop entries (("--" +:+ key) :: value :: rest) st
  = (coercedValue ← coerceCliValue schema key value;
     parseLoop entries rest
       (mkParseState (assignCliValue (params st) key schema coercedValue)
          (nextPositionalKeyIndex st) false)).
Proof.
  intros Hk Hdd Hs Hnb.
  destruct (plainKey_facts key Hk) as (Hne & Hkebab & Hsplit & Hno).
  destruct (flag_token_facts _ Hne) as (E1 & E2 & E3).
  cbn [parseLoop]. rewrite E1, Hdd, E2, E3. cbn [negb andb].
  rewrite Hne, Hno, Hsplit, Hkebab, Hs.
  now destruct (unwrapped (unwrapZodSchema schema)).
Qed.

(** The step for a flag that the schema does not declare. *)
Lemma parseLoop_unknown (key : string) (rest : list string) (st : ParseState) :
  plainKey key = true ->
  afterDoubleDash st = false ->
  schemaByKey entries !! key = None ->
  parseLoop entries (("--" +:+ key) :: rest) st
  = Err ("Unknown param: --" +:+ key).
Proof.
  intros Hk Hdd Hs.
  destruct (plainKey_facts key Hk) as (Hne & Hkebab & Hsplit & Hno).
  destruct (flag_token_facts _ Hne) as (E1 & E2 & E3).
  cbn [parseLoop]. rewrite E1, Hdd, E2, E3. cbn [negb andb].
  now rewrite Hne, Hno, Hsplit, Hkebab, Hs.
Qed.

(** X9. For a parameter that is not of boolean shape, [--key=value] and
    [--key value] are read alike, wherever they stand before a [--]: same
    parameters, same errors. *)
Theorem inline_and_separated_values_agree (key value : string)
    (rest : list string) (st : ParseState) :
  plainKey key = true ->
  afterDoubleDash st = false ->
  (forall schema, schemaByKey entries !! key = Some schema ->
                  unwrapped (unwrapZodSchema schema) <> ZodBoolean) ->
  parseLoop entries (("--" +:+ key +:+ String "=" value) :: rest) st
  = parseLoop entries (("--" +:+ key) :: value :: rest) st.
Proof.
  intros Hk Hdd Hnb. rewrite parseLoop_inline by assumption.
  destruct (schemaByKey entries !! key) as [schema|] eqn:Hs.
  - now rewrite (parseLoop_separated key value schema) by auto.
  - now rewrite parseLoop_unknown.
Qed.

(** X10. For a parameter of boolean shape, [--key=word] with a word that
    [parseBooleanLike] accepts is read as [--key] when the word means true
    and as [--no-key] when it means false. *)
Theorem explicit_boolean_values (key word : string) (b : bool)
    (schema : ZodSchema Num) (rest : list string) (st : ParseState) :
  plainKey key = true ->
  afterDoubleDash st = false ->
  schemaByKey entries !! key = Some schema ->
  unwrapped (unwrapZodSchema schema) = ZodBoolean ->
  parseBooleanLike word ("--" +:+ key) = Ok b ->
  parseLoop entries (("--" +:+ key +:+ String "=" word) :: rest) st
  = parseLoop entries
      ((if b then "--" +:+ key else "--no-" +:+ key) :: rest) st.
Proof.
  intros Hk Hdd Hs Hb Hword. rewrite parseLoop_inline by assumption.
  rewrite Hs. unfold coerceCliValue. rewrite Hb, Hword.
  unfold mbind, result_bind. rewrite assign_boolean by exact Hb.
  destruct b.
  - now rewrite (parseLoop_flag entries key schema).
  - now rewrite (parseLoop_no_flag entries key schema).
Qed.

(** X11. Flags that cannot be read are errors, not silent no-ops: a flag
    that the schema does not declare, written [--key], [--no-key] or
    [--key=value], stops the decoding with [Unknown param], and a flag of
    non-boolean shape at the end of the line stops it with
    [Missing value]. *)
Theorem unreadable_flags_are_errors (key : string) (st : ParseState) :
  plainKey key = true ->
  afterDoubleDash st = false ->
  (schemaByKey entries !! key = None ->
   forall rest value,
     parseLoop entries (("--" +:+ key) :: rest) st
     = Err ("Unknown param: --" +:+ key)
     /\ parseLoop entries (("--no-" +:+ key) :: rest) st
        = Err ("Unknown param: --" +:+ key)
     /\ parseLoop entries (("--" +:+ key +:+ String "=" value) :: rest) st
        = Err ("Unknown param: --" +:+ key))
  /\ (forall schema,
        schemaByKey entries !! key = Some schema ->
        unwrapped (unwrapZodSchema schema) <> ZodBoolean ->
        parseLoop entries ["--" +:+ key] st
        = Err ("Missing value for --" +:+ key)).
Proof.
  intros Hk Hdd.
  destruct (plainKey_facts key Hk) as (Hne & Hkebab & Hsplit & Hno).
  split.
  - intros Hs rest value. split; [now apply parseLoop_unknown|]. split.
    + cbn [parseLoop].
      change (String.eqb ("--no-" +:+ key) "--") with false.
      rewrite Hdd.
      change (startsWith ("--no-" +:+ key) "--") with true.
      change (slice_from 2 ("--no-" +:+ key)) with ("no-" +:+ key).
      change (isEmpty ("no-" +:+ key)) with false.
      change (startsWith ("no-" +:+ key) "no-") with true.
      cbn [negb andb].
      change (slice_from 3 ("no-" +:+ key)) with key.
      now rewrite Hkebab, Hs.
    + rewrite parseLoop_inline by assumption. now rewrite Hs.
  - intros schema Hs Hnb.
    destruct (flag_token_facts _ Hne) as (E1 & E2 & E3).
    cbn [parseLoop]. rewrite E1, Hdd, E2, E3. cbn [negb andb].
    rewrite Hne, Hno, Hsplit, Hkebab, Hs.
    now destruct (unwrapped (unwrapZodSchema schema)).
Qed.

End FlagFacts.

(** ** Positional values and repeated flags *)

Section PositionalFacts.
Context {Num : Type} `{JsRuntime Num}.
Variable entries : list (string * ZodSchema Num).

Lemma coerce_text (schema : ZodSchema Num) (key raw : string) :
  textShaped schema = true -> coerceCliValue schema key raw = Ok (JStr raw).
Proof.
  unfold textShaped, coerceCliValue.
  destruct (unwrapped (unwrapZodSchema schema)); try discriminate; reflexivity.
Qed.

Lemma parseLoop_positional (token key : string) (schema : ZodSchema Num)
    (rest : list string) (st : ParseState) :
  readPositionally (afterDoubleDash st) token ->
  positionalKeys entries !! nextPositionalKeyIndex st = Some key ->
  schemaByKey entries !! key = Some schema ->
  textShaped schema = true ->
  parseLoop entries (token :: rest) st
  = parseLoop entries rest
      (mkParseState (<[key := JStr token]> (params st))
         (S (nextPositionalKeyIndex st)) (afterDoubleDash st)).
Proof.
  intros [Hdd Hpos] Hkey Hs Htext. cbn [parseLoop].
  apply String.eqb_neq in Hdd. rewrite Hdd.
  assert (E : negb (afterDoubleDash st) && startsWith token "--" = false)
    by (destruct Hpos as [-> | ->]; [reflexivity | apply andb_false_r]).
  rewrite E, Hkey, Hs, (coerce_text schema key token Htext). reflexivity.
Qed.

Lemma parseLoop_extra (token : string) (rest : list string) (st : ParseState) :
  readPositionally (afterDoubleDash st) token ->
  positionalKeys entries !! nextPositionalKeyIndex st = None ->
  parseLoop entries (token :: rest) st = Err ("Unexpected extra arg: " +:+ token).
Proof.
  intros [Hdd Hpos] Hkey. cbn [parseLoop].
  apply String.eqb_neq in Hdd. rewrite Hdd.
  assert (E : negb (afterDoubleDash st) && startsWith token "--" = false)
    by (destruct Hpos as [-> | ->]; [reflexivity | apply andb_false_r]).
  now rewrite E, Hkey.
Qed.

Lemma parseLoop_positionals (values : list string) :
  forall (rest : list string) (st : ParseState),
  Forall (readPositionally (afterDoubleDash st)) values ->
  (forall i key,
     positionalKeys entries !! (nextPositionalKeyIndex st + i) = Some key ->
     i < length values ->
     exists schema,
       schemaByKey entries !! key = Some schema /\ textShaped schema = true) ->
  nextPositionalKeyIndex st + length values <= length (positionalKeys entries) ->
  parseLoop entries (values ++ rest) st
  = parseLoop entries rest
      (mkParseState
         (fillPositionals (params st)
            (drop (nextPositionalKeyIndex st) (positionalKeys entries)) values)
         (nextPositionalKeyIndex st + length values) (afterDoubleDash st)).
Proof.
  induction values as [|v vs IH]; intros rest st Hread Hkeys Hlen.
  - simpl. unfold fillPositionals. rewrite zip_with_nil_r. simpl.
    rewrite Nat.add_0_r. now destruct st.
  - apply Forall_cons in Hread as [Hv Hvs].
    change (length (v :: vs)) with (S (length vs)) in Hlen.
    destruct (lookup_lt_is_Some_2 (positionalKeys entries)
                (nextPositionalKeyIndex st)) as [key Hkey]; [lia|].
    destruct (Hkeys 0 key) as (schema & Hs & Htext);
      [now rewrite Nat.add_0_r | simpl; lia |].
    rewrite <- app_comm_cons.
    rewrite (parseLoop_positional v key schema) by assumption.
    rewrite IH; simpl.
    + rewrite (drop_S _ _ _ Hkey). unfold fillPositionals. simpl.
      f_equal. f_equal. lia.
    + exact Hvs.
    + intros i k Hk Hi. apply (Hkeys (S i) k); [|simpl; lia].
      now rewrite <- Nat.add_succ_comm.
    + lia.
Qed.

Lemma map_fmap {A B} (f : A -> B) (l : list A) : map f l = f <$> l.
Proof. induction l as [|x l IH]; [reflexivity|]. simpl. now rewrite IH. Qed.

Lemma positionalKeys_NoDup : NoDup entries.*1 -> NoDup (positionalKeys entries).
Proof.
  intros Hnd. unfold positionalKeys. rewrite map_fmap.
  apply (sublist_NoDup _ entries.*1); [exact Hnd|].
  apply fmap_sublist. etransitivity; apply sublist_filter.
Qed.

Lemma fill_notin (keys values : list string) (key : string) :
  forall params : gmap string (Json Num),
  key ∉ keys ->
  fillPositionals params keys values !! key = params !! key.
Proof.
  revert values. induction keys as [|k ks IH]; intros values params Hnot;
    [reflexivity|].
  destruct values as [|v vs]; [reflexivity|].
  apply not_elem_of_cons in Hnot as [Hne Hnot].
  unfold fillPositionals. simpl.
  change (fold_left _ (zip ks vs) ?p) with (fillPositionals p ks vs).
  rewrite IH by exact Hnot. now rewrite lookup_insert_ne.
Qed.

Lemma fill_lookup (keys : list string) :
  forall (values : list string) (params : gmap string (Json Num)) i key v,
  NoDup keys -> keys !! i = Some key -> values !! i = Some v ->
  fillPositionals params keys values !! key = Some (JStr v).
Proof.
  induction keys as [|k ks IH]; intros values params i key v Hnd Hk Hv;
    [discriminate|].
  destruct values as [|v0 vs]; [discriminate|].
  apply NoDup_cons in Hnd as [Hnot Hnd].
  unfold fillPositionals. simpl.
  change (fold_left _ (zip ks vs) ?p) with (fillPositionals p ks vs).
  destruct i as [|i]; simpl in Hk, Hv.
  - injection Hk as ->. injection Hv as ->.
    rewrite fill_notin by exact Hnot. apply lookup_insert_eq.
  - now apply IH with i.
Qed.

Hypothesis entries_nodup : NoDup entries.*1.
Hypothesis positionals_text :
  forall key schema,
    (key, schema) ∈ entries -> schemaIsPositionalFriendly schema = true ->
    textShaped schema = true.

Lemma positional_schema (key : string) :
  key ∈ positionalKeys entries ->
  exists schema,
    schemaByKey entries !! key = Some schema /\ textShaped schema = true.
Proof.
  intros (schema & Hin & _ & Hf)%positionalKeys_elem.
  exists schema. split; [now apply schemaByKey_lookup | eauto].
Qed.

Lemma positionals_from_start (values rest : list string) (dd : bool) :
  Forall (readPositionally dd) values ->
  length values <= length (positionalKeys entries) ->
  parseLoop entries (values ++ rest) (mkParseState ∅ 0 dd)
  = parseLoop entries rest
      (mkParseState (fillPositionals ∅ (positionalKeys entries) values)
         (length values) dd).
Proof.
  intros Hread Hlen.
  rewrite parseLoop_positionals; [reflexivity | exact Hread | | simpl; lia].
  intros i key Hkey _. apply positional_schema.
  apply list_elem_of_lookup. eauto.
Qed.

End PositionalFacts.

(** X12. Positional values fill the required scalar parameters in the order
    of the schema: on the line [tool v1 ... vn], and on [tool -- v1 ... vn]
    where the values may begin with [--], the i-th value is the text of the
    i-th positional parameter and nothing else is set.  (For positional
    parameters of string or enum shape.) *)
Theorem positional_values_fill_in_order {Num : Type} `{JsRuntime Num}
    (entries : list (string * ZodSchema Num)) (tool : string)
    (values : list string) :
  NoDup entries.*1 ->
  (forall key schema,
     (key, schema) ∈ entries -> schemaIsPositionalFriendly schema = true ->
     textShaped schema = true) ->
  length values <= length (positionalKeys entries) ->
  (Forall (fun v => startsWith v "--" = false) values ->
   parseToolParamsFromCliTokens entries (tool :: values)
   = Ok (fillPositionals ∅ (positionalKeys entries) values))
  /\ (Forall (fun v => v <> "--") values ->
      parseToolParamsFromCliTokens entries (tool :: "--" :: values)
      = Ok (fillPositionals ∅ (positionalKeys entries) values))
  /\ (forall i key v,
        positionalKeys entries !! i = Some key -> values !! i = Some v ->
        fillPositionals (∅ : gmap string (Json Num)) (positionalKeys entries)
          values !! key = Some (JStr v))
  /\ (forall key,
        key ∉ take (length values) (positionalKeys entries) ->
        fillPositionals (∅ : gmap string (Json Num)) (positionalKeys entries)
          values !! key = None).
Proof.
  intros Hnd Htext Hlen. unfold parseToolParamsFromCliTokens. simpl drop.
  split; [|split; [|split]].
  - intros Hv.
    assert (Hread : Forall (readPositionally false) values).
    { eapply Forall_impl; [exact Hv|]. intros v Hs. split; [|now right].
      intros ->. discriminate. }
    pose proof (positionals_from_start entries Hnd Htext values [] false
                  Hread Hlen) as E.
    rewrite app_nil_r in E. exact E.
  - intros Hv.
    assert (Hread : Forall (readPositionally true) values).
    { eapply Forall_impl; [exact Hv|]. intros v Hs.
      split; [exact Hs | now left]. }
    pose proof (positionals_from_start entries Hnd Htext values [] true
                  Hread Hlen) as E.
    rewrite app_nil_r in E. exact E.
  - intros i key v. apply fill_lookup. now apply positionalKeys_NoDup.
  - intros key Hnot.
    assert (E : fillPositionals (∅ : gmap string (Json Num))
                  (positionalKeys entries) values
                = fillPositionals ∅ (take (length values) (positionalKeys entries))
                    values).
    { unfold fillPositionals. f_equal.
      symmetry. apply (zip_with_take_l _ (positionalKeys entries) values). }
    rewrite E, fill_notin by exact Hnot. apply lookup_empty.
Qed.

(** X13. One positional value too many is an error that names it: after as
    many positional values as the schema has positional parameters, the
    next one stops the decoding with [Unexpected extra arg]. *)
Theorem extra_positional_is_an_error {Num : Type} `{JsRuntime Num}
    (entries : list (string * ZodSchema Num)) (tool extra : string)
    (values more : list string) :
  NoDup entries.*1 ->
  (forall key schema,
     (key, schema) ∈ entries -> schemaIsPositionalFriendly schema = true ->
     textShaped schema = true) ->
  length values = length (positionalKeys entries) ->
  Forall (fun v => startsWith v "--" = false) values ->
  startsWith extra "--" = false ->
  parseToolParamsFromCliTokens entries (tool :: values ++ extra :: more)
  = Err ("Unexpected extra arg: " +:+ extra).
Proof.
  intros Hnd Htext Hlen Hv Hextra.
  unfold parseToolParamsFromCliTokens.
  change (drop 1 (tool :: values ++ extra :: more))
    with (values ++ extra :: more)%list.
  assert (Hread : Forall (readPositionally false) values).
  { eapply Forall_impl; [exact Hv|]. intros v Hs. split; [|now right].
    intros ->. discriminate. }
  rewrite (positionals_from_start entries Hnd Htext values (extra :: more)
             false Hread) by lia.
  apply parseLoop_extra.
  - split; [intros ->; discriminate | now right].
  - simpl. apply lookup_ge_None. lia.
Qed.

(** ** Repeated flags *)

Section RepeatedFlags.
Context {Num : Type} `{JsRuntime Num}.
Variable entries : list (string * ZodSchema Num).
Variables (key : string) (schema : ZodSchema Num).
Hypothesis key_plain : plainKey key = true.
Hypothesis key_declared : schemaByKey entries !! key = Some schema.

Lemma coerce_item (raw : string) :
  arrayOfText schema = true ->
  startsWith (trim raw) "[" = false ->
  coerceCliValue schema key raw = Ok (JStr raw).
Proof.
  unfold arrayOfText, coerceCliValue. intros Ha Hb.
  destruct (unwrapped (unwrapZodSchema schema)); try discriminate.
  rewrite Hb. destruct type as [inner|]; [|discriminate].
  destruct (unwrapped (unwrapZodSchema inner)); try discriminate; reflexivity.
Qed.

Lemma arrayOfText_not_boolean :
  arrayOfText schema = true -> unwrapped (unwrapZodSchema schema) <> ZodBoolean.
Proof. unfold arrayOfText. intros Ha E. now rewrite E in Ha. Qed.

Lemma textShaped_not_boolean :
  textShaped schema = true -> unwrapped (unwrapZodSchema schema) <> ZodBoolean.
Proof. unfold textShaped. intros Ha E. now rewrite E in Ha. Qed.

Lemma assign_first (params : gmap string (Json Num)) (raw : string) :
  arrayOfText schema = true ->
  params !! key = None ->
  assignCliValue params key schema (JStr raw) = <[key := JArr [JStr raw]]> params.
Proof.
  unfold arrayOfText, assignCliValue. intros Ha Hk.
  destruct (unwrapped (unwrapZodSchema schema)); try discriminate.
  now rewrite Hk.
Qed.

Lemma assign_next (params : gmap string (Json Num)) (items : list (Json Num))
    (raw : string) :
  arrayOfText schema = true ->
  params !! key = Some (JArr items) ->
  assignCliValue params key schema (JStr raw)
  = <[key := JArr (items ++ [JStr raw])]> params.
Proof.
  unfold arrayOfText, assignCliValue. intros Ha Hk.
  destruct (unwrapped (unwrapZodSchema schema)); try discriminate.
  now rewrite Hk.
Qed.

Lemma assign_text (params : gmap string (Json Num)) (value : Json Num) :
  textShaped schema = true ->
  assignCliValue params key schema value = <[key := value]> params.
Proof.
  unfold textShaped, assignCliValue.
  destruct (unwrapped (unwrapZodSchema schema)); try discriminate; reflexivity.
Qed.

Lemma repeated_from (rest : list string) (values : list string) :
  arrayOfText schema = true ->
  Forall (fun v => startsWith (trim v) "[" = false) values ->
  forall (st : ParseState) (items : list (Json Num)),
  afterDoubleDash st = false ->
  params st !! key = Some (JArr items) ->
  parseLoop entries (repeatedFlag key values ++ rest) st
  = parseLoop entries rest
      (mkParseState (<[key := JArr (items ++ (JStr <$> values))]> (params st))
         (nextPositionalKeyIndex st) false).
Proof.
  intros Ha. induction 1 as [|v vs Hv Hvs IH]; intros st items Hdd Hk.
  - simpl. rewrite app_nil_r, insert_id by exact Hk.
    destruct st as [p n d]. simpl in Hdd. now subst d.
  - change (repeatedFlag key (v :: vs) ++ rest)%list
      with (("--" +:+ key) :: v :: (repeatedFlag key vs ++ rest))%list.
    rewrite (parseLoop_separated entries key v schema) by
      auto using arrayOfText_not_boolean.
    rewrite (coerce_item v Ha Hv). unfold mbind, result_bind.
    rewrite (assign_next _ items v Ha Hk).
    rewrite (IH _ (items ++ [JStr v])%list); [|reflexivity|apply lookup_insert_eq].
    cbn [params nextPositionalKeyIndex].
    rewrite insert_insert_eq, <- app_assoc. reflexivity.
Qed.

Lemma repeated_last (rest : list string) (values : list string) :
  textShaped schema = true ->
  forall (st : ParseState) (v : string),
  afterDoubleDash st = false ->
  last values = Some v ->
  parseLoop entries (repeatedFlag key values ++ rest) st
  = parseLoop entries rest
      (mkParseState (<[key := JStr v]> (params st))
         (nextPositionalKeyIndex st) false).
Proof.
  intros Ht. induction values as [|v1 vs IH]; intros st v Hdd Hl;
    [discriminate|].
  change (repeatedFlag key (v1 :: vs) ++ rest)%list
    with (("--" +:+ key) :: v1 :: (repeatedFlag key vs ++ rest))%list.
  rewrite (parseLoop_separated entries key v1 schema) by
    auto using textShaped_not_boolean.
  rewrite (coerce_text schema key v1 Ht). unfold mbind, result_bind.
  rewrite assign_text by exact Ht.
  destruct vs as [|v2 vs'].
  - injection Hl as ->. reflexivity.
  - rewrite (IH _ v); [|reflexivity|exact Hl].
    cbn [params nextPositionalKeyIndex]. now rewrite insert_insert_eq.
Qed.

End RepeatedFlags.

(** X14. A flag given several times: for an array parameter with string or
    enum items the values accumulate in order into one array, for a
    parameter of string or enum shape the last value replaces the earlier
    ones. *)
Theorem repeated_flags_accumulate_or_override {Num : Type} `{JsRuntime Num}
    (entries : list (string * ZodSchema Num)) (key : string)
    (schema : ZodSchema Num) (values rest : list string) (last_value : string)
    (st : ParseState) :
  plainKey key = true ->
  schemaByKey entries !! key = Some schema ->
  afterDoubleDash st = false ->
  last values = Some last_value ->
  (arrayOfText schema = true ->
   Forall (fun v => startsWith (trim v) "[" = false) values ->
   params st !! key = None ->
   parseLoop entries (repeatedFlag key values ++ rest) st
   = parseLoop entries rest
       (mkParseState (<[key := JArr (JStr <$> values)]> (params st))
          (nextPositionalKeyIndex st) false))
  /\ (textShaped schema = true ->
      parseLoop entries (repeatedFlag key values ++ rest) st
      = parseLoop entries rest
          (mkParseState (<[key := JStr last_value]> (params st))
             (nextPositionalKeyIndex st) false)).
Proof.
  intros Hk Hs Hdd Hl. split.
  - intros Ha Hv Hnone.
    destruct values as [|v vs]; [discriminate|].
    apply Forall_cons in Hv as [Hv Hvs].
    change (repeatedFlag key (v :: vs) ++ rest)%list
      with (("--" +:+ key) :: v :: (repeatedFlag key vs ++ rest))%list.
    rewrite (parseLoop_separated entries key v schema) by
      first [assumption | now apply arrayOfText_not_boolean].
    rewrite (coerce_item key schema v Ha Hv). unfold mbind, result_bind.
    rewrite (assign_first key schema _ v Ha Hnone).
    rewrite (repeated_from entries key schema Hk Hs rest vs Ha Hvs _ [JStr v]);
      [|reflexivity|apply lookup_insert_eq].
    cbn [params nextPositionalKeyIndex]. now rewrite insert_insert_eq.
  - intros Ht.
    exact (repeated_last entries key schema Hk Hs rest values Ht st last_value
             Hdd Hl).
Qed.

(** ** The kinds of the decoded values *)

Section TypedDecoding.
Context {Num : Type} `{JsRuntime Num}.
Variable entries : list (string * ZodSchema Num).

(** What the loop writes: the value of a flag through [assignCliValue], a
    coerced positional value at a positional key. *)
Lemma parseLoop_keeps_values (Inv : gmap string (Json Num) -> Prop) :
  (forall params key schema value,
     schemaByKey entries !! key = Some schema ->
     (value = JBool false
      \/ (value = JBool true /\ unwrapped (unwrapZodSchema schema) = ZodBoolean)
      \/ exists raw, coerceCliValue schema key raw = Ok value) ->
     Inv params -> Inv (assignCliValue params key schema value)) ->
  (forall params key schema raw value,
     key ∈ positionalKeys entries ->
     schemaByKey entries !! key = Some schema ->
     coerceCliValue schema key raw = Ok value ->
     Inv params -> Inv (<[key := value]> params)) ->
  forall n tokens st out,
  length tokens <= n ->
  Inv (params st) ->
  parseLoop entries tokens st = Ok out ->
  Inv out.
Proof.
  intros Hflag Hpos.
  induction n as [|n IH]; intros tokens st out Hlen Hst E.
  - destruct tokens; [|simpl in Hlen; lia]. now injection E as <-.
  - destruct tokens as [|token rest]; [now injection E as <-|].
    simpl in Hlen. cbn [parseLoop] in E.
    destruct (String.eqb token "--").
    { eapply IH; [| |exact E]; auto; lia. }
    destruct (negb (afterDoubleDash st) && startsWith token "--").
    + destruct (isEmpty (slice_from 2 token)).
      { eapply IH; [| |exact E]; auto; lia. }
      destruct (startsWith (slice_from 2 token) "no-").
      { destruct (schemaByKey entries !! _) as [schema|] eqn:Hs; [|discriminate].
        eapply IH; [| |exact E]; [lia|]. simpl. apply Hflag; auto. }
      destruct (splitAtEquals (slice_from 2 token)) as [rawKey rawValue].
      destruct (schemaByKey entries !! _) as [schema|] eqn:Hs; [|discriminate].
      assert (Hnext :
        exists value,
          (value = JBool false
           \/ (value = JBool true
               /\ unwrapped (unwrapZodSchema schema) = ZodBoolean)
           \/ exists raw,
                coerceCliValue schema (kebabToCamelCase rawKey) raw = Ok value)
          /\ (parseLoop entries rest
                (mkParseState
                   (assignCliValue (params st) (kebabToCamelCase rawKey)
                      schema value)
                   (nextPositionalKeyIndex st) (afterDoubleDash st)) = Ok out
              \/ exists next rest',
                   rest = next :: rest'
                   /\ parseLoop entries rest'
                        (mkParseState
                           (assignCliValue (params st)
                              (kebabToCamelCase rawKey) schema value)
                           (nextPositionalKeyIndex st) (afterDoubleDash st))
                      = Ok out)).
      { destruct rawValue as [rawValue|].
        - unfold mbind, result_bind in E.
          destruct (coerceCliValue schema (kebabToCamelCase rawKey) rawValue)
            as [value|] eqn:Ec;
            [|destruct (unwrapped (unwrapZodSchema schema)); discriminate].
          exists value. split; [eauto|]. left.
          destruct (unwrapped (unwrapZodSchema schema)); exact E.
        - destruct (unwrapped (unwrapZodSchema schema)) eqn:Eu;
            try (exists (JBool true); split; [auto | left; exact E]);
            (destruct rest as [|next rest']; [discriminate|]);
            unfold mbind, result_bind in E;
            (destruct (coerceCliValue schema (kebabToCamelCase rawKey) next)
               as [value|] eqn:Ec; [|discriminate]);
            exists value; (split; [eauto|]); right; eauto. }
      destruct Hnext as (value & Hvalue & [Hv|(next & rest' & -> & Hv)]).
      * eapply IH; [| |exact Hv]; [lia|]. simpl. apply Hflag; auto.
      * simpl in Hlen. eapply IH; [| |exact Hv]; [lia|]. simpl.
        apply Hflag; auto.
    + destruct (positionalKeys entries !! _) as [key|] eqn:Hkey; [|discriminate].
      destruct (schemaByKey entries !! key) as [schema|] eqn:Hs; [|discriminate].
      unfold mbind, result_bind in E.
      destruct (coerceCliValue schema key token) as [value|] eqn:Ec;
        [|discriminate].
      eapply IH; [| |exact E]; [lia|]. simpl.
      apply (Hpos _ key schema token value); auto.
      apply list_elem_of_lookup. eauto.
Qed.

Lemma coerce_kind (schema : ZodSchema Num) (key raw : string)
    (value : Json Num) :
  (forall inner, unwrapped (unwrapZodSchema schema) <> ZodArray inner) ->
  coerceCliValue schema key raw = Ok value ->
  decodedKind schema value = true.
Proof.
  unfold coerceCliValue, decodedKind. intros Hna E.
  destruct (unwrapped (unwrapZodSchema schema)) eqn:Eu;
    try (injection E as <-; reflexivity).
  - unfold coerceNumber in E.
    destruct (Number_isFinite (Number raw)) eqn:Ef; [|discriminate].
    injection E as <-. exact Ef.
  - unfold mbind, result_bind in E.
    destruct (parseBooleanLike raw _); [|discriminate].
    now injection E as <-.
  - now destruct (Hna type).
  - apply parseJsonObject_shape in E as [fields ->]. reflexivity.
Qed.

Lemma assign_kind (params : gmap string (Json Num)) (key : string)
    (schema : ZodSchema Num) (value stored : Json Num) :
  (value = JBool false
   \/ (value = JBool true /\ unwrapped (unwrapZodSchema schema) = ZodBoolean)
   \/ exists raw, coerceCliValue schema key raw = Ok value) ->
  assignCliValue params key schema value !! key = Some stored ->
  decodedKind schema stored = true.
Proof.
  intros Hvalue.
  destruct (unwrapped (unwrapZodSchema schema)) eqn:Eu.
  5: { unfold assignCliValue, decodedKind. rewrite Eu. intros E.
       destruct value;
         try (rewrite lookup_insert_eq in E; injection E as <-; reflexivity);
         (destruct (params !! key) as [existing|];
          [destruct (negb (truthy existing)); [|destruct existing]|]);
         rewrite lookup_insert_eq in E; injection E as <-; reflexivity. }
  all: unfold assignCliValue; rewrite Eu, lookup_insert_eq; intros [= <-].
  all: destruct Hvalue as [-> | [[-> Hb] | [raw Hc]]];
    [unfold decodedKind; now rewrite Eu
    | try congruence; unfold decodedKind; now rewrite Eu
    | apply (coerce_kind schema key raw); [intros inner; congruence | exact Hc]].
Qed.

End TypedDecoding.

(** X15. Every decoded value has a kind that fits the shape of its
    parameter: a boolean parameter holds a boolean, an array parameter an
    array, a number parameter a finite number, an object parameter an
    object, a string or enum parameter a string; the one exception is the
    [false] that [--no-key] writes at a parameter of any shape. *)
Theorem decoded_values_fit_their_shape {Num : Type} `{JsRuntime Num}
    (entries : list (string * ZodSchema Num)) (tokens : list string)
    (rawParams : gmap string (Json Num)) (key : string)
    (schema : ZodSchema Num) (value : Json Num) :
  NoDup entries.*1 ->
  parseToolParamsFromCliTokens entries tokens = Ok rawParams ->
  schemaByKey entries !! key = Some schema ->
  rawParams !! key = Some value ->
  decodedKind schema value = true.
Proof.
  intros Hnd E. revert key schema value.
  apply (parseLoop_keeps_values entries
           (fun params => forall key schema value,
              schemaByKey entries !! key = Some schema ->
              params !! key = Some value -> decodedKind schema value = true))
    with (n := length (drop 1 tokens)) (tokens := drop 1 tokens)
         (st := mkParseState ∅ 0 false); [| |reflexivity| |exact E].
  - intros params key schema value Hs Hvalue Hinv key' schema' stored Hs' Hl.
    destruct (decide (key' = key)) as [->|Hne].
    + assert (schema' = schema) as -> by congruence.
      now apply (assign_kind params key schema value).
    + destruct (assign_is_insert params key schema value) as [v' Ev].
      rewrite Ev, lookup_insert_ne in Hl by congruence. eauto.
  - intros params key schema raw value Hk Hs Hc Hinv key' schema' stored Hs' Hl.
    destruct (decide (key' = key)) as [->|Hne].
    + rewrite lookup_insert_eq in Hl. injection Hl as <-.
      assert (schema' = schema) as -> by congruence.
      apply positionalKeys_elem in Hk as (s & Hin & _ & Hf).
      rewrite (schemaByKey_lookup entries key s Hnd Hin) in Hs.
      injection Hs as ->.
      apply (coerce_kind schema key raw); [|exact Hc].
      intros inner Ea. unfold schemaIsPositionalFriendly in Hf.
      now rewrite Ea in Hf.
    + rewrite lookup_insert_ne in Hl by congruence. eauto.
  - intros key schema value _ Hl. cbn [params] in Hl.
    now rewrite lookup_empty in Hl.
Qed.

(** ** What a session run can do *)

Section SessionEffects.
Context {Num : Type} `{JsRuntime Num}.
Context {Ctx Resp Content : Type}.
Variable zodObjectParse :
  list (string * ZodSchema Num) -> gmap string (Json Num) ->
  result (gmap string (Json Num)).
Variable newResponse : Resp.
Variable responseHandle : Resp -> string -> Ctx -> Ctx * result Content.
Variable contentJson : Content -> Json Num.
Variable contentItems : Content -> list ContentItem.
Variable tools : list (Tool Num Ctx Resp).
Variable args : Args.

Lemma jsonFormat_json : jsonFormat args = true -> sessionFormat args = json.
Proof. unfold jsonFormat. now destruct (sessionFormat args). Qed.

Lemma effect_refl (bounded : bool) (n : nat) (st : SessionState Ctx) :
  effect tools args bounded n st st.
Proof.
  exists [], []. rewrite !app_nil_r.
  split; [reflexivity|]. split; [reflexivity|]. split; [|split].
  - intros t Ht. inversion Ht.
  - reflexivity.
  - intros _. split; [reflexivity | simpl; lia].
Qed.

Lemma effect_trans (bounded : bool) (n m : nat) (st1 st2 st3 : SessionState Ctx) :
  effect tools args bounded n st1 st2 -> effect tools args bounded m st2 st3 ->
  effect tools args bounded (n + m) st1 st3.
Proof.
  intros (ev1 & ws1 & L1 & W1 & I1 & C1 & B1) (ev2 & ws2 & L2 & W2 & I2 & C2 & B2).
  exists (ev1 ++ ev2)%list, (ws1 ++ ws2)%list.
  rewrite L2, L1, W2, W1, !app_assoc.
  split; [reflexivity|]. split; [reflexivity|]. split; [|split].
  - intros t [Ht|Ht]%elem_of_app; eauto.
  - rewrite existsb_app. intros [E1 E2]%orb_false_iff.
    now rewrite C2, C1.
  - intros Hb. destruct (B1 Hb) as [F1 N1], (B2 Hb) as [F2 N2]. split.
    + now rewrite forallb_app, F1, F2.
    + rewrite length_app. lia.
Qed.

Lemma effect_report (bounded : bool) (st : SessionState Ctx)
    (ws : list Written) :
  (bounded = true -> forallb isStdout ws = true /\ length ws <= 1) ->
  effect tools args bounded 1 st (report st ws).
Proof.
  intros Hb. exists [], ws. simpl. rewrite app_nil_r.
  split; [reflexivity|]. split; [reflexivity|]. split; [|split].
  - intros t Ht. inversion Ht.
  - reflexivity.
  - exact Hb.
Qed.

Lemma findTool_name (toolName : string) (tool : Tool Num Ctx Resp) :
  findTool tools toolName = Some tool -> name tool = toolName.
Proof.
  unfold findTool. intros [_ E]%find_some. now apply String.eqb_eq.
Qed.

Lemma tryBlock_frame (tool : Tool Num Ctx Resp)
    (rawParams : gmap string (Json Num)) (ctx : Ctx) :
  let out := tryBlock zodObjectParse newResponse responseHandle tool rawParams
               ctx in
  (out.2 = [] /\ out.1.1 = ctx) \/ out.2 = [Invoked (name tool)].
Proof.
  unfold tryBlock. destruct (zodObjectParse _ _) as [parsed|]; [|now left].
  destruct (handler tool parsed newResponse ctx) as [ctx1 [response|]];
    [|now right].
  destruct (responseHandle response (name tool) ctx1). now right.
Qed.

(** The guarded part, whatever is written at its end. *)
Lemma effect_guarded (bounded : bool) (st : SessionState Ctx)
    (tool : Tool Num Ctx Resp) (toolName : string)
    (rawParams : gmap string (Json Num)) (ws : list Written) (held : Mutex) :
  findTool tools toolName = Some tool ->
  toolIsEnabled args tool = true ->
  (bounded = true -> forallb isStdout ws = true /\ length ws <= 1) ->
  let out := tryBlock zodObjectParse newResponse responseHandle tool rawParams
               (context st) in
  effect tools args bounded 1 st
    (mkSession out.1.1 held (written st ++ ws)
       (guardLog st ++ Acquired :: out.2 ++ [Disposed])).
Proof.
  intros Hfind Hen Hb out.
  exists (Acquired :: out.2 ++ [Disposed])%list, ws. simpl.
  split; [reflexivity|]. split; [reflexivity|]. split; [|split; [|exact Hb]].
  - intros t Ht. exists tool. split; [|exact Hen].
    destruct (tryBlock_frame tool rawParams (context st)) as [[E _]|E];
      fold out in E; rewrite E in Ht.
    + apply elem_of_cons in Ht as [Ht|Ht]; [discriminate|].
      apply elem_of_cons in Ht as [Ht|Ht]; [discriminate | inversion Ht].
    + apply elem_of_cons in Ht as [Ht|Ht]; [discriminate|].
      apply elem_of_cons in Ht as [Ht|Ht].
      * injection Ht as ->. rewrite <- Hfind. f_equal.
        now apply findTool_name.
      * apply elem_of_cons in Ht as [Ht|Ht]; [discriminate | inversion Ht].
  - destruct (tryBlock_frame tool rawParams (context st)) as [[_ E]|E];
      fold out in E; [now intros _|].
    rewrite E. discriminate.
Qed.

Lemma json_error_line (toolName errorText : string) :
  sessionFormat args = json ->
  forallb isStdout (writeToolError args toolName errorText) = true
  /\ length (writeToolError args toolName errorText) <= 1.
Proof. unfold writeToolError. intros ->. simpl. split; [reflexivity | lia]. Qed.

Lemma json_success_line (toolName : string) (content : Content) :
  sessionFormat args = json ->
  forallb isStdout (writeToolSuccess contentJson contentItems args toolName content)
  = true
  /\ length (writeToolSuccess contentJson contentItems args toolName content)
     <= 1.
Proof. unfold writeToolSuccess. intros ->. simpl. split; [reflexivity | lia]. Qed.

Lemma effect_processLine (st st' : SessionState Ctx) (line : string)
    (control : Control) :
  processLine zodObjectParse newResponse responseHandle contentJson
    contentItems tools args st line = Some (st', control) ->
  effect tools args (jsonFormat args) 1 st st'.
Proof.
  unfold processLine.
  destruct (decodeLine tools line) as [|toolName errorText| |toolName rawParams].
  - intros [= <- _]. apply effect_refl.
  - intros [= <- _]. apply effect_report.
    intros Hj%jsonFormat_json. now apply json_error_line.
  - intros [= <- _]. apply effect_refl.
  - unfold mbind, option_bind, execute.
    destruct (findTool tools toolName) as [tool|] eqn:Hfind.
    2: { intros [= <- _]. apply effect_report.
         intros Hj%jsonFormat_json. now apply json_error_line. }
    destruct (toolIsEnabled args tool) eqn:Hen; cbn [negb].
    2: { intros [= <- _]. apply effect_report.
         intros Hj%jsonFormat_json. now apply json_error_line. }
    unfold guarded. destruct (acquire (toolMutex st)) as [held|]; [|discriminate].
    pose proof (fun ws => effect_guarded (jsonFormat args)
                  st tool toolName rawParams ws (dispose held) Hfind Hen) as Hg.
    cbv zeta in Hg.
    destruct (tryBlock _ _ _ tool rawParams (context st))
      as [[ctx' outcome] events].
    intros [= <- _]. apply Hg.
    intros Hj%jsonFormat_json.
    destruct outcome; [now apply json_success_line | now apply json_error_line].
Qed.

Lemma effect_runSession (lines : list string) :
  forall st st' : SessionState Ctx,
  runSession zodObjectParse newResponse responseHandle contentJson
    contentItems tools args lines st = Some st' ->
  effect tools args (jsonFormat args) (length lines) st st'.
Proof.
  induction lines as [|line rest IH]; intros st st' E.
  - injection E as <-. apply effect_refl.
  - cbn [runSession] in E.
    destruct (processLine _ _ _ _ _ _ _ st line) as [[st1 control]|] eqn:Ep;
      [|discriminate].
    apply effect_processLine in Ep.
    destruct control.
    + apply (effect_trans _ 1 (length rest) st st1 st'); auto.
    + injection E as <-.
      destruct Ep as (events & ws & L & W & I & C & B).
      exists events, ws. split; [exact L|]. split; [exact W|].
      split; [exact I|]. split; [exact C|].
      intros Hb. destruct (B Hb). split; [assumption | simpl; lia].
Qed.

Lemma cliApp_effect_processLine (st st' : SessionState Ctx) (line : string)
    (control : Control) :
  CliApp.processLine zodObjectParse newResponse responseHandle contentJson
    tools args st line = Some (st', control) ->
  effect tools args true 1 st st'.
Proof.
  unfold CliApp.processLine.
  destruct (CliApp.decodeLine line) as [|errorText| |toolName msg].
  - intros [= <- _]. apply effect_refl.
  - intros [= <- _]. apply effect_report. intros _. simpl. split; [reflexivity|lia].
  - intros [= <- _]. apply effect_refl.
  - unfold mbind, option_bind, CliApp.execute.
    destruct (findTool tools toolName) as [tool|] eqn:Hfind.
    2: { intros [= <- _]. apply effect_report. intros _. simpl.
         split; [reflexivity|lia]. }
    destruct (toolIsEnabled args tool) eqn:Hen; cbn [negb].
    2: { intros [= <- _]. apply effect_report. intros _. simpl.
         split; [reflexivity|lia]. }
    unfold CliApp.guarded.
    destruct (acquire (toolMutex st)) as [held|]; [|discriminate].
    pose proof (fun ws => effect_guarded true st tool toolName (paramsOf msg) ws
                  (dispose held) Hfind Hen) as Hg.
    cbv zeta in Hg.
    destruct (tryBlock _ _ _ tool (paramsOf msg) (context st))
      as [[ctx' outcome] events].
    intros [= <- _]. apply Hg. intros _.
    destruct outcome; simpl; (split; [reflexivity|lia]).
Qed.

Lemma cliApp_effect_runSession (lines : list string) :
  forall st st' : SessionState Ctx,
  CliApp.runSession zodObjectParse newResponse responseHandle contentJson
    tools args lines st = Some st' ->
  effect tools args true (length lines) st st'.
Proof.
  induction lines as [|line rest IH]; intros st st' E.
  - injection E as <-. apply effect_refl.
  - cbn [CliApp.runSession] in E.
    destruct (CliApp.processLine _ _ _ _ _ _ st line) as [[st1 control]|] eqn:Ep;
      [|discriminate].
    apply cliApp_effect_processLine in Ep.
    destruct control.
    + apply (effect_trans _ 1 (length rest) st st1 st'); auto.
    + injection E as <-.
      destruct Ep as (events & ws & L & W & I & C & B).
      exists events, ws. split; [exact L|]. split; [exact W|].
      split; [exact I|]. split; [exact C|].
      intros Hb. destruct (B Hb). split; [assumption | simpl; lia].
Qed.

(** X16. A session run only ever calls handlers of enabled tools: in both
    session loops, every handler call that a run adds to the guard record is
    a call of the tool that the registry finds under that name, and that
    tool is enabled by the category and experimental flags. *)
Theorem only_enabled_tools_are_invoked (lines : list string)
    (st st' : SessionState Ctx) :
  runSession zodObjectParse newResponse responseHandle contentJson
    contentItems tools args lines st = Some st'
  \/ CliApp.runSession zodObjectParse newResponse responseHandle contentJson
       tools args lines st = Some st' ->
  exists events,
    guardLog st' = (guardLog st ++ events)%list
    /\ forall t, Invoked t ∈ events ->
         exists tool,
           findTool tools t = Some tool /\ toolIsEnabled args tool = true.
Proof.
  intros [E|E];
    [apply effect_runSession in E | apply cliApp_effect_runSession in E];
    destruct E as (events & ws & L & _ & I & _); eauto.
Qed.

(** X17. Between two states of a session run the output only grows, and the
    shared context changes only through a handler call: a run whose lines
    are ignored, rejected, name an unknown or disabled tool or fail
    validation leaves the context as it was. *)
Theorem context_changes_only_in_handlers (lines : list string)
    (st st' : SessionState Ctx) :
  runSession zodObjectParse newResponse responseHandle contentJson
    contentItems tools args lines st = Some st'
  \/ CliApp.runSession zodObjectParse newResponse responseHandle contentJson
       tools args lines st = Some st' ->
  exists events ws,
    guardLog st' = (guardLog st ++ events)%list
    /\ written st' = (written st ++ ws)%list
    /\ (existsb isInvoked events = false -> context st' = context st).
Proof.
  intros [E|E];
    [apply effect_runSession in E | apply cliApp_effect_runSession in E];
    destruct E as (events & ws & L & W & _ & C & _); eauto.
Qed.

(** X18. A session that writes JSON answers each input line with at most
    one chunk, on standard output and never on standard error: the session
    of the CLI when its format is [json], the session of [cliApp.ts]
    always. *)
Theorem json_session_one_line_per_command (lines : list string)
    (st st' : SessionState Ctx) :
  (jsonFormat args = true
   /\ runSession zodObjectParse newResponse responseHandle contentJson
        contentItems tools args lines st = Some st')
  \/ CliApp.runSession zodObjectParse newResponse responseHandle contentJson
       tools args lines st = Some st' ->
  exists ws,
    written st' = (written st ++ ws)%list
    /\ forallb isStdout ws = true
    /\ length ws <= length lines.
Proof.
  intros [[Hj E]|E];
    [apply effect_runSession in E | apply cliApp_effect_runSession in E];
    destruct E as (events & ws & _ & W & _ & _ & B);
    [destruct (B Hj) | destruct (B eq_refl)]; eauto.
Qed.

End SessionEffects.

(** ** Lines made of parts *)

Module CompositionFacts.
Import Tokenizer.

Lemma push_earlier (T : list string) (st : State) :
  push (withEarlier T st) = withEarlier T (push st).
Proof.
  unfold push, withEarlier. simpl.
  destruct (isEmpty (current st)); [reflexivity|]. simpl.
  now rewrite app_assoc.
Qed.

Lemma step_earlier (T : list string) (st : State) (c : ascii) :
  step (withEarlier T st) c = withEarlier T (step st c).
Proof.
  unfold step. change (escaping (withEarlier T st)) with (escaping st).
  change (quote (withEarlier T st)) with (quote st).
  destruct (escaping st); [reflexivity|].
  destruct (Ascii.eqb c backslash); [reflexivity|].
  destruct (quote st) as [q|].
  - destruct (Ascii.eqb c q); reflexivity.
  - destruct (Ascii.eqb c dquote || Ascii.eqb c squote); [reflexivity|].
    destruct (isSpace c); [apply push_earlier | reflexivity].
Qed.

Lemma scan_earlier (T : list string) (line : string) :
  forall st, scan (withEarlier T st) line = withEarlier T (scan st line).
Proof.
  induction line as [|c rest IH]; intros st; [reflexivity|].
  simpl. now rewrite step_earlier, IH.
Qed.

Lemma finish_earlier (T : list string) (st : State) :
  finish (withEarlier T st) = (ts ← finish st; Ok (T ++ ts)%list).
Proof.
  unfold finish. change (quote (withEarlier T st)) with (quote st).
  change (escaping (withEarlier T st)) with (escaping st).
  destruct (quote st); [reflexivity|]. unfold mbind, result_bind.
  destruct (escaping st).
  - change (append (withEarlier T st) backslash)
      with (withEarlier T (append st backslash)).
    now rewrite push_earlier.
  - now rewrite push_earlier.
Qed.

(** After a part that tokenizes and does not end in an escape, a space
    leaves the scanner between two tokens. *)
Lemma scan_part (a : string) (ta : list string) :
  tokenizeCliLine a = Ok ta -> endsEscaped a = false ->
  step (scan init a) " " = withEarlier ta init.
Proof.
  unfold tokenizeCliLine, finish, endsEscaped. intros Ha He.
  set (sa := scan init a) in *.
  destruct (quote sa) eqn:Hq; [discriminate|]. rewrite He in Ha.
  injection Ha as <-.
  unfold step. rewrite He, Hq. cbn [Ascii.eqb Bool.eqb andb orb].
  change (isSpace " ") with true. cbv iota.
  unfold push, withEarlier. destruct sa as [T cur q e]. simpl in *. subst q e.
  destruct cur; simpl; now rewrite app_nil_r.
Qed.

Lemma tokenize_app (a b : string) (ta : list string) :
  tokenizeCliLine a = Ok ta -> endsEscaped a = false ->
  tokenizeCliLine (a +:+ " " +:+ b)
  = (tb ← tokenizeCliLine b; Ok (ta ++ tb)%list).
Proof.
  intros Ha He. unfold tokenizeCliLine at 1.
  rewrite RenderingFacts.scan_app.
  change (" " +:+ b) with (String " "%char b). cbn [scan].
  rewrite (scan_part a ta Ha He), scan_earlier. apply finish_earlier.
Qed.

Lemma tokenize_plain (name : string) :
  name <> EmptyString -> allChars plainChar name = true ->
  tokenizeCliLine name = Ok [name] /\ endsEscaped name = false.
Proof.
  intros Hne Hp. unfold tokenizeCliLine, endsEscaped.
  rewrite (RenderingFacts.scan_literal name init); [|reflexivity|exact Hp].
  split; [|reflexivity]. unfold finish, push. simpl.
  change (EmptyString +:+ name) with name.
  apply isEmpty_false in Hne. now rewrite Hne.
Qed.

End CompositionFacts.

(** X19. The tokenizer reads a line part by part: after a part that
    tokenizes and does not end in a backslash, a space and a second part
    give the tokens of the first part followed by those of the second, and
    fail as the second part does. *)
Theorem tokenizer_is_compositional (a b : string) (ta : list string) :
  tokenizeCliLine a = Ok ta ->
  endsEscaped a = false ->
  tokenizeCliLine (a +:+ " " +:+ b)
  = (tb ← tokenizeCliLine b; Ok (ta ++ tb)%list).
Proof. apply CompositionFacts.tokenize_app. Qed.

Section ToolNames.
Context {Num : Type} `{JsRuntime Num}.
Context {Ctx Resp : Type}.
Variable tools : list (Tool Num Ctx Resp).

Lemma programName_cases (prog : string) :
  isProgramName prog = true ->
  prog = "chrome_devtools" \/ prog = "chrome-devtools-cli"
  \/ prog = "chrome-devtools-mcp".
Proof.
  unfold isProgramName.
  intros [[E|E]%orb_prop|E]%orb_prop; apply String.eqb_eq in E; auto.
Qed.

Lemma programName_tokenizes (prog : string) :
  isProgramName prog = true ->
  tokenizeCliLine prog = Ok [prog] /\ endsEscaped prog = false.
Proof.
  intros [-> | [-> | ->]]%programName_cases;
    apply CompositionFacts.tokenize_plain; (discriminate || reflexivity).
Qed.

Lemma dashes_plain (name : string) :
  allChars plainChar name = true ->
  allChars plainChar (dashesToUnderscores name) = true.
Proof.
  unfold allChars. induction name as [|c rest IH]; [reflexivity|].
  simpl. intros [Hc Hrest]%andb_prop. rewrite (IH Hrest), andb_true_r.
  destruct (Ascii.eqb c "-"); [reflexivity | exact Hc].
Qed.

Lemma dashes_idempotent (name : string) :
  dashesToUnderscores (dashesToUnderscores name) = dashesToUnderscores name.
Proof.
  induction name as [|c rest IH]; [reflexivity|]. simpl. rewrite IH.
  destruct (Ascii.eqb c "-") eqn:E; [reflexivity | now rewrite E].
Qed.

Lemma dashes_nonempty (name : string) :
  name <> EmptyString -> dashesToUnderscores name <> EmptyString.
Proof. now destruct name. Qed.

(** A word without dash and underscore is only reached from itself. *)
Lemma dashes_eqb (name word : string) :
  allChars (fun c => negb (Ascii.eqb c "_") && negb (Ascii.eqb c "-")) word
  = true ->
  String.eqb (dashesToUnderscores name) word = String.eqb name word.
Proof.
  unfold allChars. revert word.
  induction name as [|c rest IH]; intros [|d word]; try reflexivity.
  simpl. intros [[Hd Hd']%andb_prop Hword]%andb_prop. rewrite (IH word Hword).
  destruct (Ascii.eqb c "-") eqn:E; [|reflexivity].
  apply Ascii.eqb_eq in E as ->.
  apply negb_true_iff in Hd, Hd'.
  rewrite Ascii.eqb_sym in Hd. rewrite Ascii.eqb_sym in Hd'.
  now rewrite Hd, Hd'.
Qed.

(** A program name before the tokens of a CLI line is dropped, once. *)
Lemma decodeCliLine_program (prog line : string) :
  isProgramName prog = true ->
  (forall first rest,
     tokenizeCliLine line = Ok (first :: rest) -> isProgramName first = false) ->
  decodeCliLine tools (prog +:+ " " +:+ line) = decodeCliLine tools line.
Proof.
  intros Hp Hfirst. destruct (programName_tokenizes prog Hp) as [Ht He].
  unfold decodeCliLine.
  rewrite (CompositionFacts.tokenize_app prog line [prog] Ht He).
  destruct (tokenizeCliLine line) as [[|first rest]|message] eqn:El;
    unfold mbind, result_bind; simpl app.
  - unfold stripProgramName. now rewrite Hp.
  - unfold stripProgramName. now rewrite Hp, (Hfirst first rest eq_refl).
  - reflexivity.
Qed.

(** X21. In a tool name on a CLI line dashes stand for underscores: a line
    that begins with the name written with dashes is decoded as the line
    that begins with the name written with underscores.  (For a name
    without white space, quote or backslash that is not a program name under
    either spelling.) *)
Theorem tool_name_dashes_are_underscores (name rest : string) :
  name <> EmptyString ->
  allChars plainChar name = true ->
  isProgramName name = false ->
  isProgramName (dashesToUnderscores name) = false ->
  decodeCliLine tools (name +:+ " " +:+ rest)
  = decodeCliLine tools (dashesToUnderscores name +:+ " " +:+ rest).
Proof.
  intros Hne Hplain Hp Hp'.
  destruct (CompositionFacts.tokenize_plain name Hne Hplain) as [Ht He].
  destruct (CompositionFacts.tokenize_plain (dashesToUnderscores name)
              (dashes_nonempty name Hne) (dashes_plain name Hplain))
    as [Ht' He'].
  unfold decodeCliLine.
  rewrite (CompositionFacts.tokenize_app name rest [name] Ht He).
  rewrite (CompositionFacts.tokenize_app _ rest _ Ht' He').
  destruct (tokenizeCliLine rest) as [tb|message];
    unfold mbind, result_bind; [|reflexivity].
  simpl app. unfold stripProgramName. rewrite Hp, Hp'.
  rewrite !dashes_eqb by reflexivity. rewrite dashes_idempotent.
  destruct (String.eqb name "exit" || String.eqb name "quit"); [reflexivity|].
  destruct (findTool tools (dashesToUnderscores name)); reflexivity.
Qed.

End ToolNames.

(** ** The program name on a session line *)

Lemma isSpace_plain (c : ascii) :
  isSpace c = true ->
  Ascii.eqb c backslash = false
  /\ Ascii.eqb c dquote || Ascii.eqb c squote = false.
Proof.
  destruct c as [[] [] [] [] [] [] [] []]; try discriminate; now split.
Qed.

Lemma tokenize_trimStart (line : string) :
  tokenizeCliLine (trimStart line) = tokenizeCliLine line.
Proof.
  induction line as [|c rest IH]; [reflexivity|]. cbn [trimStart].
  destruct (isSpace c) eqn:Hc; [|reflexivity].
  rewrite IH. unfold tokenizeCliLine. cbn [Tokenizer.scan].
  destruct (isSpace_plain c Hc) as [Hb Hq].
  replace (Tokenizer.step Tokenizer.init c) with Tokenizer.init; [reflexivity|].
  unfold Tokenizer.step, Tokenizer.init.
  cbn [Tokenizer.escaping Tokenizer.quote]. now rewrite Hb, Hq, Hc.
Qed.

Lemma trimStart_trimEnd (line : string) :
  trimStart (trimEnd line) = trimEnd (trimStart line).
Proof.
  induction line as [|c rest IH]; [reflexivity|]. cbn [trimEnd trimStart].
  destruct (isSpace c) eqn:Hc; cbn [andb].
  - destruct (isEmpty (trimEnd rest)) eqn:He.
    + rewrite <- IH. apply isEmpty_true in He. now rewrite He.
    + cbn [trimStart]. now rewrite Hc.
  - cbn [trimStart trimEnd]. now rewrite Hc.
Qed.

Lemma append_isEmpty (a b : string) :
  isEmpty b = false -> isEmpty (a +:+ b) = false.
Proof. destruct a; [intros E; exact E|reflexivity]. Qed.

Lemma trimEnd_app (a b : string) :
  trimEnd (a +:+ b)
  = if isEmpty (trimEnd b) then trimEnd a else a +:+ trimEnd b.
Proof.
  induction a as [|c a IH].
  - change (EmptyString +:+ b) with b.
    destruct (isEmpty (trimEnd b)) eqn:He; [now apply isEmpty_true|reflexivity].
  - rewrite append_cons. cbn [trimEnd]. rewrite IH.
    destruct (isEmpty (trimEnd b)) eqn:He; [reflexivity|].
    rewrite (append_isEmpty a _ He), andb_false_r. now rewrite append_cons.
Qed.

Lemma programName_head (prog rest : string) :
  isProgramName prog = true ->
  isEmpty (prog +:+ rest) = false
  /\ startsWith (prog +:+ rest) "#" = false
  /\ startsWith (prog +:+ rest) "{" = false
  /\ trimStart (prog +:+ rest) = prog +:+ rest
  /\ trimEnd prog = prog.
Proof.
  intros [-> | [-> | ->]]%programName_cases; repeat split.
Qed.

Section ProgramName.
Context {Num : Type} `{JsRuntime Num}.
Context {Ctx Resp Content : Type}.
Variable zodObjectParse :
  list (string * ZodSchema Num) -> gmap string (Json Num) ->
  result (gmap string (Json Num)).
Variable newResponse : Resp.
Variable responseHandle : Resp -> string -> Ctx -> Ctx * result Content.
Variable contentJson : Content -> Json Num.
Variable contentItems : Content -> list ContentItem.
Variable tools : list (Tool Num Ctx Resp).
Variable args : Args.

Lemma decodeLine_program (prog line : string) :
  isProgramName prog = true ->
  startsWith (trim line) "#" = false ->
  startsWith (trim line) "{" = false ->
  (forall first rest,
     tokenizeCliLine (trim line) = Ok (first :: rest) ->
     isProgramName first = false) ->
  decodeLine tools (prog +:+ " " +:+ line) = decodeLine tools line.
Proof.
  intros Hp Hc Hb Hfirst.
  destruct (programName_tokenizes prog Hp) as [Ht He].
  assert (Htokens : tokenizeCliLine (trimEnd line) = tokenizeCliLine (trim line)).
  { unfold trim. now rewrite <- trimStart_trimEnd, tokenize_trimStart. }
  assert (Htrim : trim (prog +:+ " " +:+ line)
                  = if isEmpty (trimEnd line) then prog
                    else prog +:+ String " " (trimEnd line)).
  { unfold trim.
    destruct (programName_head prog (" " +:+ line) Hp) as (_ & _ & _ & -> & Hprog).
    rewrite trimEnd_app.
    change (trimEnd (" " +:+ line))
      with (if isSpace " " && isEmpty (trimEnd line) then EmptyString
            else String " " (trimEnd line)).
    change (isSpace " ") with true. cbn [andb].
    destruct (isEmpty (trimEnd line)); [exact Hprog|reflexivity]. }
  unfold decodeLine at 1. rewrite Htrim.
  destruct (isEmpty (trimEnd line)) eqn:Hempty.
  - destruct (programName_head prog EmptyString Hp) as (E1 & E2 & E3 & _).
    rewrite RenderingFacts.append_empty_r in E1, E2, E3.
    rewrite E1, E2, E3. cbn [orb].
    unfold decodeCliLine at 1. rewrite Ht.
    unfold mbind, result_bind. cbn [stripProgramName]. rewrite Hp.
    unfold decodeLine, trim. rewrite <- trimStart_trimEnd.
    apply isEmpty_true in Hempty. now rewrite Hempty.
  - destruct (programName_head prog (String " " (trimEnd line)) Hp)
      as (E1 & E2 & E3 & _).
    rewrite E1, E2, E3. cbn [orb].
    change (String " " (trimEnd line)) with (" " +:+ trimEnd line).
    unfold decodeCliLine at 1.
    rewrite (CompositionFacts.tokenize_app prog (trimEnd line) [prog] Ht He).
    rewrite Htokens. unfold decodeLine.
    destruct (isEmpty (trim line)) eqn:Hn.
    + apply isEmpty_true in Hn. rewrite Hn.
      change (tokenizeCliLine EmptyString) with (Ok (@nil string)).
      unfold mbind, result_bind. cbn [app stripProgramName]. now rewrite Hp.
    + rewrite Hc, Hb. cbn [orb]. unfold decodeCliLine.
      destruct (tokenizeCliLine (trim line)) as [[|first rest]|message] eqn:El;
        unfold mbind, result_bind; cbn [app stripProgramName].
      * now rewrite Hp.
      * now rewrite Hp, (Hfirst first rest eq_refl).
      * reflexivity.
Qed.

(** X20. The program name before a command is optional on a session line:
    a line that begins with [chrome_devtools], [chrome-devtools-cli] or
    [chrome-devtools-mcp] and a space is decoded, and processed by the
    session loop, as the line without it, provided the rest is a CLI line
    (after trimming it begins neither with [#] nor with an opening brace,
    which the loop tests on the whole line) and does not begin with a
    program name again. *)
Theorem program_name_is_optional (prog line : string) :
  isProgramName prog = true ->
  startsWith (trim line) "#" = false ->
  startsWith (trim line) "{" = false ->
  (forall first rest,
     tokenizeCliLine (trim line) = Ok (first :: rest) ->
     isProgramName first = false) ->
  decodeLine tools (prog +:+ " " +:+ line) = decodeLine tools line
  /\ forall st rest,
       runSession zodObjectParse newResponse responseHandle contentJson
         contentItems tools args ((prog +:+ " " +:+ line) :: rest) st
       = runSession zodObjectParse newResponse responseHandle contentJson
           contentItems tools args (line :: rest) st.
Proof.
  intros Hp Hc Hb Hfirst.
  pose proof (decodeLine_program prog line Hp Hc Hb Hfirst) as E.
  split; [exact E|]. intros st rest. cbn [runSession].
  unfold processLine. now rewrite E.
Qed.

End ProgramName.

(** ** Baseline keys *)

Lemma trimEnd_idempotent (s : string) : trimEnd (trimEnd s) = trimEnd s.
Proof.
  induction s as [|c rest IH]; [reflexivity|]. cbn [trimEnd].
  destruct (isSpace c && isEmpty (trimEnd rest)) eqn:E; [reflexivity|].
  cbn [trimEnd]. now rewrite IH, E.
Qed.

Lemma trimStart_head (s : string) :
  trimStart s = EmptyString
  \/ exists c rest, trimStart s = String c rest /\ isSpace c = false.
Proof.
  induction s as [|c rest IH]; [now left|]. cbn [trimStart].
  destruct (isSpace c) eqn:E; [exact IH | right; eauto].
Qed.

Lemma trim_idempotent (s : string) : trim (trim s) = trim s.
Proof.
  unfold trim. destruct (trimStart_head s) as [-> | (c & rest & -> & Hc)];
    [reflexivity|].
  cbn [trimEnd]. rewrite Hc. cbn [andb trimStart]. rewrite Hc.
  cbn [trimEnd]. now rewrite trimEnd_idempotent, Hc.
Qed.

Lemma trimmedOr_trimmed (s : option string) (fallback : string) :
  fallback <> EmptyString -> trim fallback = fallback ->
  Snapshot.trimmedOr s fallback <> EmptyString
  /\ trim (Snapshot.trimmedOr s fallback) = Snapshot.trimmedOr s fallback.
Proof.
  intros Hne Ht. unfold Snapshot.trimmedOr. destruct s as [s|]; [|now split].
  destruct (isEmpty (trim s)) eqn:E; [now split|].
  split; [now apply isEmpty_false | apply trim_idempotent].
Qed.

(** X22. The keys that [take_change_snapshot] works with are never empty
    and carry no surrounding white space: a missing or blank [baselineKey]
    is [default], a missing or blank [compareTo] is the baseline key, and a
    key names the same baseline with or without white space around it. *)
Theorem baseline_keys_are_trimmed (p : Snapshot.ChangeParams) :
  (Snapshot.resolvedBaselineKey p <> EmptyString
   /\ trim (Snapshot.resolvedBaselineKey p) = Snapshot.resolvedBaselineKey p)
  /\ (Snapshot.resolvedCompareKey p <> EmptyString
      /\ trim (Snapshot.resolvedCompareKey p) = Snapshot.resolvedCompareKey p)
  /\ (match Snapshot.baselineKey p with
      | Some key => trim key = EmptyString
      | None => True
      end ->
      Snapshot.resolvedBaselineKey p = "default")
  /\ (forall key,
        Snapshot.baselineKey p = Some key ->
        trim key <> EmptyString ->
        Snapshot.resolvedBaselineKey p = trim key)
  /\ (forall key,
        Snapshot.baselineKey p = Some key ->
        Snapshot.resolvedBaselineKey p
        = Snapshot.resolvedBaselineKey
            (Snapshot.mkChangeParams (Some (trim key))
               (Snapshot.replaceBaseline p) (Snapshot.compareTo p)))
  /\ (match Snapshot.compareTo p with
      | Some key => trim key = EmptyString
      | None => True
      end ->
      Snapshot.resolvedCompareKey p = Snapshot.resolvedBaselineKey p)
  /\ (forall key,
        Snapshot.compareTo p = Some key ->
        trim key <> EmptyString ->
        Snapshot.resolvedCompareKey p = trim key).
Proof.
  assert (Hb : Snapshot.resolvedBaselineKey p <> EmptyString
               /\ trim (Snapshot.resolvedBaselineKey p)
                  = Snapshot.resolvedBaselineKey p)
    by (apply trimmedOr_trimmed; [discriminate | reflexivity]).
  split; [exact Hb|]. split; [now apply trimmedOr_trimmed|].
  split; [|split; [|split; [|split]]].
  - unfold Snapshot.resolvedBaselineKey, Snapshot.trimmedOr.
    destruct (Snapshot.baselineKey p) as [key|]; [|reflexivity].
    now intros ->.
  - intros key Hk Hne%isEmpty_false.
    unfold Snapshot.resolvedBaselineKey, Snapshot.trimmedOr.
    now rewrite Hk, Hne.
  - intros key Hk. unfold Snapshot.resolvedBaselineKey, Snapshot.trimmedOr.
    rewrite Hk. cbn [Snapshot.baselineKey]. now rewrite trim_idempotent.
  - unfold Snapshot.resolvedCompareKey, Snapshot.trimmedOr.
    destruct (Snapshot.compareTo p) as [key|]; [|reflexivity].
    now intros ->.
  - intros key Hk Hne%isEmpty_false.
    unfold Snapshot.resolvedCompareKey, Snapshot.trimmedOr.
    now rewrite Hk, Hne.
Qed.

(** ** What the handler of [take_change_snapshot] leaves alone *)

Section HandlerFrame.
Context {Num Raw : Type} `{JsRuntime Num}.
Import AccessibilityDiff Snapshot.
Variable normalizeSnapshot : Raw -> list (NormalizedAXNode Num).
Variable diffSnapshots :
  list (NormalizedAXNode Num) -> list (NormalizedAXNode Num) -> SnapshotDiff Num.
Variable hasSnapshotChanges : SnapshotDiff Num -> bool.

Lemma appendResponseLines_lines (lines : list string) :
  forall response,
  responseLines (appendResponseLines response lines)
  = (responseLines response ++ lines)%list.
Proof.
  unfold appendResponseLines.
  induction lines as [|line rest IH]; intros response; simpl.
  - now rewrite app_nil_r.
  - rewrite IH. simpl. now rewrite <- app_assoc.
Qed.

Lemma set_other (context : McpContext Num Raw) (key key' : string)
    (snapshot : list (NormalizedAXNode Num)) :
  key' <> key ->
  accessibilityBaselines (setAccessibilityBaseline context key snapshot) !! key'
  = accessibilityBaselines context !! key'.
Proof. intros Hne. simpl. now apply lookup_insert_ne. Qed.

(** X23. Whatever the parameters, the page and the diff engine, one call of
    [take_change_snapshot] writes at most the baseline at its own baseline
    key, leaves every other baseline as it was, and keeps the lines already
    in the response while appending at least one. *)
Theorem handler_writes_only_its_baseline (p : ChangeParams)
    (response : McpResponse) (context : McpContext Num Raw) :
  let out := handler normalizeSnapshot diffSnapshots hasSnapshotChanges p
               response context in
  page out.1 = page context
  /\ (forall key,
        key <> resolvedBaselineKey p ->
        accessibilityBaselines out.1 !! key
        = accessibilityBaselines context !! key)
  /\ exists line lines,
       responseLines out.2 = (responseLines response ++ line :: lines)%list.
Proof.
  cbv zeta. rewrite handler_cases.
  destruct (page context) as [snapshot|] eqn:Hpage.
  2: { cbn [fst snd]. split; [exact Hpage|]. split; [reflexivity|].
       exists noSnapshotMessage, []. reflexivity. }
  destruct (getAccessibilityBaseline context (resolvedCompareKey p))
    as [baseline|].
  2: { cbn [fst snd]. split; [exact Hpage|]. split.
       - intros key Hne. exact (set_other (createTextSnapshot context) _ key _ Hne).
       - eexists _, []. reflexivity. }
  cbn [fst snd]. split; [|split].
  - destruct (resolvedReplaceBaseline p); exact Hpage.
  - intros key Hne. destruct (resolvedReplaceBaseline p); [|reflexivity].
    exact (set_other (createTextSnapshot context) _ key _ Hne).
  - destruct (negb (hasSnapshotChanges _)).
    + eexists _, []. reflexivity.
    + rewrite appendResponseLines_lines. unfold diffLines.
      eexists _, _. reflexivity.
Qed.

(** X25. Comparing against another key never creates a baseline at that
    key: with [compareTo] naming a key without baseline, different from the
    baseline key, every call stores the snapshot under the baseline key and
    reports that no baseline was found, so a second call finds the compare
    baseline still missing, reports the same and leaves the context of the
    first call. *)
Theorem missing_compare_baseline_stays_missing (p : ChangeParams)
    (response response' : McpResponse) (context : McpContext Num Raw)
    (snapshot : Raw) :
  page context = Some snapshot ->
  resolvedCompareKey p <> resolvedBaselineKey p ->
  getAccessibilityBaseline context (resolvedCompareKey p) = None ->
  let first := handler normalizeSnapshot diffSnapshots hasSnapshotChanges p
                 response context in
  getAccessibilityBaseline first.1 (resolvedCompareKey p) = None
  /\ handler normalizeSnapshot diffSnapshots hasSnapshotChanges p response'
       first.1
     = (first.1,
        appendResponseLine response'
          (createdMessage (resolvedCompareKey p) (resolvedBaselineKey p))).
Proof.
  intros Hpage Hne Hnone first.
  assert (E : first
              = (setAccessibilityBaseline (createTextSnapshot context)
                   (resolvedBaselineKey p) (normalizeSnapshot snapshot),
                 appendResponseLine response
                   (createdMessage (resolvedCompareKey p)
                      (resolvedBaselineKey p)))).
  { unfold first. now rewrite handler_cases, Hpage, Hnone. }
  rewrite E. cbn [fst].
  assert (Hstill : getAccessibilityBaseline
                     (setAccessibilityBaseline (createTextSnapshot context)
                        (resolvedBaselineKey p) (normalizeSnapshot snapshot))
                     (resolvedCompareKey p) = None).
  { unfold getAccessibilityBaseline. rewrite set_other by exact Hne.
    exact Hnone. }
  split; [exact Hstill|].
  rewrite handler_cases, Hstill.
  change (page (setAccessibilityBaseline (createTextSnapshot context)
                  (resolvedBaselineKey p) (normalizeSnapshot snapshot)))
    with (page context).
  rewrite Hpage. f_equal.
  unfold setAccessibilityBaseline, createTextSnapshot.
  cbn [page textSnapshot accessibilityBaselines].
  now rewrite insert_insert_eq.
Qed.

End HandlerFrame.

(** ** One tool call from the command line *)

Ltac events :=
  repeat split; intros;
  repeat match goal with
         | H : _ ∈ (_ :: _) |- _ => apply elem_of_cons in H as [H|H]
         | H : _ ∈ (_ ++ _)%list |- _ => apply elem_of_app in H as [H|H]
         | H : _ ∈ [] |- _ => inversion H
         | H : _ ∉ _ |- _ => fail
         | |- _ ∉ _ => intros ?
         end;
  try discriminate;
  rewrite ?elem_of_app, ?elem_of_cons, ?elem_of_nil;
  try (simpl; lia); try tauto; auto.

Section RunToolOnceFacts.
Import Once.
Context {Num : Type} `{JsRuntime Num}.
Context {Ctx Resp Content Browser : Type}.
Variable zodObjectParse :
  list (string * ZodSchema Num) -> gmap string (Json Num) ->
  result (gmap string (Json Num)).
Variable newResponse : Resp.
Variable responseHandle : Resp -> string -> Ctx -> Ctx * result Content.
Variable contentJson : Content -> Json Num.
Variable contentItems : Content -> list ContentItem.
Variable tools : list (Tool Num Ctx Resp).
Variable stringifyIndented : Json Num -> string.
Variable ensureBrowserConnected : gmap string (Json Num) -> result Browser.
Variable ensureBrowserLaunched : gmap string (Json Num) -> result Browser.
Variable contextFrom : Browser -> gmap string (Json Num) -> result Ctx.
Variable prepare : Ctx -> Ctx * result unit.
Variable contextDispose : Ctx -> result unit.
Variable browserClose : Browser -> result unit.
Variable browserDisconnect : Browser -> result unit.
Variable args : gmap string (Json Num).

Abbreviation run :=
  (runToolOnce zodObjectParse newResponse responseHandle contentJson
     contentItems tools stringifyIndented ensureBrowserConnected
     ensureBrowserLaunched contextFrom prepare contextDispose browserClose
     browserDisconnect args).

Abbreviation attach :=
  (argTruthy args "browserUrl" || argTruthy args "wsEndpoint"
   || argTruthy args "autoConnect").

Lemma shouldClose_attach :
  negb (argTruthy args "browserUrl") && negb (argTruthy args "wsEndpoint")
  && negb (argTruthy args "autoConnect") = negb attach.
Proof. now rewrite !negb_orb. Qed.

Lemma tryBlock_cases (tool : Tool Num Ctx Resp)
    (rawParams : gmap string (Json Num)) (context : Ctx) :
  (exists e,
     tryBlock zodObjectParse newResponse responseHandle tool rawParams context
     = (context, Err e, []))
  \/ exists context' outcome,
       tryBlock zodObjectParse newResponse responseHandle tool rawParams
         context
       = (context', outcome, [Invoked (name tool)]).
Proof.
  unfold tryBlock. destruct (zodObjectParse _ _) as [parsed|e]; [|eauto].
  right. destruct (handler tool parsed newResponse context)
    as [context1 [response|e]]; [|eauto].
  destruct (responseHandle response (name tool) context1); eauto.
Qed.

(** The [try] block calls the handler at most once and writes nothing
    without calling it. *)
Lemma tryBody_calls (tool : Tool Num Ctx Resp) (context : Ctx) :
  let out := tryBody zodObjectParse newResponse responseHandle contentJson
               contentItems stringifyIndented prepare args tool context in
  (out.1.2 = [] /\ out.2 = [])
  \/ out.1.2 = [HandlerCalled (name tool)].
Proof.
  unfold tryBody. destruct (prepare context) as [context0 [[]|e]]; [|now left].
  destruct (tryBlock_cases tool (rawParamsOf args tool) context0)
    as [[e ->] | (context1 & outcome & ->)]; [now left|].
  destruct outcome; now right.
Qed.

Lemma finallyBlock_events (shouldCloseBrowser : bool) (browser : Browser)
    (context : Ctx) :
  let events := (finallyBlock contextDispose browserClose browserDisconnect
                   shouldCloseBrowser browser context).2 in
  (is_Some_ok (contextDispose context) = false
   /\ events = [GuardDisposed; ContextDisposed])
  \/ (is_Some_ok (contextDispose context) = true
      /\ events
         = [GuardDisposed; ContextDisposed;
            if shouldCloseBrowser then BrowserClosed else BrowserDisconnected]).
Proof.
  unfold finallyBlock, is_Some_ok.
  destruct (contextDispose context); [|now left].
  right. now destruct shouldCloseBrowser.
Qed.

(** The shapes of the record of one call. *)
Lemma runToolOnce_lifecycle (toolName : string) :
  (lifecycle (run toolName) = [] /\ output (run toolName) = [])
  \/ (lifecycle (run toolName)
      = [if attach then BrowserConnected else BrowserLaunched]
      /\ output (run toolName) = [])
  \/ exists tool calls closing,
       findTool tools toolName = Some tool
       /\ toolIsEnabled (enablingArgs args) tool = true
       /\ lifecycle (run toolName)
          = ([if attach then BrowserConnected else BrowserLaunched;
              GuardAcquired] ++ calls ++ GuardDisposed :: ContextDisposed :: closing)%list
       /\ ((calls = [] /\ output (run toolName) = [])
           \/ calls = [HandlerCalled (name tool)])
       /\ ((closing = []
            /\ exists context, is_Some_ok (contextDispose context) = false)
           \/ closing = [if attach then BrowserDisconnected else BrowserClosed]).
Proof.
  unfold runToolOnce. rewrite shouldClose_attach.
  destruct (findTool tools toolName) as [tool|] eqn:Hfind; [|now left].
  destruct (toolIsEnabled (enablingArgs args) tool) eqn:Hen; [|now left].
  cbn [negb].
  destruct (if attach then ensureBrowserConnected args
            else ensureBrowserLaunched args) as [browser|e]; [|now left].
  destruct (contextFrom browser args) as [context|e]; [|right; now left].
  right. right.
  pose proof (tryBody_calls tool context) as Hcalls. cbv zeta in Hcalls.
  destruct (tryBody _ _ _ _ _ _ _ _ tool context)
    as [[[context' ending] calls] ws].
  pose proof (finallyBlock_events (negb attach) browser context') as Hev.
  cbv zeta in Hev.
  destruct (finallyBlock _ _ _ (negb attach) browser context')
    as [closing events].
  cbn [fst snd] in Hcalls, Hev. cbn [lifecycle output].
  exists tool, calls.
  destruct Hev as [[Hd ->] | [_ ->]].
  - exists []. split; [reflexivity|]. split; [exact Hen|].
    split; [reflexivity|]. split; [exact Hcalls | left; eauto].
  - exists [if negb attach then BrowserClosed else BrowserDisconnected].
    split; [reflexivity|]. split; [exact Hen|]. split; [reflexivity|].
    split; [exact Hcalls|]. right. now destruct attach.
Qed.

Lemma rawParamsOf_fold (keys : list string) :
  forall (rawParams : gmap string (Json Num)) (key : string),
  fold_left
    (fun rawParams key =>
       match args !! key with
       | Some value => <[key := value]> rawParams
       | None => rawParams
       end) keys rawParams !! key
  = match (if bool_decide (key ∈ keys) then args !! key else None) with
    | Some value => Some value
    | None => rawParams !! key
    end.
Proof.
  induction keys as [|k keys IH]; intros rawParams key; [reflexivity|].
  cbn [fold_left]. rewrite IH.
  assert (Hstep : key <> k ->
            match args !! k with
            | Some value => <[k := value]> rawParams
            | None => rawParams
            end !! key = rawParams !! key).
  { intros Hne. destruct (args !! k); [now apply lookup_insert_ne | reflexivity]. }
  destruct (decide (key = k)) as [->|Hne].
  - rewrite (bool_decide_eq_true_2 (k ∈ (k :: keys))) by (apply elem_of_cons; now left).
    destruct (bool_decide (k ∈ keys)).
    + destruct (args !! k) as [value|] eqn:Ek; reflexivity.
    + destruct (args !! k) as [value|] eqn:Ek; [apply lookup_insert_eq | reflexivity].
  - rewrite (Hstep Hne).
    destruct (bool_decide (key ∈ keys)) eqn:E.
    + apply bool_decide_eq_true in E.
      rewrite (bool_decide_eq_true_2 (key ∈ (k :: keys))); [reflexivity|].
      apply elem_of_cons. now right.
    + apply bool_decide_eq_false in E.
      rewrite (bool_decide_eq_false_2 (key ∈ (k :: keys))); [reflexivity|].
      intros [?|?]%elem_of_cons; [congruence | now apply E].
Qed.

(** X26. One call from the command line always tears down what it set up:
    once the guard is acquired it is disposed and the context is disposed,
    whether the preparation, the validation or the handler throws or
    not; the handler is called at most once; a browser that the call
    attached to is never closed and one that it launched is never just
    disconnected; and when [context.dispose()] returns, the browser is
    closed or disconnected. *)
Theorem run_once_tears_down (toolName : string) :
  (GuardAcquired ∈ lifecycle (run toolName) ->
   GuardDisposed ∈ lifecycle (run toolName)
   /\ ContextDisposed ∈ lifecycle (run toolName)
   /\ ((forall context, is_Some_ok (contextDispose context) = true) ->
       BrowserClosed ∈ lifecycle (run toolName)
       \/ BrowserDisconnected ∈ lifecycle (run toolName)))
  /\ (BrowserConnected ∈ lifecycle (run toolName) ->
      attach = true
      /\ (BrowserClosed ∉ lifecycle (run toolName))
      /\ (BrowserLaunched ∉ lifecycle (run toolName)))
  /\ (BrowserLaunched ∈ lifecycle (run toolName) ->
      attach = false
      /\ (BrowserDisconnected ∉ lifecycle (run toolName))
      /\ (BrowserConnected ∉ lifecycle (run toolName)))
  /\ length (List.filter isCall (lifecycle (run toolName))) <= 1.
Proof.
  destruct (runToolOnce_lifecycle toolName)
    as [[-> _] | [[-> _]
       | (tool & calls & closing & _ & _ & -> & Hcalls & Hclosing)]].
  - events.
  - destruct attach; events.
  - assert (Hc : calls = [] \/ calls = [HandlerCalled (name tool)]) by tauto.
    clear Hcalls.
    destruct Hc as [-> | ->], Hclosing as [[-> [context Hd]] | ->];
      destruct attach; events;
      exfalso;
      match goal with
      | Hall : forall c, is_Some_ok (contextDispose c) = true |- _ =>
          specialize (Hall context); congruence
      end.
Qed.

(** X27. One call from the command line calls no other handler than that of
    the tool it was asked for, which the registry knows and the flags
    enable, and writes nothing unless that handler was called; an unknown
    or disabled tool is rejected before any browser is reached. *)
Theorem run_once_calls_the_enabled_tool (toolName : string) :
  (forall t, HandlerCalled t ∈ lifecycle (run toolName) ->
     t = toolName
     /\ exists tool,
          findTool tools toolName = Some tool
          /\ toolIsEnabled (enablingArgs args) tool = true)
  /\ (output (run toolName) <> [] ->
      HandlerCalled toolName ∈ lifecycle (run toolName))
  /\ (findTool tools toolName = None
      \/ (exists tool,
            findTool tools toolName = Some tool
            /\ toolIsEnabled (enablingArgs args) tool = false) ->
      lifecycle (run toolName) = [] /\ is_Some (thrown (run toolName))).
Proof.
  split; [|split].
  - intros t.
    destruct (runToolOnce_lifecycle toolName)
      as [[-> _] | [[-> _]
         | (tool & calls & closing & Hfind & Hen & -> & Hcalls & Hclosing)]].
    + intros Hin. inversion Hin.
    + destruct attach; events.
    + assert (Hc : calls = [] \/ calls = [HandlerCalled (name tool)]) by tauto.
      pose proof (findTool_name tools toolName tool Hfind) as Hname.
      destruct Hc as [-> | ->], Hclosing as [[-> _] | ->];
        destruct attach; events; eauto; congruence.
  - destruct (runToolOnce_lifecycle toolName)
      as [[_ ->] | [[_ ->]
         | (tool & calls & closing & Hfind & _ & -> & [[_ ->] | ->] & _)]];
      try congruence.
    intros _. rewrite (findTool_name tools toolName tool Hfind).
    rewrite !elem_of_app, !elem_of_cons. auto.
  - unfold runToolOnce. intros [-> | (tool & -> & ->)]; simpl; eauto.
Qed.

(** X28. The parameters that one call from the command line hands to the
    validator are the options given under the keys of the tool's schema
    and nothing else: the options of the program itself do not reach the
    tool unless its schema declares a parameter of that name. *)
Theorem run_once_params_are_schema_keys (tool : Tool Num Ctx Resp)
    (key : string) :
  rawParamsOf args tool !! key
  = if bool_decide (key ∈ (schema tool).*1) then args !! key else None.
Proof.
  unfold rawParamsOf. rewrite rawParamsOf_fold, map_fmap, lookup_empty.
  destruct (bool_decide (key ∈ (schema tool).*1)); [|reflexivity].
  now destruct (args !! key).
Qed.

End RunToolOnceFacts.

(** ** Documented commands *)

Section DocumentedCommands.
Context {Num : Type} `{JsRuntime Num}.
Context {Ctx Resp : Type}.
Variable tools : list (Tool Num Ctx Resp).
Variable exampleParams : list (string * Json Num).
Variable entries : list (string * ZodSchema Num).
Hypothesis entries_nodup : NoDup entries.*1.
Hypothesis all_positional :
  forall key schema,
    (key, schema) ∈ entries ->
    required (unwrapZodSchema schema) = true
    /\ schemaIsPositionalFriendly schema = true
    /\ textShaped schema = true.

Lemma all_positionalKeys : positionalKeys entries = entries.*1.
Proof.
  unfold positionalKeys. rewrite map_fmap. f_equal.
  assert (Hall : forall l : list (string * ZodSchema Num),
            (forall e, e ∈ l -> e ∈ entries) ->
            filter (fun e => schemaIsPositionalFriendly e.2 = true)
              (filter (fun e => required (unwrapZodSchema e.2) = true) l) = l).
  { induction l as [|[k s] l IH]; intros Hsub; [reflexivity|].
    destruct (all_positional k s) as (Hr & Hf & _);
      [apply Hsub, elem_of_cons; now left|].
    rewrite filter_cons_True by exact Hr.
    rewrite filter_cons_True by exact Hf.
    rewrite IH; [reflexivity|].
    intros e He. apply Hsub, elem_of_cons. now right. }
  now apply Hall.
Qed.

Lemma no_flag_parts (l : list (string * ZodSchema Num)) :
  (forall e, e ∈ l -> e ∈ entries) ->
  concat (map (DocGen.flagParts exampleParams (entries.*1)) l) = [].
Proof.
  induction l as [|[k s] l IH]; intros Hsub; [reflexivity|].
  cbn [map concat]. rewrite IH by (intros e He; apply Hsub, elem_of_cons; now right).
  rewrite app_nil_r. unfold DocGen.flagParts.
  assert (Hin : existsb (String.eqb k) entries.*1 = true).
  { apply existsb_exists. exists k. split; [|apply String.eqb_refl].
    apply list_elem_of_In. change k with ((k, s).1) at 1.
    apply list_elem_of_fmap_2, Hsub, elem_of_cons. now left. }
  now rewrite Hin.
Qed.

Lemma documented_parts (toolName : string) :
  DocGen.commandParts exampleParams toolName entries
  = ("chrome_devtools" :: toolName
     :: map (fun key => DocGen.formatExample (DocGen.exampleOr exampleParams key))
          entries.*1).
Proof.
  unfold DocGen.commandParts.
  rewrite doc_positionalKeys, all_positionalKeys, no_flag_parts by auto.
  now rewrite app_nil_r.
Qed.

Lemma documented_renderings (keys values : list string) :
  Forall2 (fun key value =>
             DocGen.exampleOr exampleParams key = DocGen.Own (JStr value)
             /\ documentable value) keys values ->
  Forall2 Rendering values
    (map (fun key => DocGen.formatExample (DocGen.exampleOr exampleParams key))
       keys)
  /\ Forall (fun v => v <> EmptyString) values
  /\ Forall (readPositionally false) values.
Proof.
  induction 1 as [|key value keys values [Hex Hdoc] _ (IH1 & IH2 & IH3)];
    [repeat split; constructor|].
  destruct Hdoc as (Hne & Hb & Hd & Hph & Hjson & Hflag).
  split; [|split]; constructor; auto.
  - cbn [map]. rewrite Hex. now apply formatCliArg_rendering.
  - split; [|now right]. intros ->. discriminate.
Qed.

(** X29. The command that the documentation shows for a tool whose
    parameters are all positional is one that the session accepts: written
    on a line, it is decoded as a command for that tool with each parameter
    set to the text of its example, or to its placeholder.  (For parameters
    whose example is a string of the table itself or which, without example,
    are not named like a member of [Object.prototype]: for those the
    generator reads the inherited member.) *)
Theorem documented_command_is_decoded (tool : Tool Num Ctx Resp)
    (values : list string) :
  schema tool = entries ->
  findTool tools (name tool) = Some tool ->
  name tool <> EmptyString ->
  allChars plainChar (name tool) = true ->
  dashesToUnderscores (name tool) = name tool ->
  isProgramName (name tool) = false ->
  String.eqb (name tool) "exit" || String.eqb (name tool) "quit" = false ->
  Forall2 (fun key value =>
             DocGen.exampleOr exampleParams key = DocGen.Own (JStr value)
             /\ documentable value) entries.*1 values ->
  decodeCliLine tools
    (DocGen.getCliCommandForTool exampleParams (name tool) (schema tool))
  = Command (name tool) (fillPositionals ∅ entries.*1 values).
Proof.
  intros Hschema Hfind Hne Hplain Hdash Hprog Hexit Hvalues.
  destruct (documented_renderings _ _ Hvalues) as (Hrender & Hnonempty & Hread).
  unfold DocGen.getCliCommandForTool. rewrite Hschema, documented_parts.
  assert (Htokens :
    tokenizeCliLine
      (String.concat " "
         ("chrome_devtools" :: name tool
          :: map (fun key =>
                    DocGen.formatExample (DocGen.exampleOr exampleParams key))
               entries.*1))
    = Ok ("chrome_devtools" :: name tool :: values)).
  { apply (RenderingFacts.finish_parts
             ("chrome_devtools" :: name tool :: values) _) with (T := []).
    - constructor; [now apply render_plain|].
      constructor; [now apply render_plain | exact Hrender].
    - constructor; [discriminate|]. constructor; assumption. }
  unfold decodeCliLine. rewrite Htokens. cbn [stripProgramName].
  change (isProgramName "chrome_devtools") with true. cbv iota.
  rewrite Hexit, Hdash, Hfind, Hschema.
  unfold parseToolParamsFromCliTokens.
  change (drop 1 (name tool :: values)) with values.
  pose proof (positionals_from_start entries entries_nodup
                (fun key schema Hin _ => proj2 (proj2 (all_positional key schema Hin)))
                values [] false Hread) as E.
  rewrite app_nil_r, all_positionalKeys in E. rewrite E; [reflexivity|].
  apply Forall2_length in Hvalues. lia.
Qed.

End DocumentedCommands.

(** * Further concrete instances *)

Lemma tokens_read_back_witness :
  tokenizeCliLine (String.concat " " ["fill"; quoted "Example text"])
  = Ok ["fill"; "Example text"].
Proof.
  apply (tokens_read_back ["fill"; "Example text"]
           ["fill"; quoted "Example text"]).
  - constructor; [apply render_plain; reflexivity|].
    constructor; [|constructor].
    apply (render_quoted "Example text" dquote); [left|]; reflexivity.
  - repeat constructor; discriminate.
Defined.

Lemma any_token_can_be_escaped_witness :
  tokenizeCliLine (escapeAll "a b") = Ok ["a b"].
Proof. apply (any_token_can_be_escaped "a b"). discriminate. Defined.

Lemma tokenizer_fails_iff_unterminated_witness :
  exists message, tokenizeCliLine openLine = Err message.
Proof.
  apply (proj2 (tokenizer_fails_iff_unterminated openLine)).
  exact openLine_unterminated.
Defined.

Lemma documented_argument_read_back_witness :
  tokenizeCliLine
    (@DocGen.formatCliArg (option N) quotingRuntime (JStr "Example text"))
  = Ok ["Example text"].
Proof.
  apply (@documented_argument_read_back (option N) quotingRuntime
           "Example text"); try reflexivity; discriminate.
Defined.

Lemma positional_parameters_are_required_scalars_witness :
  "uid" ∈ positionalKeys exampleSchema
  /\ ("verbose" ∉ positionalKeys optionsSchema).
Proof.
  split.
  - apply (proj1 (positional_parameters_are_required_scalars exampleSchema
                    "uid")).
    exists ZodString. split; [|split; reflexivity].
    unfold exampleSchema. rewrite !elem_of_cons. left. reflexivity.
  - apply (proj2 (positional_parameters_are_required_scalars optionsSchema
                    "verbose") (ZodOptional ZodBoolean)).
    + apply (bool_decide_unpack _). vm_compute. reflexivity.
    + unfold optionsSchema. rewrite !elem_of_cons. left. reflexivity.
    + right. left. reflexivity.
Defined.

Lemma decoded_keys_are_declared_witness :
  is_Some (schemaByKey exampleSchema !! "uid") /\ "uid" ∈ exampleSchema.*1.
Proof.
  apply (decoded_keys_are_declared exampleSchema ["fill"; "1_2"; "abc"]
           {[ "uid" := JStr "1_2"; "value" := JStr "abc" ]} "uid").
  - vm_compute. reflexivity.
  - exists (JStr "1_2"). vm_compute. reflexivity.
Defined.

Lemma inline_and_separated_values_agree_witness :
  parseLoop exampleSchema ["--uid=1_2"] (mkParseState ∅ 0 false)
  = parseLoop exampleSchema ["--uid"; "1_2"] (mkParseState ∅ 0 false).
Proof.
  apply (inline_and_separated_values_agree exampleSchema "uid" "1_2" []
           (mkParseState ∅ 0 false)); try reflexivity.
  intros schema Hs. vm_compute in Hs. injection Hs as <-. discriminate.
Defined.

Lemma explicit_boolean_values_witness :
  parseLoop optionsSchema ["--verbose=yes"] (mkParseState ∅ 0 false)
  = parseLoop optionsSchema ["--verbose"] (mkParseState ∅ 0 false).
Proof.
  apply (explicit_boolean_values optionsSchema "verbose" "yes" true
           (ZodOptional ZodBoolean) [] (mkParseState ∅ 0 false));
    reflexivity.
Defined.

Lemma unreadable_flags_are_errors_witness :
  parseLoop exampleSchema ["--nope"] (mkParseState ∅ 0 false)
  = Err "Unknown param: --nope".
Proof.
  destruct (unreadable_flags_are_errors exampleSchema "nope"
              (mkParseState ∅ 0 false) eq_refl eq_refl) as [Hunknown _].
  destruct (Hunknown) with (rest := @nil string) (value := "x")
    as (Hflag & _); [vm_compute; reflexivity | exact Hflag].
Defined.

Lemma exampleSchema_nodup : NoDup exampleSchema.*1.
Proof. apply (bool_decide_unpack _). vm_compute. reflexivity. Qed.

Lemma exampleSchema_text (key : string) (schema : ZodSchema (option N)) :
  (key, schema) ∈ exampleSchema -> textShaped schema = true.
Proof.
  unfold exampleSchema. intros Hin.
  repeat (apply elem_of_cons in Hin as [Hin|Hin];
          [injection Hin as -> ->; reflexivity|]).
  inversion Hin.
Qed.

Lemma positional_values_fill_in_order_witness :
  parseToolParamsFromCliTokens exampleSchema ["fill"; "1_2"; "abc"]
  = Ok (fillPositionals ∅ (positionalKeys exampleSchema) ["1_2"; "abc"]).
Proof.
  destruct (positional_values_fill_in_order exampleSchema "fill"
              ["1_2"; "abc"] exampleSchema_nodup
              (fun key schema Hin _ => exampleSchema_text key schema Hin))
    as [Hplain _]; [vm_compute; lia|].
  apply Hplain. repeat constructor.
Defined.

Lemma extra_positional_is_an_error_witness :
  parseToolParamsFromCliTokens exampleSchema ["fill"; "1_2"; "abc"; "zzz"]
  = Err "Unexpected extra arg: zzz".
Proof.
  apply (extra_positional_is_an_error exampleSchema "fill" "zzz"
           ["1_2"; "abc"] [] exampleSchema_nodup
           (fun key schema Hin _ => exampleSchema_text key schema Hin));
    [reflexivity | repeat constructor | reflexivity].
Defined.

Lemma repeated_flags_accumulate_or_override_witness :
  parseLoop tagsSchema ["--tags"; "a"; "--tags"; "b"] (mkParseState ∅ 0 false)
  = Ok {[ "tags" := JArr [JStr "a"; JStr "b"] ]}
  /\ parseLoop tagsSchema ["--name"; "a"; "--name"; "b"]
       (mkParseState ∅ 0 false)
     = Ok {[ "name" := JStr "b" ]}.
Proof.
  split.
  - destruct (repeated_flags_accumulate_or_override tagsSchema "tags"
                (ZodOptional (ZodArray (Some ZodString))) ["a"; "b"] [] "b"
                (mkParseState ∅ 0 false) eq_refl eq_refl eq_refl eq_refl)
      as [Harray _].
    apply Harray; [reflexivity | repeat constructor | reflexivity].
  - destruct (repeated_flags_accumulate_or_override tagsSchema "name"
                ZodString ["a"; "b"] [] "b"
                (mkParseState ∅ 0 false) eq_refl eq_refl eq_refl eq_refl)
      as [_ Htext].
    apply Htext. reflexivity.
Defined.

Lemma decoded_values_fit_their_shape_witness :
  decodedKind (ZodOptional ZodString : ZodSchema (option N)) (JBool false)
  = true.
Proof.
  apply (decoded_values_fit_their_shape optionsSchema
           ["take_snapshot"; "--no-filePath"]
           {[ "filePath" := JBool false ]} "filePath").
  - apply (bool_decide_unpack _). vm_compute. reflexivity.
  - vm_compute. reflexivity.
  - vm_compute. reflexivity.
  - vm_compute. reflexivity.
Defined.

Lemma only_enabled_tools_are_invoked_witness :
  exists events,
    [Acquired; Invoked "fill"; Disposed] = ([] ++ events)%list
    /\ forall t, Invoked t ∈ events ->
         exists tool,
           findTool [exampleTool] t = Some tool
           /\ toolIsEnabled exampleArgs tool = true.
Proof.
  apply (only_enabled_tools_are_invoked validateParams tt
           (fun _ _ n => (n, Ok tt)) (fun _ => JArr []) (fun _ => [])
           [exampleTool] exampleArgs ["fill 1_2 abc"] (startSession 0)
           (mkSession 1 (mkMutex false) []
              [Acquired; Invoked "fill"; Disposed])).
  left. vm_compute. reflexivity.
Defined.

Lemma context_changes_only_in_handlers_witness :
  exists events ws,
    @nil GuardEvent = ([] ++ events)%list
    /\ [Stdout ("[json]" +:+ nl)] = ([] ++ ws)%list
    /\ (existsb isInvoked events = false -> 0 = 0).
Proof.
  apply (context_changes_only_in_handlers validateParams tt
           (fun _ _ n => (n, Ok tt)) (fun _ => JArr []) (fun _ => [])
           [exampleTool] exampleArgs ["fill 1_2 abc"] (startSession 0)
           (mkSession 0 (mkMutex false) [Stdout ("[json]" +:+ nl)] [])).
  right. vm_compute. reflexivity.
Defined.

Lemma json_session_one_line_per_command_witness :
  exists ws,
    [Stdout ("[json]" +:+ nl); Stdout ("[json]" +:+ nl)] = ([] ++ ws)%list
    /\ forallb isStdout ws = true
    /\ length ws <= 2.
Proof.
  apply (json_session_one_line_per_command validateParams tt
           (fun _ _ n => (n, Ok tt)) (fun _ => JArr []) (fun _ => [])
           [exampleTool] exampleArgs ["fill 1_2 abc"; nopeMessage]
           (startSession 0)
           (mkSession 0 (mkMutex false)
              [Stdout ("[json]" +:+ nl); Stdout ("[json]" +:+ nl)] [])).
  right. vm_compute. reflexivity.
Defined.

Lemma tokenizer_is_compositional_witness :
  tokenizeCliLine ("fill" +:+ " " +:+ "1_2 abc")
  = (tb ← tokenizeCliLine "1_2 abc"; Ok (["fill"] ++ tb)%list).
Proof.
  apply (tokenizer_is_compositional "fill" "1_2 abc" ["fill"]); reflexivity.
Defined.

Lemma program_name_is_optional_witness :
  @decodeLine (option N) exampleRuntime nat unit [exampleTool]
    ("chrome_devtools" +:+ " " +:+ "fill 1_2 abc ")
  = decodeLine [exampleTool] "fill 1_2 abc "
  /\ exampleRun ["chrome_devtools" +:+ " " +:+ "fill 1_2 abc "]
       (startSession 0)
     = exampleRun ["fill 1_2 abc "] (startSession 0).
Proof.
  destruct (program_name_is_optional validateParams tt
              (fun _ _ n => (n, Ok tt)) (fun _ => JArr []) (fun _ => [])
              [exampleTool] exampleArgs "chrome_devtools" "fill 1_2 abc "
              eq_refl eq_refl eq_refl) as [Hdecode Hrun].
  - intros first rest E. vm_compute in E. injection E as <- _. reflexivity.
  - split; [exact Hdecode|]. unfold exampleRun. apply Hrun.
Defined.

Lemma tool_name_dashes_are_underscores_witness :
  @decodeCliLine (option N) exampleRuntime nat unit [exampleTool]
    ("take-snapshot" +:+ " " +:+ "--verbose")
  = decodeCliLine [exampleTool]
      (dashesToUnderscores "take-snapshot" +:+ " " +:+ "--verbose").
Proof.
  apply (tool_name_dashes_are_underscores [exampleTool] "take-snapshot"
           "--verbose"); (discriminate || reflexivity).
Defined.

Lemma baseline_keys_are_trimmed_witness :
  Snapshot.resolvedBaselineKey (Snapshot.mkChangeParams (Some "  ") None None)
  = "default"
  /\ Snapshot.resolvedBaselineKey
       (Snapshot.mkChangeParams (Some " chat ") None None)
     = "chat"
  /\ Snapshot.resolvedCompareKey
       (Snapshot.mkChangeParams (Some " chat ") None (Some "  "))
     = Snapshot.resolvedBaselineKey
         (Snapshot.mkChangeParams (Some " chat ") None (Some "  ")).
Proof.
  split; [|split].
  - destruct (baseline_keys_are_trimmed
                (Snapshot.mkChangeParams (Some "  ") None None))
      as (_ & _ & Hdefault & _).
    apply Hdefault. reflexivity.
  - destruct (baseline_keys_are_trimmed
                (Snapshot.mkChangeParams (Some " chat ") None None))
      as (_ & _ & _ & Hkey & _).
    apply (Hkey " chat "); [reflexivity | discriminate].
  - destruct (baseline_keys_are_trimmed
                (Snapshot.mkChangeParams (Some " chat ") None (Some "  ")))
      as (_ & _ & _ & _ & _ & Hcompare & _).
    apply Hcompare. reflexivity.
Defined.

Lemma handler_writes_only_its_baseline_witness :
  Snapshot.accessibilityBaselines
    (Snapshot.takeChangeSnapshot exampleNormalize
       (Snapshot.mkChangeParams (Some "chat") None None)
       (Snapshot.mkResponse [])
       (Snapshot.mkContext (Some "Hello") {[ "other" := [] ]})).1 !! "other"
  = Some [].
Proof.
  destruct (handler_writes_only_its_baseline exampleNormalize
              AccessibilityDiff.diffSnapshots
              AccessibilityDiff.hasSnapshotChanges
              (Snapshot.mkChangeParams (Some "chat") None None)
              (Snapshot.mkResponse [])
              (Snapshot.mkContext (Some "Hello") {[ "other" := [] ]}))
    as (_ & Hframe & _).
  unfold Snapshot.takeChangeSnapshot. rewrite (Hframe "other").
  - reflexivity.
  - discriminate.
Defined.

Lemma missing_compare_baseline_stays_missing_witness :
  Snapshot.getAccessibilityBaseline
    (Snapshot.takeChangeSnapshot exampleNormalize
       (Snapshot.mkChangeParams (Some "now") None (Some "before"))
       (Snapshot.mkResponse [])
       (Snapshot.mkContext (Some "Hello") ∅)).1 "before"
  = None.
Proof.
  destruct (missing_compare_baseline_stays_missing exampleNormalize
              AccessibilityDiff.diffSnapshots
              AccessibilityDiff.hasSnapshotChanges
              (Snapshot.mkChangeParams (Some "now") None (Some "before"))
              (Snapshot.mkResponse []) (Snapshot.mkResponse [])
              (Snapshot.mkContext (Some "Hello") ∅) "Hello")
    as [Hmissing _];
    [reflexivity | discriminate | reflexivity | exact Hmissing].
Defined.

Lemma exampleOnce_lifecycle :
  Once.lifecycle (exampleOnce attachArgs "fill")
  = [Once.BrowserConnected; Once.GuardAcquired; Once.HandlerCalled "fill";
     Once.GuardDisposed; Once.ContextDisposed; Once.BrowserDisconnected].
Proof. vm_compute. reflexivity. Qed.

Lemma run_once_tears_down_witness :
  Once.GuardDisposed ∈ Once.lifecycle (exampleOnce attachArgs "fill")
  /\ Once.BrowserClosed ∉ Once.lifecycle (exampleOnce attachArgs "fill").
Proof.
  destruct (run_once_tears_down validateParams tt (fun _ _ n => (n, Ok tt))
              (fun _ => JArr []) (fun _ => []) [exampleTool] (fun _ => "{}")
              (fun _ => Ok tt) (fun _ => Ok tt) (fun (_ : unit) _ => Ok 0)
              (fun n => (n, Ok tt)) (fun _ => Ok tt) (fun _ => Ok tt)
              (fun _ => Ok tt) attachArgs "fill")
    as (Hguard & Hattached & _ & _).
  split.
  - apply Hguard.
    change (Once.GuardAcquired ∈ Once.lifecycle (exampleOnce attachArgs "fill")).
    rewrite exampleOnce_lifecycle, !elem_of_cons. auto.
  - apply Hattached.
    change (Once.BrowserConnected
              ∈ Once.lifecycle (exampleOnce attachArgs "fill")).
    rewrite exampleOnce_lifecycle, !elem_of_cons. auto.
Defined.

Lemma run_once_calls_the_enabled_tool_witness :
  Once.HandlerCalled "fill" ∈ Once.lifecycle (exampleOnce attachArgs "fill").
Proof.
  destruct (run_once_calls_the_enabled_tool validateParams tt
              (fun _ _ n => (n, Ok tt))
              (fun _ => JArr []) (fun _ => []) [exampleTool] (fun _ => "{}")
              (fun _ => Ok tt) (fun _ => Ok tt) (fun (_ : unit) _ => Ok 0)
              (fun n => (n, Ok tt)) (fun _ => Ok tt) (fun _ => Ok tt)
              (fun _ => Ok tt) attachArgs "fill")
    as (_ & Hwritten & _).
  apply Hwritten. vm_compute. discriminate.
Defined.

Lemma documented_command_is_decoded_witness :
  @decodeCliLine (option N) quotingRuntime nat unit [exampleTool]
    (@DocGen.getCliCommandForTool (option N) quotingRuntime
       [("value", JStr "Example text")] (name exampleTool)
       (schema exampleTool))
  = Command (name exampleTool)
      (fillPositionals ∅ exampleSchema.*1 ["<uid>"; "Example text"]).
Proof.
  assert (Hall : forall key schema,
            (key, schema) ∈ exampleSchema ->
            required (unwrapZodSchema schema) = true
            /\ schemaIsPositionalFriendly schema = true
            /\ @textShaped (option N) quotingRuntime schema = true).
  { intros key schema Hin. unfold exampleSchema in Hin.
    repeat (apply elem_of_cons in Hin as [Hin|Hin];
            [injection Hin as -> ->; repeat split|]).
    inversion Hin. }
  assert (Hvalues :
    Forall2 (fun key value =>
               @DocGen.exampleOr (option N) [("value", JStr "Example text")] key
               = DocGen.Own (JStr value)
               /\ @documentable (option N) quotingRuntime value)
      exampleSchema.*1 ["<uid>"; "Example text"]).
  { repeat constructor; try discriminate; reflexivity. }
  exact (@documented_command_is_decoded (option N) quotingRuntime nat unit
           [exampleTool] [("value", JStr "Example text")] exampleSchema
           exampleSchema_nodup Hall exampleTool ["<uid>"; "Example text"]
           eq_refl eq_refl ltac:(discriminate) eq_refl eq_refl eq_refl eq_refl
           Hvalues).
Defined.
